(** * LBP cascade face detector (host side): a shallow embedding

    The development follows [ep_cascade_detector.c], the host part of the
    detector: image buffers, the classifier blob and its validation, the two
    file formats, the pyramid kernels, the decision interpreter, the host scan
    driver, the tiling scheduler and the offload driver.

    Conventions.
    - A C [int] is a [Z], with C's truncating [/] and [%] ([Z.quot],
      [Z.rem]).  Offsets into a buffer, which leave the range of an [int]
      only with a buffer of 2 GiB or more, and the sum of a checksum, which
      leaves it only with more than 8 million bytes, are written with the
      unbounded operations.  The sums of the rounding helpers, the size of a
      new image buffer, the number of bytes read from an image file and the
      size of a one-piece copy leave the range on small inputs: they are
      written with the 32-bit wrap-around of the machine ([wrap32]).  A
      shift whose result does not fit an [int] is undefined, and stops the
      run.
    - [unsigned char] and [char] are [byte]; [float] is IEEE binary32, with the
      operations of [SpecFloat] at precision 24 and maximal exponent 128.
    - Memory is a store of [malloc]ed blocks; a pointer is a block and a byte
      offset, [NULL] is [None].  Reads and writes outside a live block, a
      division by zero and a failed [assert] stop the run.
    - [ep_cascade_detector.h] is not part of the sources at hand: its macros,
      enumerators and structure layouts are the fields of the class [Header]. *)

From Stdlib Require Import ZArith Lia List Bool.
From Stdlib Require Import Strings.Byte.
From Stdlib Require Import Floats.SpecFloat.
From stdpp Require Import base option list gmap strings.

Local Open Scope Z_scope.

(** ** The declarations of the absent header *)

(** Modelled from the spec: [ep_cascade_detector.h] (macros, enumerators,
    structure sizes and field offsets) is missing from the sources.  Every
    value the functions below take from it is a field here; the node
    structures are "tagged by a leading type code", so the tag sits at offset
    0 of each node and only the other fields have an offset of their own. *)
Class Header := {
  MAX_TILE_BYTES : Z;
  RECOMMENDED_TILE_SIZE : Z;
  MAX_DETECTIONS_PER_TILE : Z;
  FILE_ID_IMAGE : Z;
  FILE_ID_CLASSIFIER : Z;
  SCAN_FULL : Z;
  SCAN_EVEN : Z;
  SCAN_ODD : Z;
  NODE_META : Z;
  NODE_DECISION : Z;
  NODE_STAGE : Z;
  NODE_FINAL : Z;
  sizeof_EpNodeMeta : Z;
  sizeof_EpNodeDecision : Z;
  sizeof_EpNodeStage : Z;
  sizeof_EpNodeFinal : Z;
  offsetof_window_width : Z;
  offsetof_window_height : Z;
  offsetof_feature : Z;
  offsetof_score : Z;
  offsetof_subsets : Z;
  offsetof_threshold : Z;
  sizeof_EpRect : Z;
  sizeof_EpTaskItem : Z;
  sizeof_EpImageProp : Z
}.

(** Modelled from the spec: one set of values for the absent header, used
    where a run is evaluated.  The two checkerboard modes are the parities 0
    and 1 that [add_tasks_for_image] stores in a task, the Decision tag is the
    zero byte [classify] tests for, every field is a 4-byte [int] in
    declaration order, and a task carries [MAX_DETECTIONS_PER_TILE] packed
    positions after its eight [int] fields. *)
Definition reference_header (max_tile_bytes recommended_tile_size : Z) : Header := {|
  MAX_TILE_BYTES := max_tile_bytes;
  RECOMMENDED_TILE_SIZE := recommended_tile_size;
  MAX_DETECTIONS_PER_TILE := 15;
  FILE_ID_IMAGE := 1195461961;
  FILE_ID_CLASSIFIER := 1397967939;
  SCAN_FULL := 2;
  SCAN_EVEN := 0;
  SCAN_ODD := 1;
  NODE_META := 3;
  NODE_DECISION := 0;
  NODE_STAGE := 1;
  NODE_FINAL := 2;
  sizeof_EpNodeMeta := 12;
  sizeof_EpNodeDecision := 44;
  sizeof_EpNodeStage := 8;
  sizeof_EpNodeFinal := 4;
  offsetof_window_width := 4;
  offsetof_window_height := 8;
  offsetof_feature := 4;
  offsetof_score := 8;
  offsetof_subsets := 12;
  offsetof_threshold := 4;
  sizeof_EpRect := 16;
  sizeof_EpTaskItem := 92;
  sizeof_EpImageProp := 16
|}.

(** ** Runs that do not return a value *)

Inductive failure :=
  | UndefinedBehaviour   (* a read or write outside a live block, a division by zero *)
  | AssertionFailure     (* a failed [assert] *)
  | NeverReturns.        (* the polling loop of the offload path never ends *)

Inductive outcome (A : Type) :=
  | Done (a : A)
  | Stopped (f : failure).
Arguments Done {A} a.
Arguments Stopped {A} f.

Definition obind {A B} (m : outcome A) (k : A -> outcome B) : outcome B :=
  match m with
  | Done a => k a
  | Stopped f => Stopped f
  end.

Notation "'do' x <- m ; k" := (obind m (fun x => k))
  (at level 20, x pattern, m at level 100, k at level 200).

(** [guard b] stops with undefined behaviour unless [b] holds. *)
Definition guard (b : bool) : outcome unit :=
  if b then Done tt else Stopped UndefinedBehaviour.

(** [assert(b)]. *)
Definition assert (b : bool) : outcome unit :=
  if b then Done tt else Stopped AssertionFailure.

(** ** Integer helpers *)

(** A 32-bit two's complement value, from any integer: what a sum or a
    product of [int]s leaves in an [int]. *)
Definition wrap32 (z : Z) : Z := (z + 2 ^ 31) mod 2 ^ 32 - 2 ^ 31.

(** The 32-bit pattern of an [int], as an [unsigned int]. *)
Definition to_unsigned (z : Z) : Z := z mod 2 ^ 32.

(** Divide two positive integers rounding result up. *)
Definition divide_up (x y : Z) : Z := Z.quot (wrap32 (x + y - 1)) y.

(** Divide two positive integers rounding result to the nearest integer. *)
Definition divide_round (x y : Z) : Z := Z.quot (wrap32 (x + Z.quot y 2)) y.

(** Round number down to the value dividible by 8. *)
Definition round_down_to_8n (x : Z) : Z := Z.land x (-8).

(** Round number up to the value dividible by 8. *)
Definition round_up_to_8n (x : Z) : Z := Z.land (wrap32 (x + 7)) (-8).

(** Round number to the nearest value dividible by 8. *)
Definition round_to_8n (x : Z) : Z := Z.land (wrap32 (x + 4)) (-8).

(** [a << k] on [int]s: undefined for a negative operand, for a count of 32
    or more, and for a result that does not fit an [int]. *)
Definition shl_int (a k : Z) : outcome Z :=
  if (0 <=? a) && (0 <=? k) && (k <? 32) && (Z.shiftl a k <? 2 ^ 31)
  then Done (Z.shiftl a k)
  else Stopped UndefinedBehaviour.

(** [for (i = start; i < start + n; ++i) body], threading a state. *)
Fixpoint for_loop {S : Type} (n : nat) (start : Z)
    (body : Z -> S -> outcome S) (s : S) : outcome S :=
  match n with
  | O => Done s
  | Datatypes.S n' => do s' <- body start s; for_loop n' (start + 1) body s'
  end.

(** ** Memory *)

Definition ptr : Type := positive * Z.

(** The world a run starts in and leaves behind: the [malloc]ed blocks, what
    [malloc] grants and what a fresh block holds, and the file system. *)
Record World := {
  heap : gmap positive (list byte);
  next_block : positive;
  alloc_limit : Z;              (* the largest request [malloc] grants *)
  junk : nat -> byte;           (* the contents of memory never written *)
  files : gmap string (list byte);
  read_only : string -> bool;   (* [fopen(name, "wb")] fails *)
  disk_free : Z                 (* bytes that can still be written *)
}.

Definition set_heap (h : gmap positive (list byte)) (w : World) : World :=
  {| heap := h; next_block := next_block w; alloc_limit := alloc_limit w;
     junk := junk w; files := files w; read_only := read_only w;
     disk_free := disk_free w |}.

Definition set_files (f : gmap string (list byte)) (free : Z) (w : World) : World :=
  {| heap := heap w; next_block := next_block w; alloc_limit := alloc_limit w;
     junk := junk w; files := f; read_only := read_only w; disk_free := free |}.

(** [malloc(n)]: a fresh block of [n] bytes of unspecified contents, or
    [NULL].  A negative [int] converted to [size_t] is a request no
    allocator grants. *)
Definition malloc (n : Z) (w : World) : option ptr * World :=
  if (0 <=? n) && (n <=? alloc_limit w) then
    let b := next_block w in
    (Some (b, 0),
     {| heap := <[b := map (junk w) (seq 0 (Z.to_nat n))]> (heap w);
        next_block := Pos.succ b; alloc_limit := alloc_limit w;
        junk := junk w; files := files w; read_only := read_only w;
        disk_free := disk_free w |})
  else (None, w).

(** [free(p)]: [free(NULL)] does nothing; anything but the start of a live
    block is undefined. *)
Definition free (p : option ptr) (w : World) : outcome World :=
  match p with
  | None => Done w
  | Some (b, off) =>
      match heap w !! b with
      | Some _ => if off =? 0 then Done (set_heap (delete b (heap w)) w)
                  else Stopped UndefinedBehaviour
      | None => Stopped UndefinedBehaviour
      end
  end.

(** [p[i]] read as [unsigned char]. *)
Definition load_byte (w : World) (p : ptr) (i : Z) : outcome Z :=
  match heap w !! p.1 with
  | Some block =>
      if 0 <=? p.2 + i then
        match block !! Z.to_nat (p.2 + i) with
        | Some c => Done (Z.of_N (Byte.to_N c))
        | None => Stopped UndefinedBehaviour
        end
      else Stopped UndefinedBehaviour
  | None => Stopped UndefinedBehaviour
  end.

Definition byte_of_Z (v : Z) : byte :=
  match Byte.of_N (Z.to_N (v mod 256)) with
  | Some c => c
  | None => x00
  end.

(** [p[i] = (unsigned char)v]. *)
Definition store_byte (p : ptr) (i : Z) (v : Z) (w : World) : outcome World :=
  match heap w !! p.1 with
  | Some block =>
      if (0 <=? p.2 + i) && (p.2 + i <? Z.of_nat (length block)) then
        Done (set_heap (<[p.1 := <[Z.to_nat (p.2 + i) := byte_of_Z v]> block]> (heap w)) w)
      else Stopped UndefinedBehaviour
  | None => Stopped UndefinedBehaviour
  end.

(** A pointer moved by [i] bytes. *)
Definition ptr_add (p : ptr) (i : Z) : ptr := (p.1, p.2 + i).

(** [p[i]] read as [char], signed as on the x86 and unsigned as on the ARM
    ABI. *)
Definition char_of_byte (char_signed : bool) (v : Z) : Z :=
  if char_signed && (128 <=? v) then v - 256 else v.

(** The [int] stored at [p + off], least significant byte first. *)
Definition load_int (w : World) (p : ptr) (off : Z) : outcome Z :=
  do b0 <- load_byte w p off;
  do b1 <- load_byte w p (off + 1);
  do b2 <- load_byte w p (off + 2);
  do b3 <- load_byte w p (off + 3);
  Done (wrap32 (b0 + 256 * b1 + 65536 * b2 + 16777216 * b3)).

(** The four bytes of an [int], least significant first. *)
Definition int_bytes (v : Z) : list byte :=
  let u := to_unsigned v in
  [byte_of_Z u; byte_of_Z (Z.shiftr u 8); byte_of_Z (Z.shiftr u 16);
   byte_of_Z (Z.shiftr u 24)].

Definition int_of_bytes (l : list byte) : Z :=
  wrap32 (fold_right (fun c acc => Z.of_N (Byte.to_N c) + 256 * acc) 0 l).

(** [n] bytes starting at [p], as [fwrite] and [memcpy] read them. *)
Definition load_bytes (w : World) (p : ptr) (n : Z) : outcome (list byte) :=
  match heap w !! p.1 with
  | Some block =>
      if (0 <=? p.2) && (0 <=? n) && (p.2 + n <=? Z.of_nat (length block)) then
        Done (take (Z.to_nat n) (drop (Z.to_nat p.2) block))
      else Stopped UndefinedBehaviour
  | None => Stopped UndefinedBehaviour
  end.

(** The bytes [l] written at [p], as [fread] writes them. *)
Definition store_bytes (p : ptr) (l : list byte) (w : World) : outcome World :=
  match heap w !! p.1 with
  | Some block =>
      if (0 <=? p.2) && (p.2 + Z.of_nat (length l) <=? Z.of_nat (length block)) then
        Done (set_heap
                (<[p.1 := take (Z.to_nat p.2) block ++ l ++
                           drop (Z.to_nat p.2 + length l) block]> (heap w)) w)
      else Stopped UndefinedBehaviour
  | None => Stopped UndefinedBehaviour
  end.

(** ** Files *)

(** A [FILE *]: the name it was opened under, what is left to read, and
    whether [fclose] has been called on it. *)
Record FILE := {
  f_name : string;
  f_rest : list byte;
  f_open : bool
}.

(** [fopen(name, "rb")]. *)
Definition fopen_rb (name : string) (w : World) : option FILE :=
  match files w !! name with
  | Some contents => Some {| f_name := name; f_rest := contents; f_open := true |}
  | None => None
  end.

(** [fopen(name, "wb")]: the file is created, or truncated. *)
Definition fopen_wb (name : string) (w : World) : option FILE * World :=
  if read_only w name then (None, w)
  else (Some {| f_name := name; f_rest := []; f_open := true |},
        set_files (<[name := []]> (files w)) (disk_free w) w).

(** [fread(buf, 1, n, file)]: the bytes read and the stream after them.  A
    negative [int] converted to [size_t] asks for more than a file holds:
    all that is left is read. *)
Definition fread (n : Z) (file : FILE) : outcome (list byte * FILE) :=
  if f_open file then
    let count := if n <? 0 then length (f_rest file) else Z.to_nat n in
    Done (take count (f_rest file),
          {| f_name := f_name file; f_rest := drop count (f_rest file);
             f_open := true |})
  else Stopped UndefinedBehaviour.

(** [fwrite(buf, 1, n, file)]: the number of bytes written, which falls
    short of [n] when the disk is full.  The stream is not buffered here: a
    write error is met by the call that writes, where a buffered stream may
    report it only when it is flushed. *)
Definition fwrite (l : list byte) (file : FILE) (w : World) : outcome (Z * World) :=
  if f_open file then
    let n := Z.min (Z.of_nat (length l)) (Z.max 0 (disk_free w)) in
    let old := default [] (files w !! f_name file) in
    Done (n, set_files (<[f_name file := old ++ take (Z.to_nat n) l]> (files w))
                       (disk_free w - n) w)
  else Stopped UndefinedBehaviour.

(** [fclose(file)]; closing a stream twice is undefined. *)
Definition fclose (file : FILE) : outcome FILE :=
  if f_open file then
    Done {| f_name := f_name file; f_rest := f_rest file; f_open := false |}
  else Stopped UndefinedBehaviour.

(** ** Error codes *)

Inductive EpErrorCode :=
  | ERR_SUCCESS
  | ERR_ARGUMENT
  | ERR_FILE
  | ERR_FILE_CONTENTS
  | ERR_MEMORY
  | ERR_OTHER.

(** [if(error_code) *error_code = e]: the cell behind an out-parameter that
    may be [NULL]. *)
Definition set_error (error_code : option EpErrorCode) (e : EpErrorCode)
  : option EpErrorCode :=
  match error_code with
  | Some _ => Some e
  | None => None
  end.

(** ** Image functions *)

Record EpImage := {
  img_data : option ptr;
  img_width : Z;
  img_height : Z;
  img_step : Z
}.

(** Create empty EpImage. *)
Definition ep_image_create_empty : EpImage :=
  {| img_data := None; img_width := 0; img_height := 0; img_step := 0 |}.

(** Check whether image is empty. *)
Definition ep_image_is_empty (image : EpImage) : bool :=
  match img_data image with
  | None => true
  | Some _ => false
  end.

(** Create EpImage given its width and height.  The size of the buffer is a
    product of two [int]s. *)
Definition ep_image_create (width height : Z) (w : World) : EpImage * World :=
  let step := round_up_to_8n width in
  match malloc (wrap32 (step * height)) w with
  | (Some p, w') =>
      ({| img_data := Some p; img_width := width; img_height := height;
          img_step := step |}, w')
  | (None, w') => (ep_image_create_empty, w')
  end.

(** Release image. After calling this function image will be empty. *)
Definition ep_image_release (image : EpImage) (w : World) : outcome (EpImage * World) :=
  do w' <- free (img_data image) w;
  Done (ep_image_create_empty, w').

(** The sum of the [n] bytes at [p]. *)
Definition sum_bytes (w : World) (p : ptr) (n : Z) (result : Z) : outcome Z :=
  for_loop (Z.to_nat n) 0 (fun i r => do c <- load_byte w p i; Done (r + c)) result.

(** Calculates image checksum for debugging purpose. *)
Definition ep_image_checksum (image : EpImage) (w : World) : outcome Z :=
  match img_data image with
  | None => if (0 <? img_width image) && (0 <? img_height image)
            then Stopped UndefinedBehaviour else Done 0
  | Some image_data =>
      if img_step image =? img_width image then
        sum_bytes w image_data (img_width image * img_height image) 0
      else
        for_loop (Z.to_nat (img_height image)) 0
          (fun y r => sum_bytes w (ptr_add image_data (y * img_step image))
                                (img_width image) r) 0
  end.

(** The rows of an image whose step differs from its width, written one
    [fwrite] per row; [None] when all rows went out, the error otherwise. *)
Fixpoint save_rows (rows : nat) (image_data : ptr) (image_width image_step : Z)
    (file : FILE) (w : World) : outcome (option EpErrorCode * World) :=
  match rows with
  | O => Done (None, w)
  | S rows' =>
      do row <- load_bytes w image_data image_width;
      do (written, w1) <- fwrite row file w;
      if written =? image_width then
        save_rows rows' (ptr_add image_data image_step) image_width image_step file w1
      else
        do _ <- fclose file;
        Done (Some ERR_FILE, w1)
  end.

Section Images.
Context {hdr : Header}.

(** Save image to simple binary file for debug purpose. *)
Definition ep_image_save (image : EpImage) (file_name : string) (w : World)
  : outcome (EpErrorCode * World) :=
  match img_data image with
  | None => Done (ERR_ARGUMENT, w)
  | Some image_data =>
      if (img_width image <=? 0) || (img_height image <=? 0) then Done (ERR_ARGUMENT, w)
      else
        match fopen_wb file_name w with
        | (None, w0) => Done (ERR_FILE, w0)
        | (Some file, w0) =>
            do (n_id, w1) <- fwrite (int_bytes FILE_ID_IMAGE) file w0;
            if negb (n_id =? 4) then do _ <- fclose file; Done (ERR_FILE, w1)
            else
              let image_width := img_width image in
              let image_height := img_height image in
              let image_step := img_step image in
              do (n_w, w2) <- fwrite (int_bytes image_width) file w1;
              if negb (n_w =? 4) then do _ <- fclose file; Done (ERR_FILE, w2)
              else
                do (n_h, w3) <- fwrite (int_bytes image_height) file w2;
                if negb (n_h =? 4) then do _ <- fclose file; Done (ERR_FILE, w3)
                else if image_step =? image_width then
                  let data_size := image_width * image_height in
                  do pixels <- load_bytes w3 image_data data_size;
                  do (n_d, w4) <- fwrite pixels file w3;
                  if negb (n_d =? data_size) then do _ <- fclose file; Done (ERR_FILE, w4)
                  else do _ <- fclose file; Done (ERR_SUCCESS, w4)
                else
                  do (failed, w4) <- save_rows (Z.to_nat image_height) image_data
                                         image_width image_step file w3;
                  match failed with
                  | Some e => Done (e, w4)
                  | None => do _ <- fclose file; Done (ERR_SUCCESS, w4)
                  end
        end
  end.

(** Load image from simple binary file ( previously written by
    ep_image_save() ).  The branch taken on a short pixel payload has no
    [return]: the run goes on to the lines that store [ERR_SUCCESS] and close
    the file. *)
Definition ep_image_load (file_name : string) (error_code : option EpErrorCode)
    (w : World) : outcome ((EpImage * option EpErrorCode) * World) :=
  let result := ep_image_create_empty in
  match fopen_rb file_name w with
  | None => Done ((result, set_error error_code ERR_FILE), w)
  | Some file =>
      do (id, file) <- fread 4 file;
      if negb (length id =? 4)%nat || negb (int_of_bytes id =? FILE_ID_IMAGE) then
        do _ <- fclose file;
        Done ((result, set_error error_code ERR_FILE_CONTENTS), w)
      else
        do (wd, file) <- fread 4 file;
        let image_width := int_of_bytes wd in
        if negb (length wd =? 4)%nat || (image_width <=? 0) then
          do _ <- fclose file;
          Done ((result, set_error error_code ERR_FILE_CONTENTS), w)
        else
          do (ht, file) <- fread 4 file;
          let image_height := int_of_bytes ht in
          if negb (length ht =? 4)%nat || (image_height <=? 0) then
            do _ <- fclose file;
            Done ((result, set_error error_code ERR_FILE_CONTENTS), w)
          else
            let '(result, w1) := ep_image_create image_width image_height w in
            match img_data result with
            | None =>
                do _ <- fclose file;
                Done ((result, set_error error_code ERR_MEMORY), w1)
            | Some result_data =>
                let data_size := wrap32 (image_width * image_height) in
                do (pixels, file) <- fread data_size file;
                do w2 <- store_bytes result_data pixels w1;
                do (error_code, file, result, w3) <-
                  (if negb (Z.of_nat (length pixels) =? data_size) then
                     do file <- fclose file;
                     do (result, w3) <- ep_image_release result w2;
                     Done (set_error error_code ERR_FILE_CONTENTS, file, result, w3)
                   else Done (error_code, file, result, w2));
                let error_code := set_error error_code ERR_SUCCESS in
                do _ <- fclose file;
                Done ((result, error_code), w3)
            end
  end.

End Images.

(** ** Growable lists *)

(** [float]: IEEE binary32. *)
Definition float : Type := spec_float.
Definition float_of_int (z : Z) : float := binary_normalize 24 128 z 0 false.
Definition fmul : float -> float -> float := SFmul 24 128.
Definition fadd : float -> float -> float := SFadd 24 128.
Definition fdiv : float -> float -> float := SFdiv 24 128.

Record EpRect := {
  rect_x : float;
  rect_y : float;
  rect_width : float;
  rect_height : float
}.

(** A list keeps its items and its capacity; its [count] is the number of
    items, and [data + count] is the end of the list. *)
Record EpRectList := {
  rects : list EpRect;
  rects_capacity : Z
}.

Record EpImageProp := {
  prop_data_offset : Z;
  prop_step : Z;
  prop_width : Z;
  prop_height : Z
}.

Record EpImgList := {
  imgs : list EpImageProp;
  imgs_capacity : Z;
  prev_offset : Z;
  cur_offset : Z
}.

Record EpTaskItem := {
  task_offset : Z;
  task_area : Z;
  task_width : Z;
  task_height : Z;
  task_step : Z;
  task_scan_mode : Z;
  task_items_count : Z;
  task_image_index : Z;
  task_objects : list Z   (* packed positions, written by the cores *)
}.

Record EpTaskList := {
  tasks : list EpTaskItem;
  tasks_capacity : Z
}.

Definition rects_count (l : EpRectList) : Z := Z.of_nat (length (rects l)).
Definition imgs_count (l : EpImgList) : Z := Z.of_nat (length (imgs l)).
Definition tasks_count (l : EpTaskList) : Z := Z.of_nat (length (tasks l)).

(** [realloc(data, bytes)] of a list's buffer succeeds.  The buffer of a
    list is not a block of the heap here: a list is its items and its
    capacity, and growing it is the test that the allocator grants the
    size. *)
Definition realloc_ok (w : World) (bytes : Z) : bool :=
  (0 <=? bytes) && (bytes <=? alloc_limit w).

Section Lists.
Context {hdr : Header}.

(** Create empty images list. *)
Definition ep_img_list_create_empty (start_offset : Z) : EpImgList :=
  {| imgs := []; imgs_capacity := 0; prev_offset := start_offset;
     cur_offset := start_offset |}.

(** Add item to images list. *)
Definition ep_img_list_add (w : World) (img_list : EpImgList) (step width height : Z)
  : EpErrorCode * EpImgList :=
  let grown :=
    if imgs_count img_list =? imgs_capacity img_list then
      let new_capacity := imgs_capacity img_list + 4 in
      if realloc_ok w (sizeof_EpImageProp * new_capacity) then Some new_capacity
      else None
    else Some (imgs_capacity img_list) in
  match grown with
  | None => (ERR_MEMORY, img_list)
  | Some capacity =>
      let new_img := {| prop_data_offset := cur_offset img_list; prop_step := step;
                        prop_width := width; prop_height := height |} in
      (ERR_SUCCESS,
       {| imgs := imgs img_list ++ [new_img]; imgs_capacity := capacity;
          prev_offset := cur_offset img_list;
          cur_offset := cur_offset img_list + step * height |})
  end.

(** Release data hold by image list. *)
Definition ep_img_list_release (img_list : EpImgList) : EpImgList :=
  {| imgs := []; imgs_capacity := 0; prev_offset := prev_offset img_list;
     cur_offset := cur_offset img_list |}.

(** Create empty rectangles list. *)
Definition ep_rect_list_create_empty : EpRectList :=
  {| rects := []; rects_capacity := 0 |}.

(** Add item to rectangles list. *)
Definition ep_rect_list_add (w : World) (rect_list : EpRectList)
    (x y width height : float) : EpErrorCode * EpRectList :=
  let grown :=
    if rects_count rect_list =? rects_capacity rect_list then
      let new_capacity := rects_capacity rect_list + MAX_DETECTIONS_PER_TILE in
      if realloc_ok w (sizeof_EpRect * new_capacity) then Some new_capacity else None
    else Some (rects_capacity rect_list) in
  match grown with
  | None => (ERR_MEMORY, rect_list)
  | Some capacity =>
      let new_rect := {| rect_x := x; rect_y := y; rect_width := width;
                         rect_height := height |} in
      (ERR_SUCCESS, {| rects := rects rect_list ++ [new_rect]; rects_capacity := capacity |})
  end.

(** Create empty task list. *)
Definition ep_task_list_create_empty : EpTaskList :=
  {| tasks := []; tasks_capacity := 0 |}.

(** Add item to tasks list. *)
Definition ep_task_list_add (w : World) (task_list : EpTaskList)
    (offset width height step scan_mode items_count image_index : Z)
  : EpErrorCode * EpTaskList :=
  let grown :=
    if tasks_count task_list =? tasks_capacity task_list then
      let new_capacity := tasks_capacity task_list + MAX_DETECTIONS_PER_TILE in
      if realloc_ok w (sizeof_EpTaskItem * new_capacity) then Some new_capacity else None
    else Some (tasks_capacity task_list) in
  match grown with
  | None => (ERR_MEMORY, task_list)
  | Some capacity =>
      let new_task := {| task_offset := offset; task_area := step * height;
                         task_width := width; task_height := height;
                         task_step := step; task_scan_mode := scan_mode;
                         task_items_count := items_count;
                         task_image_index := image_index; task_objects := [] |} in
      (ERR_SUCCESS, {| tasks := tasks task_list ++ [new_task]; tasks_capacity := capacity |})
  end.

(** Release data hold by task list. *)
Definition ep_task_list_release (task_list : EpTaskList) : EpTaskList :=
  {| tasks := []; tasks_capacity := 0 |}.

End Lists.

(** ** Classifier functions *)

Record EpCascadeClassifier := {
  cls_data : option ptr;
  cls_size : Z
}.

(** Create classifier which is recognised by other functions as "empty". *)
Definition ep_classifier_create_empty : EpCascadeClassifier :=
  {| cls_data := None; cls_size := 0 |}.

(** Check whether classifier is empty. *)
Definition ep_classifier_is_empty (classifier : EpCascadeClassifier) : bool :=
  match cls_data classifier with
  | None => true
  | Some _ => false
  end.

(** Release memory hold by classifier. *)
Definition ep_classifier_release (classifier : EpCascadeClassifier) (w : World)
  : outcome (EpCascadeClassifier * World) :=
  do w' <- free (cls_data classifier) w;
  Done (ep_classifier_create_empty, w').

(** Calculate classifier checksum for debug purpose. *)
Definition ep_classifier_checksum (char_signed : bool)
    (classifier : EpCascadeClassifier) (w : World) : outcome Z :=
  match cls_data classifier with
  | None => if 0 <? cls_size classifier then Stopped UndefinedBehaviour else Done 0
  | Some classifier_data =>
      for_loop (Z.to_nat (cls_size classifier)) 0
        (fun i result =>
           do c <- load_byte w classifier_data i;
           Done (result + char_of_byte char_signed c)) 0
  end.

Section Classifier.
Context {hdr : Header}.

(** Check classifier data for validity. Empty classifier is considered
    invalid! *)
Definition ep_classifier_check (classifier : EpCascadeClassifier) (w : World)
  : outcome Z :=
  match cls_data classifier with
  | None => Done 1
  | Some first_item =>
      let size := cls_size classifier in
      if size <? sizeof_EpNodeMeta + sizeof_EpNodeDecision +
                 sizeof_EpNodeStage + sizeof_EpNodeFinal then Done 2
      else
        do tag <- load_int w first_item 0;
        if negb (tag =? NODE_META) then Done 3
        else
          do window_height <- load_int w first_item offsetof_window_height;
          do small <- (if window_height <? 3 then Done true
                       else do window_width <- load_int w first_item offsetof_window_width;
                            Done (window_width <? 3));
          if (small : bool) then Done 4
          else
            let second_item := ptr_add first_item sizeof_EpNodeMeta in
            do tag2 <- load_int w second_item 0;
            if negb (tag2 =? NODE_DECISION) then Done 5
            else
              let last_item := ptr_add first_item (size - sizeof_EpNodeFinal) in
              do tag_last <- load_int w last_item 0;
              if negb (tag_last =? NODE_FINAL) then Done 6
              else
                let before_last_item := ptr_add last_item (- sizeof_EpNodeStage) in
                do tag_before <- load_int w before_last_item 0;
                if negb (tag_before =? NODE_STAGE) then Done 7
                else Done 0
  end.

(** Save classifier to binary file. *)
Definition ep_classifier_save (classifier : EpCascadeClassifier) (file_name : string)
    (w : World) : outcome (EpErrorCode * World) :=
  match cls_data classifier with
  | None => Done (ERR_ARGUMENT, w)
  | Some classifier_data =>
      let classifier_size := cls_size classifier in
      if classifier_size <=? 0 then Done (ERR_ARGUMENT, w)
      else
        match fopen_wb file_name w with
        | (None, w0) => Done (ERR_FILE, w0)
        | (Some file, w0) =>
            do (n_id, w1) <- fwrite (int_bytes FILE_ID_CLASSIFIER) file w0;
            if negb (n_id =? 4) then do _ <- fclose file; Done (ERR_FILE, w1)
            else
              do (n_s, w2) <- fwrite (int_bytes classifier_size) file w1;
              if negb (n_s =? 4) then do _ <- fclose file; Done (ERR_FILE, w2)
              else
                do blob <- load_bytes w2 classifier_data classifier_size;
                do (n_d, w3) <- fwrite blob file w2;
                if negb (n_d =? classifier_size) then
                  do _ <- fclose file; Done (ERR_FILE, w3)
                else do _ <- fclose file; Done (ERR_SUCCESS, w3)
        end
  end.

(** Load classifier from binary file ( previously written by
    ep_classifier_save() ). *)
Definition ep_classifier_load (file_name : string) (error_code : option EpErrorCode)
    (w : World) : outcome ((EpCascadeClassifier * option EpErrorCode) * World) :=
  let result := ep_classifier_create_empty in
  match fopen_rb file_name w with
  | None => Done ((result, set_error error_code ERR_FILE), w)
  | Some file =>
      do (id, file) <- fread 4 file;
      if negb (length id =? 4)%nat || negb (int_of_bytes id =? FILE_ID_CLASSIFIER) then
        do _ <- fclose file;
        Done ((result, set_error error_code ERR_FILE_CONTENTS), w)
      else
        do (sz, file) <- fread 4 file;
        let classifier_size := int_of_bytes sz in
        if negb (length sz =? 4)%nat || (classifier_size <=? 0) then
          do _ <- fclose file;
          Done ((result, set_error error_code ERR_FILE_CONTENTS), w)
        else
          match malloc classifier_size w with
          | (None, w1) =>
              do _ <- fclose file;
              Done (({| cls_data := None; cls_size := 0 |},
                     set_error error_code ERR_MEMORY), w1)
          | (Some result_data, w1) =>
              let result := {| cls_data := Some result_data;
                               cls_size := classifier_size |} in
              do (blob, file) <- fread classifier_size file;
              do w2 <- store_bytes result_data blob w1;
              if negb (Z.of_nat (length blob) =? classifier_size) then
                do _ <- fclose file;
                do (result, w3) <- ep_classifier_release result w2;
                Done ((result, set_error error_code ERR_FILE_CONTENTS), w3)
              else
                do _ <- fclose file;
                do bad <- ep_classifier_check result w2;
                if negb (bad =? 0) then
                  do (result, w3) <- ep_classifier_release result w2;
                  Done ((result, set_error error_code ERR_FILE_CONTENTS), w3)
                else Done ((result, set_error error_code ERR_SUCCESS), w2)
          end
  end.

End Classifier.

(** ** Detection functions: the pyramid kernels *)

(** The target of a pointer that is dereferenced. *)
Definition deref (p : option ptr) : outcome ptr :=
  match p with
  | Some q => Done q
  | None => Stopped UndefinedBehaviour
  end.

(** The interpolation weights of [scale8765], one entry per assignment of the
    generated code and in its order: the row and column of the output pixel
    within its block, the source pixels of the 8x8 block with their weights,
    the rounding term and the divisor. *)
Definition o7_weights : list (Z * Z * list (Z * Z * Z) * Z * Z) :=
  [(0, 0, [(0, 0, 49); (0, 1, 7); (1, 0, 7); (1, 1, 1)], 32, 64);
  (0, 1, [(0, 1, 42); (0, 2, 14); (1, 1, 6); (1, 2, 2)], 32, 64);
  (0, 2, [(0, 2, 35); (0, 3, 21); (1, 2, 5); (1, 3, 3)], 32, 64);
  (0, 3, [(0, 3, 28); (0, 4, 28); (1, 3, 4); (1, 4, 4)], 32, 64);
  (0, 4, [(0, 4, 21); (0, 5, 35); (1, 4, 3); (1, 5, 5)], 32, 64);
  (0, 5, [(0, 5, 14); (0, 6, 42); (1, 5, 2); (1, 6, 6)], 32, 64);
  (0, 6, [(0, 6, 7); (0, 7, 49); (1, 6, 1); (1, 7, 7)], 32, 64);
  (1, 0, [(1, 0, 42); (1, 1, 6); (2, 0, 14); (2, 1, 2)], 32, 64);
  (1, 1, [(1, 1, 36); (1, 2, 12); (2, 1, 12); (2, 2, 4)], 32, 64);
  (1, 2, [(1, 2, 30); (1, 3, 18); (2, 2, 10); (2, 3, 6)], 32, 64);
  (1, 3, [(1, 3, 24); (1, 4, 24); (2, 3, 8); (2, 4, 8)], 32, 64);
  (1, 4, [(1, 4, 18); (1, 5, 30); (2, 4, 6); (2, 5, 10)], 32, 64);
  (1, 5, [(1, 5, 12); (1, 6, 36); (2, 5, 4); (2, 6, 12)], 32, 64);
  (1, 6, [(1, 6, 6); (1, 7, 42); (2, 6, 2); (2, 7, 14)], 32, 64);
  (2, 0, [(2, 0, 35); (2, 1, 5); (3, 0, 21); (3, 1, 3)], 32, 64);
  (2, 1, [(2, 1, 30); (2, 2, 10); (3, 1, 18); (3, 2, 6)], 32, 64);
  (2, 2, [(2, 2, 25); (2, 3, 15); (3, 2, 15); (3, 3, 9)], 32, 64);
  (2, 3, [(2, 3, 20); (2, 4, 20); (3, 3, 12); (3, 4, 12)], 32, 64);
  (2, 4, [(2, 4, 15); (2, 5, 25); (3, 4, 9); (3, 5, 15)], 32, 64);
  (2, 5, [(2, 5, 10); (2, 6, 30); (3, 5, 6); (3, 6, 18)], 32, 64);
  (2, 6, [(2, 6, 5); (2, 7, 35); (3, 6, 3); (3, 7, 21)], 32, 64);
  (3, 0, [(3, 0, 28); (3, 1, 4); (4, 0, 28); (4, 1, 4)], 32, 64);
  (3, 1, [(3, 1, 24); (3, 2, 8); (4, 1, 24); (4, 2, 8)], 32, 64);
  (3, 2, [(3, 2, 20); (3, 3, 12); (4, 2, 20); (4, 3, 12)], 32, 64);
  (3, 3, [(3, 3, 16); (3, 4, 16); (4, 3, 16); (4, 4, 16)], 32, 64);
  (3, 4, [(3, 4, 12); (3, 5, 20); (4, 4, 12); (4, 5, 20)], 32, 64);
  (3, 5, [(3, 5, 8); (3, 6, 24); (4, 5, 8); (4, 6, 24)], 32, 64);
  (3, 6, [(3, 6, 4); (3, 7, 28); (4, 6, 4); (4, 7, 28)], 32, 64);
  (4, 0, [(4, 0, 21); (4, 1, 3); (5, 0, 35); (5, 1, 5)], 32, 64);
  (4, 1, [(4, 1, 18); (4, 2, 6); (5, 1, 30); (5, 2, 10)], 32, 64);
  (4, 2, [(4, 2, 15); (4, 3, 9); (5, 2, 25); (5, 3, 15)], 32, 64);
  (4, 3, [(4, 3, 12); (4, 4, 12); (5, 3, 20); (5, 4, 20)], 32, 64);
  (4, 4, [(4, 4, 9); (4, 5, 15); (5, 4, 15); (5, 5, 25)], 32, 64);
  (4, 5, [(4, 5, 6); (4, 6, 18); (5, 5, 10); (5, 6, 30)], 32, 64);
  (4, 6, [(4, 6, 3); (4, 7, 21); (5, 6, 5); (5, 7, 35)], 32, 64);
  (5, 0, [(5, 0, 14); (5, 1, 2); (6, 0, 42); (6, 1, 6)], 32, 64);
  (5, 1, [(5, 1, 12); (5, 2, 4); (6, 1, 36); (6, 2, 12)], 32, 64);
  (5, 2, [(5, 2, 10); (5, 3, 6); (6, 2, 30); (6, 3, 18)], 32, 64);
  (5, 3, [(5, 3, 8); (5, 4, 8); (6, 3, 24); (6, 4, 24)], 32, 64);
  (5, 4, [(5, 4, 6); (5, 5, 10); (6, 4, 18); (6, 5, 30)], 32, 64);
  (5, 5, [(5, 5, 4); (5, 6, 12); (6, 5, 12); (6, 6, 36)], 32, 64);
  (5, 6, [(5, 6, 2); (5, 7, 14); (6, 6, 6); (6, 7, 42)], 32, 64);
  (6, 0, [(6, 0, 7); (6, 1, 1); (7, 0, 49); (7, 1, 7)], 32, 64);
  (6, 1, [(6, 1, 6); (6, 2, 2); (7, 1, 42); (7, 2, 14)], 32, 64);
  (6, 2, [(6, 2, 5); (6, 3, 3); (7, 2, 35); (7, 3, 21)], 32, 64);
  (6, 3, [(6, 3, 4); (6, 4, 4); (7, 3, 28); (7, 4, 28)], 32, 64);
  (6, 4, [(6, 4, 3); (6, 5, 5); (7, 4, 21); (7, 5, 35)], 32, 64);
  (6, 5, [(6, 5, 2); (6, 6, 6); (7, 5, 14); (7, 6, 42)], 32, 64);
  (6, 6, [(6, 6, 1); (6, 7, 7); (7, 6, 7); (7, 7, 49)], 32, 64)].

Definition o6_weights : list (Z * Z * list (Z * Z * Z) * Z * Z) :=
  [(0, 0, [(0, 0, 9); (0, 1, 3); (1, 0, 3); (1, 1, 1)], 8, 16);
  (0, 1, [(0, 1, 6); (0, 2, 6); (1, 1, 2); (1, 2, 2)], 8, 16);
  (0, 2, [(0, 2, 3); (0, 3, 9); (1, 2, 1); (1, 3, 3)], 8, 16);
  (0, 3, [(0, 4, 9); (0, 5, 3); (1, 4, 3); (1, 5, 1)], 8, 16);
  (0, 4, [(0, 5, 6); (0, 6, 6); (1, 5, 2); (1, 6, 2)], 8, 16);
  (0, 5, [(0, 6, 3); (0, 7, 9); (1, 6, 1); (1, 7, 3)], 8, 16);
  (1, 0, [(1, 0, 6); (1, 1, 2); (2, 0, 6); (2, 1, 2)], 8, 16);
  (1, 1, [(1, 1, 4); (1, 2, 4); (2, 1, 4); (2, 2, 4)], 8, 16);
  (1, 2, [(1, 2, 2); (1, 3, 6); (2, 2, 2); (2, 3, 6)], 8, 16);
  (1, 3, [(1, 4, 6); (1, 5, 2); (2, 4, 6); (2, 5, 2)], 8, 16);
  (1, 4, [(1, 5, 4); (1, 6, 4); (2, 5, 4); (2, 6, 4)], 8, 16);
  (1, 5, [(1, 6, 2); (1, 7, 6); (2, 6, 2); (2, 7, 6)], 8, 16);
  (2, 0, [(2, 0, 3); (2, 1, 1); (3, 0, 9); (3, 1, 3)], 8, 16);
  (2, 1, [(2, 1, 2); (2, 2, 2); (3, 1, 6); (3, 2, 6)], 8, 16);
  (2, 2, [(2, 2, 1); (2, 3, 3); (3, 2, 3); (3, 3, 9)], 8, 16);
  (2, 3, [(2, 4, 3); (2, 5, 1); (3, 4, 9); (3, 5, 3)], 8, 16);
  (2, 4, [(2, 5, 2); (2, 6, 2); (3, 5, 6); (3, 6, 6)], 8, 16);
  (2, 5, [(2, 6, 1); (2, 7, 3); (3, 6, 3); (3, 7, 9)], 8, 16);
  (3, 0, [(4, 0, 9); (4, 1, 3); (5, 0, 3); (5, 1, 1)], 8, 16);
  (3, 1, [(4, 1, 6); (4, 2, 6); (5, 1, 2); (5, 2, 2)], 8, 16);
  (3, 2, [(4, 2, 3); (4, 3, 9); (5, 2, 1); (5, 3, 3)], 8, 16);
  (3, 3, [(4, 4, 9); (4, 5, 3); (5, 4, 3); (5, 5, 1)], 8, 16);
  (3, 4, [(4, 5, 6); (4, 6, 6); (5, 5, 2); (5, 6, 2)], 8, 16);
  (3, 5, [(4, 6, 3); (4, 7, 9); (5, 6, 1); (5, 7, 3)], 8, 16);
  (4, 0, [(5, 0, 6); (5, 1, 2); (6, 0, 6); (6, 1, 2)], 8, 16);
  (4, 1, [(5, 1, 4); (5, 2, 4); (6, 1, 4); (6, 2, 4)], 8, 16);
  (4, 2, [(5, 2, 2); (5, 3, 6); (6, 2, 2); (6, 3, 6)], 8, 16);
  (4, 3, [(5, 4, 6); (5, 5, 2); (6, 4, 6); (6, 5, 2)], 8, 16);
  (4, 4, [(5, 5, 4); (5, 6, 4); (6, 5, 4); (6, 6, 4)], 8, 16);
  (4, 5, [(5, 6, 2); (5, 7, 6); (6, 6, 2); (6, 7, 6)], 8, 16);
  (5, 0, [(6, 0, 3); (6, 1, 1); (7, 0, 9); (7, 1, 3)], 8, 16);
  (5, 1, [(6, 1, 2); (6, 2, 2); (7, 1, 6); (7, 2, 6)], 8, 16);
  (5, 2, [(6, 2, 1); (6, 3, 3); (7, 2, 3); (7, 3, 9)], 8, 16);
  (5, 3, [(6, 4, 3); (6, 5, 1); (7, 4, 9); (7, 5, 3)], 8, 16);
  (5, 4, [(6, 5, 2); (6, 6, 2); (7, 5, 6); (7, 6, 6)], 8, 16);
  (5, 5, [(6, 6, 1); (6, 7, 3); (7, 6, 3); (7, 7, 9)], 8, 16)].

Definition o5_weights : list (Z * Z * list (Z * Z * Z) * Z * Z) :=
  [(0, 0, [(0, 0, 25); (0, 1, 15); (1, 0, 15); (1, 1, 9)], 32, 64);
  (0, 1, [(0, 1, 10); (0, 2, 25); (0, 3, 5); (1, 1, 6); (1, 2, 15); (1, 3, 3)], 32, 64);
  (0, 2, [(0, 3, 20); (0, 4, 20); (1, 3, 12); (1, 4, 12)], 32, 64);
  (0, 3, [(0, 4, 5); (0, 5, 25); (0, 6, 10); (1, 4, 3); (1, 5, 15); (1, 6, 6)], 32, 64);
  (0, 4, [(0, 6, 15); (0, 7, 25); (1, 6, 9); (1, 7, 15)], 32, 64);
  (1, 0, [(1, 0, 10); (1, 1, 6); (2, 0, 25); (2, 1, 15); (3, 0, 5); (3, 1, 3)], 32, 64);
  (1, 1, [(1, 1, 4); (1, 2, 10); (1, 3, 2); (2, 1, 10); (2, 2, 25); (2, 3, 5); (3, 1, 2); (3, 2, 5); (3, 3, 1)], 32, 64);
  (1, 2, [(1, 3, 8); (1, 4, 8); (2, 3, 20); (2, 4, 20); (3, 3, 4); (3, 4, 4)], 32, 64);
  (1, 3, [(1, 4, 2); (1, 5, 10); (1, 6, 4); (2, 4, 5); (2, 5, 25); (2, 6, 10); (3, 4, 1); (3, 5, 5); (3, 6, 2)], 32, 64);
  (1, 4, [(1, 6, 6); (1, 7, 10); (2, 6, 15); (2, 7, 25); (3, 6, 3); (3, 7, 5)], 32, 64);
  (2, 0, [(3, 0, 20); (3, 1, 12); (4, 0, 20); (4, 1, 12)], 32, 64);
  (2, 1, [(3, 1, 8); (3, 2, 20); (3, 3, 4); (4, 1, 8); (4, 2, 20); (4, 3, 4)], 32, 64);
  (2, 2, [(3, 3, 16); (3, 4, 16); (4, 3, 16); (4, 4, 16)], 32, 64);
  (2, 3, [(3, 4, 4); (3, 5, 20); (3, 6, 8); (4, 4, 4); (4, 5, 20); (4, 6, 8)], 32, 64);
  (2, 4, [(3, 6, 12); (3, 7, 20); (4, 6, 12); (4, 7, 20)], 32, 64);
  (3, 0, [(4, 0, 5); (4, 1, 3); (5, 0, 25); (5, 1, 15); (6, 0, 10); (6, 1, 6)], 32, 64);
  (3, 1, [(4, 1, 2); (4, 2, 5); (4, 3, 1); (5, 1, 10); (5, 2, 25); (5, 3, 5); (6, 1, 4); (6, 2, 10); (6, 3, 2)], 32, 64);
  (3, 2, [(4, 3, 4); (4, 4, 4); (5, 3, 20); (5, 4, 20); (6, 3, 8); (6, 4, 8)], 32, 64);
  (3, 3, [(4, 4, 1); (4, 5, 5); (4, 6, 2); (5, 4, 5); (5, 5, 25); (5, 6, 10); (6, 4, 2); (6, 5, 10); (6, 6, 4)], 32, 64);
  (3, 4, [(4, 6, 3); (4, 7, 5); (5, 6, 15); (5, 7, 25); (6, 6, 6); (6, 7, 10)], 32, 64);
  (4, 0, [(6, 0, 15); (6, 1, 9); (7, 0, 25); (7, 1, 15)], 32, 64);
  (4, 1, [(6, 1, 6); (6, 2, 15); (6, 3, 3); (7, 1, 10); (7, 2, 25); (7, 3, 5)], 32, 64);
  (4, 2, [(6, 3, 12); (6, 4, 12); (7, 3, 20); (7, 4, 20)], 32, 64);
  (4, 3, [(6, 4, 3); (6, 5, 15); (6, 6, 6); (7, 4, 5); (7, 5, 25); (7, 6, 10)], 32, 64);
  (4, 4, [(6, 6, 9); (6, 7, 15); (7, 6, 15); (7, 7, 25)], 32, 64)].
(** The 64 pixels [s8p00 .. s8p77] of the source block at [(x8, y8)], row by
    row. *)
Definition read_block (w : World) (src : option ptr) (src_step y8 x8 : Z)
  : outcome (list Z) :=
  do p <- deref src;
  for_loop 64 0
    (fun k acc =>
       do v <- load_byte w p (src_step * (y8 + Z.quot k 8) + x8 + Z.rem k 8);
       Done (acc ++ [v])) [].

Definition s8p (blk : list Z) (r c : Z) : Z := nth (Z.to_nat (8 * r + c)) blk 0.

Definition weighted_sum (blk : list Z) (terms : list (Z * Z * Z)) : Z :=
  fold_left (fun acc t => acc + s8p blk t.1.1 t.1.2 * t.2) terms 0.

(** The assignments [oK_rowR[xK + C] = (...) / D] of one block. *)
Fixpoint store_block (out : option ptr) (out_step y x : Z) (blk : list Z)
    (entries : list (Z * Z * list (Z * Z * Z) * Z * Z)) (w : World) : outcome World :=
  match entries with
  | [] => Done w
  | (r, c, terms, rounding, divisor) :: rest =>
      do p <- deref out;
      do w' <- store_byte p (out_step * (y + r) + x + c)
                 (Z.quot (weighted_sum blk terms + rounding) divisor) w;
      store_block out out_step y x blk rest w'
  end.

Definition set_size (image : EpImage) (width height : Z) : EpImage :=
  {| img_data := img_data image; img_width := width; img_height := height;
     img_step := img_step image |}.

(** Scale image which size is 8x into images which sizes are 7x, 6x, 5x.  The
    result holds the three images with their new sizes and the numbers of
    pixels thrown away from the left and the top side. *)
Definition scale8765 (src8 out7 out6 out5 : EpImage) (w : World)
  : outcome ((EpImage * EpImage * EpImage * Z * Z) * World) :=
  let src_width := img_width src8 in
  let src_height := img_height src8 in
  let blocks_width := Z.quot src_width 8 in
  let blocks_height := Z.quot src_height 8 in
  let offset_x := Z.quot (Z.rem src_width 8) 2 in
  let offset_y := Z.quot (Z.rem src_height 8) 2 in
  let out7 := set_size out7 (blocks_width * 7) (blocks_height * 7) in
  let out6 := set_size out6 (blocks_width * 6) (blocks_height * 6) in
  let out5 := set_size out5 (blocks_width * 5) (blocks_height * 5) in
  do w' <-
    for_loop (Z.to_nat blocks_height) 0
      (fun block_y w =>
         let y8 := block_y * 8 + offset_y in
         for_loop (Z.to_nat blocks_width) 0
           (fun block_x w =>
              let x8 := block_x * 8 + offset_x in
              do blk <- read_block w (img_data src8) (img_step src8) y8 x8;
              do w <- store_block (img_data out7) (img_step out7)
                        (block_y * 7) (block_x * 7) blk o7_weights w;
              do w <- store_block (img_data out6) (img_step out6)
                        (block_y * 6) (block_x * 6) blk o6_weights w;
              store_block (img_data out5) (img_step out5)
                (block_y * 5) (block_x * 5) blk o5_weights w) w) w;
  Done ((out7, out6, out5, offset_x, offset_y), w').

(** Reduce image twice.  The result is [out] with its new size; it can occupy
    the same memory as [src]. *)
Definition scale21 (src out : EpImage) (w : World) : outcome (EpImage * World) :=
  let out_width := Z.quot (img_width src) 2 in
  let out_height := Z.quot (img_height src) 2 in
  let out := set_size out out_width out_height in
  do w' <-
    for_loop (Z.to_nat out_height) 0
      (fun y w =>
         for_loop (Z.to_nat out_width) 0
           (fun x w =>
              do s <- deref (img_data src);
              do o <- deref (img_data out);
              let sls1 := ptr_add s (img_step src * y * 2) in
              let sls2 := ptr_add sls1 (img_step src) in
              let slo := ptr_add o (img_step out * y) in
              let x2 := Z.shiftl x 1 in
              do a <- load_byte w sls1 x2;
              do b <- load_byte w sls1 (x2 + 1);
              do c <- load_byte w sls2 x2;
              do d <- load_byte w sls2 (x2 + 1);
              store_byte slo x (Z.shiftr (a + b + c + d + 2) 2) w) w) w;
  Done (out, w').

(** Scale image inplace with realloc in memory. *)
Definition scale21_realloc (src : EpImage) (w : World) : outcome (EpImage * World) :=
  let '(temp, w1) := ep_image_create (Z.quot (img_width src) 2)
                       (Z.quot (img_height src) 2) w in
  do (temp, w2) <- scale21 src temp w1;
  do (_, w3) <- ep_image_release src w2;
  Done (temp, w3).

(** ** Detection functions: the decision interpreter *)

(** The sum of the samples at the given lines and columns of one block. *)
Definition block_sum (w : World) (lines : list ptr) (columns : list Z) : outcome Z :=
  fold_left
    (fun acc sl =>
       fold_left (fun acc x => do a <- acc; do v <- load_byte w sl x; Done (a + v))
                 columns acc)
    lines (Done 0).

(** The nine block sums [sum00 .. sum22], row by row, from the lines and the
    columns each row and each column of blocks is sampled at. *)
Definition block_sums (w : World) (l0 l1 l2 : list ptr) (c0 c1 c2 : list Z)
  : outcome (list Z) :=
  fold_right
    (fun lc acc =>
       do s <- block_sum w lc.1 lc.2;
       do rest <- acc;
       Done (s :: rest))
    (Done [])
    [(l0, c0); (l0, c1); (l0, c2); (l1, c0); (l1, c1); (l1, c2);
     (l2, c0); (l2, c1); (l2, c2)].

(** The sign bit of [~(a - b)], moved down by [shift] bits. *)
Definition sign_bit (a b shift : Z) : Z :=
  Z.shiftr (Z.land (to_unsigned (Z.lnot (a - b))) (2 ^ 31)) shift.

Section Interpreter.
Context {hdr : Header}.

(** Calculate decision based on value of LBP feature. *)
Definition calc_lbp_decision (w : World) (image_data : ptr) (image_step : Z)
    (node : ptr) : outcome Z :=
  do feature <- load_int w node offsetof_feature;
  (* Shifting position according to LBP feature position *)
  let image_data :=
    ptr_add image_data
      (Z.land (Z.shiftr feature 16) 255 + Z.shiftr feature 24 * image_step) in
  let feature_width := Z.land feature 255 in
  let feature_height := Z.land (Z.shiftr feature 8) 255 in
  do sums <-
    (if feature_width =? 1 then
       if feature_height =? 1 then (* block 1 by 1 pixel *)
         let sl0 := image_data in
         let sl1 := ptr_add sl0 image_step in
         let sl2 := ptr_add sl1 image_step in
         block_sums w [sl0] [sl1] [sl2] [0] [1] [2]
       else (* 2 samples per block (vertically stretched) *)
         let step_y := Z.quot (feature_height - 1) 4 in
         let sl0 := ptr_add image_data (step_y * image_step) in
         let sl1 := ptr_add image_data ((feature_height - step_y - 1) * image_step) in
         let sl2 := ptr_add sl0 (feature_height * image_step) in
         let sl3 := ptr_add sl1 (feature_height * image_step) in
         let sl4 := ptr_add sl2 (feature_height * image_step) in
         let sl5 := ptr_add sl3 (feature_height * image_step) in
         block_sums w [sl0; sl1] [sl2; sl3] [sl4; sl5] [0] [1] [2]
     else
       let step_x := Z.quot (feature_width - 1) 4 in
       let x1 := step_x in
       let x2 := feature_width - step_x - 1 in
       let x3 := x1 + feature_width in
       let x4 := x2 + feature_width in
       let x5 := x3 + feature_width in
       let x6 := x4 + feature_width in
       if feature_height =? 1 then (* 2 samples per block (horizontally stretched) *)
         let sl0 := image_data in
         let sl1 := ptr_add sl0 image_step in
         let sl2 := ptr_add sl1 image_step in
         block_sums w [sl0] [sl1] [sl2] [x1; x2] [x3; x4] [x5; x6]
       else (* Large blocks are sampled using 4 samples per block *)
         let step_y := Z.quot (feature_height - 1) 4 in
         let sl0 := ptr_add image_data (step_y * image_step) in
         let sl1 := ptr_add image_data ((feature_height - step_y - 1) * image_step) in
         let sl2 := ptr_add sl0 (feature_height * image_step) in
         let sl3 := ptr_add sl1 (feature_height * image_step) in
         let sl4 := ptr_add sl2 (feature_height * image_step) in
         let sl5 := ptr_add sl3 (feature_height * image_step) in
         block_sums w [sl0; sl1] [sl2; sl3] [sl4; sl5] [x1; x2] [x3; x4] [x5; x6]);
  match sums with
  | [sum00; sum01; sum02; sum10; sum11; sum12; sum20; sum21; sum22] =>
      let subset_index :=
        Z.lor (Z.lor (sign_bit sum00 sum11 29) (sign_bit sum01 sum11 30))
              (Z.shiftr (to_unsigned (Z.lnot (sum02 - sum11))) 31) in
      let bit_index :=
        Z.lor (Z.lor (Z.lor (Z.lor (sign_bit sum12 sum11 27) (sign_bit sum22 sum11 28))
                            (sign_bit sum21 sum11 29))
                     (sign_bit sum20 sum11 30))
              (Z.shiftr (to_unsigned (Z.lnot (sum10 - sum11))) 31) in
      do subset <- load_int w node (offsetof_subsets + 4 * subset_index);
      Done (Z.land (Z.shiftr subset bit_index) 1)
  | _ => Stopped UndefinedBehaviour
  end.

(** [score & -calc_lbp_decision(...)] of the Decision node at [node]. *)
Definition decision_score (w : World) (image_data : ptr) (image_step : Z) (node : ptr)
  : outcome Z :=
  do score <- load_int w node offsetof_score;
  do decision <- calc_lbp_decision w image_data image_step node;
  Done (Z.land score (- decision)).

(** The [while(1)] loop of [classify].  Every turn moves [node] forward, so a
    run of more turns than the blob has bytes has left the blob; [fuel]
    counts the turns. *)
Fixpoint classify_loop (fuel : nat) (w : World) (node image_data : ptr)
    (image_step object_score : Z) : outcome Z :=
  match fuel with
  | O => Stopped NeverReturns
  | S fuel' =>
      do tag <- load_byte w node 0;
      if tag =? 0 then (* NODE_DECISION *)
        do s <- decision_score w image_data image_step node;
        classify_loop fuel' w (ptr_add node sizeof_EpNodeDecision) image_data
          image_step (object_score + s)
      else (* NODE_STAGE *)
        do threshold <- load_int w node offsetof_threshold;
        if object_score <? threshold then Done 0
        else
          let node := ptr_add node sizeof_EpNodeStage in
          do tag' <- load_byte w node 0;
          if negb (tag' =? 0) then Done 1 (* NODE_FINAL *)
          else
            do s <- decision_score w image_data image_step node;
            classify_loop fuel' w (ptr_add node sizeof_EpNodeDecision) image_data
              image_step s
  end.

(** The number of bytes of the block [p] points into. *)
Definition block_length (w : World) (p : ptr) : nat :=
  match heap w !! p.1 with
  | Some block => length block
  | None => O
  end.

(** Classify single image position as object or not_object. *)
Definition classify (w : World) (node image_data : ptr) (image_step : Z) : outcome Z :=
  (* First node is always NODE_DECISION *)
  do s <- decision_score w image_data image_step node;
  classify_loop (S (block_length w node)) w (ptr_add node sizeof_EpNodeDecision)
    image_data image_step s.

(** ** Detection functions: the host scan *)

(** The columns [x = x_start; x < process_width; x += x_step] of one row. *)
Fixpoint row_positions (fuel : nat) (x process_width x_step : Z) : list Z :=
  match fuel with
  | O => []
  | S fuel' =>
      if x <? process_width
      then x :: row_positions fuel' (x + x_step) process_width x_step
      else []
  end.

(** The window positions [(x, y)] the two loops of
    [detect_single_scale_host] visit, rows in increasing order. *)
Definition scan_positions (scan_mode process_width process_height : Z) : list (Z * Z) :=
  flat_map
    (fun y =>
       let x_start := if scan_mode =? SCAN_FULL then 0 else Z.land (y + scan_mode) 1 in
       let x_step := if scan_mode =? SCAN_FULL then 1 else 2 in
       map (fun x => (x, y))
           (row_positions (Z.to_nat process_width) x_start process_width x_step))
    (seqZ 0 process_height).

(** The rectangle reported for a window accepted at [(x, y)]. *)
Definition detection (scale : float) (offset_x offset_y window_width window_height x y : Z)
  : EpRect :=
  {| rect_x := fadd (fmul (float_of_int x) scale) (float_of_int offset_x);
     rect_y := fadd (fmul (float_of_int y) scale) (float_of_int offset_y);
     rect_width := fmul (float_of_int window_width) scale;
     rect_height := fmul (float_of_int window_height) scale |}.

(** The body of the scan, over the positions still to visit. *)
Fixpoint scan_windows (w : World) (image : EpImage) (node : ptr) (scale : float)
    (offset_x offset_y window_width window_height : Z) (positions : list (Z * Z))
    (objects : EpRectList) : outcome EpRectList :=
  match positions with
  | [] => Done objects
  | (x, y) :: rest =>
      do image_data <- deref (img_data image);
      let scan_line := ptr_add image_data (y * img_step image) in
      do accepted <- classify w node (ptr_add scan_line x) (img_step image);
      let objects :=
        if negb (accepted =? 0) then
          let r := detection scale offset_x offset_y window_width window_height x y in
          (ep_rect_list_add w objects (rect_x r) (rect_y r) (rect_width r)
             (rect_height r)).2
        else objects in
      scan_windows w image node scale offset_x offset_y window_width window_height
        rest objects
  end.

(** Perform single-scale object detection.  The rows of the source run in
    parallel; here they run one after the other, in increasing order. *)
Definition detect_single_scale_host (w : World) (image : EpImage)
    (classifier : EpCascadeClassifier) (objects : EpRectList) (scale : float)
    (offset_x offset_y scan_mode : Z) : outcome EpRectList :=
  do node <- deref (cls_data classifier);
  do window_width <- load_int w node offsetof_window_width;
  do window_height <- load_int w node offsetof_window_height;
  let process_width := img_width image + 1 - window_width in
  let process_height := img_height image + 1 - window_height in
  let node := ptr_add node sizeof_EpNodeMeta in (* Skipping initial META node *)
  scan_windows w image node scale offset_x offset_y window_width window_height
    (scan_positions scan_mode process_width process_height) objects.

(** Returns sequence 8.0/8, 8.0/7, 8.0/6, 8.0/5, 16.0/8, 16.0/7, ...  The
    shift [8 << (image_index / 4)] has no value from index 112 on. *)
Definition convert_image_index_to_scale (image_index : Z) : outcome float :=
  do shifted <- shl_int 8 (Z.quot image_index 4);
  Done (fdiv (float_of_int shifted) (float_of_int (8 - Z.rem image_index 4))).

End Interpreter.

(** ** Detection functions: the offload path *)

Section Offload.
Context {hdr : Header}.

(** The rectangles of one task: [objects_count] packed positions, relative
    to the tile at [(tile_x, tile_y)]. *)
Fixpoint task_rects (w : World) (packed : list Z) (objects_count : nat) (j : Z)
    (tile_x tile_y : Z) (scale : float) (offset_x offset_y : Z)
    (object_width object_height : float) (objects : EpRectList)
  : outcome EpRectList :=
  match objects_count with
  | O => Done objects
  | S count' =>
      match packed !! Z.to_nat j with
      | None => Stopped UndefinedBehaviour
      | Some object_pos_packed =>
          let object_rel_x := Z.land object_pos_packed 65535 in
          let object_rel_y := Z.shiftr object_pos_packed 16 in
          let object_abs_x :=
            fadd (fmul (float_of_int (tile_x + object_rel_x)) scale)
                 (float_of_int offset_x) in
          let object_abs_y :=
            fadd (fmul (float_of_int (tile_y + object_rel_y)) scale)
                 (float_of_int offset_y) in
          let objects :=
            (ep_rect_list_add w objects object_abs_x object_abs_y object_width
               object_height).2 in
          task_rects w packed count' (j + 1) tile_x tile_y scale offset_x offset_y
            object_width object_height objects
      end
  end.

(** The loop of [process_results] over the tasks still to process. *)
Fixpoint process_tasks (w : World) (objects : EpRectList) (tasks : list EpTaskItem)
    (images_properties : EpImgList) (window_width window_height offset_x offset_y : Z)
    (total_objects_count : Z) : outcome (EpRectList * Z) :=
  match tasks with
  | [] => Done (objects, total_objects_count)
  | task :: rest =>
      let image_index := task_image_index task in
      let objects_count := task_items_count task in
      let tile_offset := task_offset task in
      do _ <- guard (0 <=? image_index);
      match imgs images_properties !! Z.to_nat image_index with
      | None => Stopped UndefinedBehaviour
      | Some prop =>
          let image_step := prop_step prop in
          do _ <- guard (negb (image_step =? 0));
          let tile_x := Z.rem tile_offset image_step in
          let tile_y := Z.quot tile_offset image_step in
          do scale <- convert_image_index_to_scale image_index;
          let object_width := fmul (float_of_int window_width) scale in
          let object_height := fmul (float_of_int window_height) scale in
          do _ <- assert (objects_count <=? MAX_DETECTIONS_PER_TILE);
          do objects <- task_rects w (task_objects task) (Z.to_nat objects_count) 0
                          tile_x tile_y scale offset_x offset_y object_width
                          object_height objects;
          process_tasks w objects rest images_properties window_width window_height
            offset_x offset_y (total_objects_count + objects_count)
      end
  end.

(** Process detection results: the list with the detections added, and the
    total number of detections processed. *)
Definition process_results (w : World) (objects : EpRectList) (task_list : EpTaskList)
    (images_properties : EpImgList) (window_width window_height offset_x offset_y : Z)
  : outcome (EpRectList * Z) :=
  process_tasks w objects (tasks task_list) images_properties window_width
    window_height offset_x offset_y 0.

(** The numbers of tiles [(tiles_hor, tiles_ver)] of an image whose corrected
    size is [image_width] by [image_height]. *)
Definition tile_counts (image_width image_height overlap_width overlap_height : Z)
  : outcome (Z * Z) :=
  if image_height <? image_width then
    do _ <- guard (negb (RECOMMENDED_TILE_SIZE - overlap_height =? 0));
    let tiles_ver := divide_round image_height (RECOMMENDED_TILE_SIZE - overlap_height) in
    let tiles_ver := if tiles_ver =? 0 then 1 else tiles_ver in
    (* Tiles will have heights max_tile_height and, sometimes, max_tile_height - 1 *)
    let max_tile_height :=
      divide_up (image_height + overlap_height * tiles_ver) tiles_ver in
    do _ <- guard (negb (max_tile_height =? 0));
    (* Maximal allowed tile step to not exceed max_tile_area *)
    let max_tile_step :=
      round_down_to_8n
        (round_down_to_8n (Z.quot MAX_TILE_BYTES max_tile_height) - overlap_width)
      + overlap_width in
    do _ <- guard (negb (max_tile_step - overlap_width =? 0));
    Done (divide_up image_width (max_tile_step - overlap_width), tiles_ver)
  else
    do _ <- guard (negb (RECOMMENDED_TILE_SIZE - overlap_width =? 0));
    let tiles_hor := divide_round image_width (RECOMMENDED_TILE_SIZE - overlap_width) in
    let tiles_hor := if tiles_hor =? 0 then 1 else tiles_hor in
    (* Tiles will have widths max_tile_step and, sometimes, max_tile_step - 8 *)
    let max_tile_step :=
      round_up_to_8n
        (round_up_to_8n
           (divide_up (image_width + overlap_width * tiles_hor) tiles_hor - overlap_width)
         + overlap_width) in
    do _ <- guard (negb (max_tile_step =? 0));
    (* Maximal allowed tile height to not exceed max_tile_area *)
    let tile_height := Z.quot MAX_TILE_BYTES max_tile_step in
    do _ <- guard (negb (tile_height - overlap_height =? 0));
    Done (tiles_hor, divide_up image_height (tile_height - overlap_height)).

(** The bounds of tile [tile_index]: [(tile_x1, tile_y1, tile_width,
    tile_height, tile_step)]. *)
Definition tile_bounds (image_width image_height overlap_width overlap_height
    tiles_hor tiles_ver tile_index : Z) : Z * Z * Z * Z * Z :=
  let tile_y := Z.quot tile_index tiles_hor in
  let tile_y1 := divide_round (image_height * tile_y) tiles_ver in
  let tile_y2 := divide_round (image_height * (tile_y + 1)) tiles_ver + overlap_height in
  let tile_height := tile_y2 - tile_y1 in
  let tile_x := Z.rem tile_index tiles_hor in
  let tile_x1 := round_to_8n (divide_round (image_width * tile_x) tiles_hor) in
  let tile_x2 :=
    if tile_x + 1 =? tiles_hor then image_width + overlap_width
    else round_to_8n (divide_round (image_width * (tile_x + 1)) tiles_hor)
         + overlap_width in
  let tile_width := tile_x2 - tile_x1 in
  let tile_step := round_up_to_8n tile_width in
  (tile_x1, tile_y1, tile_width, tile_height, tile_step).

(** Add in task list tasks from image. *)
Definition add_tasks_for_image (w : World) (scan_mode : Z) (img_list : EpImgList)
    (img_index window_width window_height : Z) (task_buf : EpTaskList)
  : outcome EpTaskList :=
  do _ <- guard (0 <=? img_index);
  match imgs img_list !! Z.to_nat img_index with
  | None => Stopped UndefinedBehaviour
  | Some img_prop =>
      let overlap_width := window_width - 1 in
      let overlap_height := window_height - 1 in
      (* Corrected image width and height convenient for calculations *)
      let image_width := prop_width img_prop - overlap_width in
      let image_height := prop_height img_prop - overlap_height in
      do (tiles_hor, tiles_ver) <-
        tile_counts image_width image_height overlap_width overlap_height;
      let num_tiles := tiles_hor * tiles_ver in
      for_loop (Z.to_nat num_tiles) 0
        (fun tile_index task_buf =>
           let '(tile_x1, tile_y1, tile_width, tile_height, tile_step) :=
             tile_bounds image_width image_height overlap_width overlap_height
               tiles_hor tiles_ver tile_index in
           do _ <- assert (tile_step * tile_height <=? MAX_TILE_BYTES);
           Done (ep_task_list_add w task_buf
                   (tile_x1 + tile_y1 * prop_step img_prop)
                   tile_width tile_height tile_step
                   (if scan_mode =? SCAN_FULL then SCAN_FULL
                    else Z.land (tile_x1 + tile_y1 + scan_mode) 1)
                   0 img_index).2)
        task_buf
  end.

End Offload.

(** ** Detection functions: the two drivers *)

(** What the coprocessor and its loader do, as far as the host sees it. *)
Record Cores := {
  load_group_ok : bool;      (* [e_load_group] does not return [E_ERR] *)
  all_tasks_finish : bool;   (* [task_finished] reaches the number of tasks *)
  written_back : nat -> EpTaskItem -> EpTaskItem
                             (* a task's slot, as the cores leave it *)
}.

(** The four images of one octave of the pyramid. *)
Record Octave := {
  img8 : EpImage;
  img7 : EpImage;
  img6 : EpImage;
  img5 : EpImage
}.

Definition too_small (image : EpImage) (window_width window_height : Z) : bool :=
  (img_width image <? window_width) || (img_height image <? window_height).

Section Drivers.
Context {hdr : Header}.

(** The [while(1)] loop of [ep_detect_multi_scale_host]: the octave, the
    detections and the world it leaves.  An octave halves every turn, so
    [fuel] turns, one more than the width of the image, are never used up
    by a window of positive width. *)
Fixpoint host_loop (fuel : nat) (classifier : EpCascadeClassifier)
    (window_width window_height offset_x offset_y scan_mode : Z) (o : Octave)
    (image_index : Z) (objects : EpRectList) (w : World)
  : outcome (Octave * EpRectList * World) :=
  match fuel with
  | O => Stopped NeverReturns
  | S fuel' =>
      if too_small (img8 o) window_width window_height then Done (o, objects, w)
      else
        do scale <- convert_image_index_to_scale image_index;
        do objects <- detect_single_scale_host w (img8 o) classifier objects scale
                        offset_x offset_y scan_mode;
        if too_small (img7 o) window_width window_height then Done (o, objects, w)
        else
          do scale <- convert_image_index_to_scale (image_index + 1);
          do objects <- detect_single_scale_host w (img7 o) classifier objects scale
                          offset_x offset_y scan_mode;
          if too_small (img6 o) window_width window_height then Done (o, objects, w)
          else
            do scale <- convert_image_index_to_scale (image_index + 2);
            do objects <- detect_single_scale_host w (img6 o) classifier objects scale
                            offset_x offset_y scan_mode;
            if too_small (img5 o) window_width window_height then Done (o, objects, w)
            else
              do scale <- convert_image_index_to_scale (image_index + 3);
              do objects <- detect_single_scale_host w (img5 o) classifier objects
                              scale offset_x offset_y scan_mode;
              do (i8, w) <- scale21 (img8 o) (img8 o) w;
              do (i7, w) <- scale21 (img7 o) (img7 o) w;
              do (i6, w) <- scale21 (img6 o) (img6 o) w;
              do (i5, w) <- scale21 (img5 o) (img5 o) w;
              host_loop fuel' classifier window_width window_height offset_x offset_y
                scan_mode {| img8 := i8; img7 := i7; img6 := i6; img5 := i5 |}
                (image_index + 4) objects w
  end.

(** The four [ep_image_release] calls that end both drivers. *)
Definition release_octave (o : Octave) (w : World) : outcome World :=
  do (_, w) <- ep_image_release (img5 o) w;
  do (_, w) <- ep_image_release (img6 o) w;
  do (_, w) <- ep_image_release (img7 o) w;
  do (_, w) <- ep_image_release (img8 o) w;
  Done w.

(** Multiscale object detection on the host: the error code, the caller's
    [*image] and [*objects] as the call leaves them, and the world. *)
Definition ep_detect_multi_scale_host (image : EpImage)
    (classifier : EpCascadeClassifier) (objects : EpRectList) (scan_mode : Z)
    (w : World) : outcome (EpErrorCode * EpImage * EpRectList * World) :=
  do bad <- ep_classifier_check classifier w;
  if negb (bad =? 0) then Done (ERR_ARGUMENT, image, objects, w) (* Wrong classifier *)
  else if ep_image_is_empty image then Done (ERR_ARGUMENT, image, objects, w)
  else
    do meta <- deref (cls_data classifier);
    do window_width <- load_int w meta offsetof_window_width;
    do window_height <- load_int w meta offsetof_window_height;
    if too_small image window_width window_height
    then Done (ERR_SUCCESS, image, objects, w) (* Image is too small; no detections *)
    else
      let blocks_x := Z.quot (img_width image) 8 in
      let blocks_y := Z.quot (img_height image) 8 in
      let i8 := image in
      let '(i7, w) := ep_image_create (blocks_x * 7) (blocks_y * 7) w in
      let '(i6, w) := ep_image_create (blocks_x * 6) (blocks_y * 6) w in
      let '(i5, w) := ep_image_create (blocks_x * 5) (blocks_y * 5) w in
      let image := ep_image_create_empty in
      do (scaled, w) <- scale8765 i8 i7 i6 i5 w;
      let '(i7, i6, i5, offset_x, offset_y) := scaled in
      do (o, objects, w) <-
        host_loop (S (Z.to_nat (img_width i8))) classifier window_width window_height
          offset_x offset_y scan_mode
          {| img8 := i8; img7 := i7; img6 := i6; img5 := i5 |} 0 objects w;
      do w <- release_octave o w;
      Done (ERR_SUCCESS, image, objects, w).

(** [e_write(..., image.data, image.step * image.height)]: the bytes leave
    host memory, which only has to hold them. *)
Definition send_image (w : World) (image : EpImage) : outcome unit :=
  do image_data <- deref (img_data image);
  do _ <- load_bytes w image_data (img_step image * img_height image);
  Done tt.

(** The [while(1)] loop of [ep_detect_multi_scale_device] that sends the
    pyramid: the octave, the image properties and the world it leaves. *)
Fixpoint upload_loop (fuel : nat) (window_width window_height : Z) (o : Octave)
    (images : EpImgList) (w : World) : outcome (Octave * EpImgList * World) :=
  match fuel with
  | O => Stopped NeverReturns
  | S fuel' =>
      let add image images :=
        (ep_img_list_add w images (img_step image) (img_width image)
           (img_height image)).2 in
      if too_small (img8 o) window_width window_height then Done (o, images, w)
      else
        let images := add (img8 o) images in
        do _ <- send_image w (img8 o);
        if too_small (img7 o) window_width window_height then Done (o, images, w)
        else
          let images := add (img7 o) images in
          do _ <- send_image w (img7 o);
          if too_small (img6 o) window_width window_height then Done (o, images, w)
          else
            let images := add (img6 o) images in
            do _ <- send_image w (img6 o);
            if too_small (img5 o) window_width window_height then Done (o, images, w)
            else
              let images := add (img5 o) images in
              do _ <- send_image w (img5 o);
              do (i8, w) <- scale21_realloc (img8 o) w;
              do (i7, w) <- scale21_realloc (img7 o) w;
              do (i6, w) <- scale21_realloc (img6 o) w;
              do (i5, w) <- scale21_realloc (img5 o) w;
              upload_loop fuel' window_width window_height
                {| img8 := i8; img7 := i7; img6 := i6; img5 := i5 |} images w
  end.

(** Multiscale object detection on the cores, for [log_file = NULL]: the
    value returned, the caller's [*image] and [*objects] as the call leaves
    them, and the world.  The value is an error code, or the [-1] of the
    failed [e_load_group]. *)
Definition ep_detect_multi_scale_device (cores : Cores) (image : EpImage)
    (classifier : EpCascadeClassifier) (objects : EpRectList) (scan_mode : Z)
    (num_cores : Z) (w : World)
  : outcome ((EpErrorCode + Z) * EpImage * EpRectList * World) :=
  do bad <- ep_classifier_check classifier w;
  if negb (bad =? 0) then Done (inl ERR_ARGUMENT, image, objects, w)
  else if ep_image_is_empty image then Done (inl ERR_ARGUMENT, image, objects, w)
  else
    do meta <- deref (cls_data classifier);
    do window_width <- load_int w meta offsetof_window_width;
    do window_height <- load_int w meta offsetof_window_height;
    if too_small image window_width window_height
    then Done (inl ERR_SUCCESS, image, objects, w)
    else
      let blocks_x := Z.quot (img_width image) 8 in
      let blocks_y := Z.quot (img_height image) 8 in
      let i8 := image in
      let '(i7, w) := ep_image_create (blocks_x * 7) (blocks_y * 7) w in
      let '(i6, w) := ep_image_create (blocks_x * 6) (blocks_y * 6) w in
      let '(i5, w) := ep_image_create (blocks_x * 5) (blocks_y * 5) w in
      let image := ep_image_create_empty in
      do (scaled, w) <- scale8765 i8 i7 i6 i5 w;
      let '(i7, i6, i5, offset_x, offset_y) := scaled in
      if negb (load_group_ok cores) then Done (inr (-1), image, objects, w)
      else
        (* 1 - build shared memory buffer *)
        do (o, images, w) <-
          upload_loop (S (Z.to_nat (img_width i8))) window_width window_height
            {| img8 := i8; img7 := i7; img6 := i6; img5 := i5 |}
            (ep_img_list_create_empty 0) w;
        do _ <- load_bytes w meta (round_up_to_8n (cls_size classifier));
        do task_list <-
          for_loop (Z.to_nat (imgs_count images)) 0
            (fun i task_list =>
               add_tasks_for_image w scan_mode images i window_width window_height
                 task_list)
            ep_task_list_create_empty;
        (* 2 - wait end of detection *)
        if negb (all_tasks_finish cores) then Stopped NeverReturns
        else
          (* 3 - download result and analyze detections *)
          let task_list :=
            {| tasks := imap (written_back cores) (tasks task_list);
               tasks_capacity := tasks_capacity task_list |} in
          do (objects, _) <- process_results w objects task_list images window_width
                               window_height offset_x offset_y;
          let task_list := ep_task_list_release task_list in
          let images := ep_img_list_release images in
          do w <- release_octave o w;
          Done (inl ERR_SUCCESS, image, objects, w).

End Drivers.


(** ** The remaining functions of the library *)

(** [memcpy(dst, src, n)]: the two ranges must be readable and writable, and
    must not overlap. *)
Definition memcpy (dst src : ptr) (n : Z) (w : World) : outcome World :=
  do l <- load_bytes w src n;
  if bool_decide (dst.1 = src.1) && (dst.2 <? src.2 + n) && (src.2 <? dst.2 + n)
  then Stopped UndefinedBehaviour
  else store_bytes dst l w.

(** Get subimage of specified image without data copying.  No checks on
    specified coordinates are performed. *)
Definition ep_subimage_get (image : EpImage) (x y width height : Z) : outcome EpImage :=
  do image_data <- deref (img_data image);
  Done {| img_data := Some (ptr_add image_data (y * img_step image + x));
          img_width := width; img_height := height; img_step := img_step image |}.

(** Get subimage of specified image with data copying.  No checks on
    specified coordinates are performed. *)
Definition ep_subimage_clone (image : EpImage) (x y width height : Z) (w : World)
  : outcome (EpImage * World) :=
  let '(result, w1) := ep_image_create width height w in
  match img_data result with
  | None => Done (result, w1)
  | Some result_pixels =>
      let image_step := img_step image in
      do image_data <- deref (img_data image);
      let source_pixels := ptr_add image_data (y * image_step + x) in
      if image_step =? img_step result then
        do w2 <- memcpy result_pixels source_pixels (wrap32 (width * height)) w1;
        Done (result, w2)
      else
        do w2 <-
          for_loop (Z.to_nat height) 0
            (fun line w =>
               memcpy (ptr_add result_pixels (line * img_step result))
                      (ptr_add source_pixels (line * image_step)) width w) w1;
        Done (result, w2)
  end.

(** Copy the whole image and its data. *)
Definition ep_image_clone (image : EpImage) (w : World) : outcome (EpImage * World) :=
  ep_subimage_clone image 0 0 (img_width image) (img_height image) w.

Section MoreLists.
Context {hdr : Header}.

(** Reserve some space in rectangles list to speed up future rectangles
    insertions. *)
Definition ep_rect_list_reserve (w : World) (rect_list : EpRectList) (count : Z)
  : EpErrorCode * EpRectList :=
  if rects_count rect_list + count <=? rects_capacity rect_list
  then (ERR_SUCCESS, rect_list)
  else
    let new_capacity := rects_count rect_list + count + MAX_DETECTIONS_PER_TILE in
    if realloc_ok w (sizeof_EpRect * new_capacity)
    then (ERR_SUCCESS, {| rects := rects rect_list; rects_capacity := new_capacity |})
    else (ERR_MEMORY, rect_list).

(** Release data hold by rectangles list. *)
Definition ep_rect_list_release (rect_list : EpRectList) : EpRectList :=
  {| rects := []; rects_capacity := 0 |}.

(** Reserve some space in task list to speed up future tasks insertions. *)
Definition ep_task_list_reserve (w : World) (task_list : EpTaskList) (count : Z)
  : EpErrorCode * EpTaskList :=
  if tasks_count task_list + count <=? tasks_capacity task_list
  then (ERR_SUCCESS, task_list)
  else
    let new_capacity := tasks_count task_list + count + MAX_DETECTIONS_PER_TILE in
    if realloc_ok w (sizeof_EpTaskItem * new_capacity)
    then (ERR_SUCCESS, {| tasks := tasks task_list; tasks_capacity := new_capacity |})
    else (ERR_MEMORY, task_list).

End MoreLists.

(** Clone classifier data into new buffer. *)
Definition ep_classifier_clone (classifier : EpCascadeClassifier) (w : World)
  : outcome (EpCascadeClassifier * World) :=
  match cls_data classifier with
  | None => Done (ep_classifier_create_empty, w)
  | Some classifier_data =>
      let classifier_size := cls_size classifier in
      match malloc classifier_size w with
      | (None, w1) => Done (ep_classifier_create_empty, w1)
      | (Some result_data, w1) =>
          do w2 <- memcpy result_data classifier_data classifier_size w1;
          Done ({| cls_data := Some result_data; cls_size := classifier_size |}, w2)
      end
  end.

(** ** Notions the statements use *)

(** [n] bytes can be read at [p]. *)
Definition readable (w : World) (p : ptr) (n : Z) : Prop :=
  exists block, heap w !! p.1 = Some block /\ 0 <= p.2 /\ p.2 + n <= Z.of_nat (length block).

(** The [int] at [p + off], where it can be read. *)
Definition int_at (w : World) (p : ptr) (off : Z) : Z :=
  match load_int w p off with
  | Done v => v
  | Stopped _ => 0
  end.

Section Validity.
Context {hdr : Header}.

(** Every field of a node lies inside the node. *)
Definition layout_ok : Prop :=
  4 <= sizeof_EpNodeMeta /\ 4 <= sizeof_EpNodeDecision /\
  4 <= sizeof_EpNodeStage /\ 4 <= sizeof_EpNodeFinal /\
  0 <= offsetof_window_width /\ offsetof_window_width + 4 <= sizeof_EpNodeMeta /\
  0 <= offsetof_window_height /\ offsetof_window_height + 4 <= sizeof_EpNodeMeta.

(** The pointer of a classifier, when it is not [NULL], is good for [size]
    bytes: "classifier->data must be safely dereferencable". *)
Definition dereferencable (w : World) (classifier : EpCascadeClassifier) : Prop :=
  forall p, cls_data classifier = Some p -> readable w p (cls_size classifier).

(** The structural invariants of a classifier, in the words of the data
    model. *)
Definition structurally_valid (w : World) (classifier : EpCascadeClassifier) : Prop :=
  exists p,
    cls_data classifier = Some p /\
    sizeof_EpNodeMeta + sizeof_EpNodeDecision + sizeof_EpNodeStage + sizeof_EpNodeFinal
      <= cls_size classifier /\
    int_at w p 0 = NODE_META /\
    3 <= int_at w p offsetof_window_width /\
    3 <= int_at w p offsetof_window_height /\
    int_at w p sizeof_EpNodeMeta = NODE_DECISION /\
    int_at w p (cls_size classifier - sizeof_EpNodeFinal - sizeof_EpNodeStage) = NODE_STAGE /\
    int_at w p (cls_size classifier - sizeof_EpNodeFinal) = NODE_FINAL.

End Validity.

Section ValiditySpec.
Context {hdr : Header}.

(** The violations [ep_classifier_check] looks for, in its order: empty, too
    small, wrong first tag, undersized window, wrong second tag, wrong last
    tag, wrong second-to-last tag. *)
Definition violations (w : World) (classifier : EpCascadeClassifier) : list bool :=
  let p := default (1%positive, 0) (cls_data classifier) in
  let size := cls_size classifier in
  [ ep_classifier_is_empty classifier;
    size <? sizeof_EpNodeMeta + sizeof_EpNodeDecision + sizeof_EpNodeStage
            + sizeof_EpNodeFinal;
    negb (int_at w p 0 =? NODE_META);
    (int_at w p offsetof_window_height <? 3) || (int_at w p offsetof_window_width <? 3);
    negb (int_at w p sizeof_EpNodeMeta =? NODE_DECISION);
    negb (int_at w p (size - sizeof_EpNodeFinal) =? NODE_FINAL);
    negb (int_at w p (size - sizeof_EpNodeFinal - sizeof_EpNodeStage) =? NODE_STAGE) ].

End ValiditySpec.

(** The place of the first violation in a list, counting from 1; 0 when
    there is none. *)
Fixpoint first_violation_from (k : Z) (l : list bool) : Z :=
  match l with
  | [] => 0
  | true :: _ => k
  | false :: rest => first_violation_from (k + 1) rest
  end.

Definition first_violation (l : list bool) : Z := first_violation_from 1 l.


(** Two worlds agree on block [b]. *)
Definition same_block (b : positive) (w w' : World) : Prop :=
  heap w' !! b = heap w !! b.

(** An image whose pixels are not in block [b]. *)
Definition away_from (b : positive) (image : EpImage) : Prop :=
  forall d, img_data image = Some d -> d.1 <> b.




(** The size of pyramid level [i] of an image: the image itself and its 7/8,
    6/8 and 5/8 derivatives of whole 8-pixel blocks, halved [i / 4] times. *)
Definition level_size (size i : Z) : Z :=
  Z.quot (if i mod 4 =? 0 then size else Z.quot size 8 * (8 - i mod 4)) (2 ^ (i / 4)).



Section ListNotions.
Context {hdr : Header}.

(** [ep_rect_list_add] called for each rectangle of [items] in turn: the
    codes returned and the list left. *)
Fixpoint add_rects (w : World) (l : EpRectList) (items : list EpRect)
  : list EpErrorCode * EpRectList :=
  match items with
  | [] => ([], l)
  | r :: rest =>
      let '(e, l1) := ep_rect_list_add w l (rect_x r) (rect_y r) (rect_width r)
                        (rect_height r) in
      let '(es, l2) := add_rects w l1 rest in
      (e :: es, l2)
  end.

End ListNotions.

Section ScanNotions.
Context {hdr : Header}.

(** What [classify] returns for the window at [(x, y)] of an image, under
    the classifier whose blob is at [p]. *)
Definition verdict (w : World) (image : EpImage) (p : ptr) (x y : Z) : outcome Z :=
  do image_data <- deref (img_data image);
  classify w (ptr_add p sizeof_EpNodeMeta)
    (ptr_add (ptr_add image_data (y * img_step image)) x) (img_step image).

(** The window at a position is accepted. *)
Definition accepted (w : World) (image : EpImage) (p : ptr) (pos : Z * Z) : bool :=
  match verdict w image p pos.1 pos.2 with
  | Done v => negb (v =? 0)
  | Stopped _ => false
  end.






End ScanNotions.

(** ** Concrete inputs *)

(** The header the runs below are evaluated with: a tile budget of 8 KiB
    and a recommended tile size of 64 pixels. *)
Definition example_header : Header := reference_header 8192 64.

(** [int]s laid out one after the other. *)
Definition ints (l : list Z) : list byte := flat_map int_bytes l.

(** A world with the given blocks, numbered from 1, and the given files;
    memory never written holds [0xAA]. *)
Definition world_of (blocks : list (list byte)) (disk : list (string * list byte))
  : World :=
  {| heap := list_to_map (zip (map Pos.of_nat (seq 1 (length blocks))) blocks);
     next_block := Pos.of_nat (S (length blocks));
     alloc_limit := 1048576;
     junk := fun _ => xaa;
     files := list_to_map disk;
     read_only := fun _ => false;
     disk_free := 1048576 |}.

Definition meta_node (window_width window_height : Z) : list byte :=
  ints [3; window_width; window_height].

(** A Decision node on the 1x1 blocks at the corner of the window, whose
    table accepts every pattern. *)
Definition decision_node (score : Z) : list byte :=
  ints ([0; 257; score] ++ repeat (-1) 8).

Definition stage_node (threshold : Z) : list byte := ints [1; threshold].
Definition final_node : list byte := ints [2].

(** A well-formed classifier for a 3x3 window: one stage of one decision
    that every window passes. *)
Definition accept_all_blob : list byte :=
  meta_node 3 3 ++ decision_node 1 ++ stage_node 0 ++ final_node.

(** A blob [ep_classifier_check] accepts although its node stream is broken:
    eight stray bytes sit between the first Decision and the last Stage. *)
Definition ragged_blob : list byte :=
  meta_node 3 3 ++ decision_node 1 ++ ints [0; 257] ++ stage_node 0 ++ final_node.

(** A 4x4 image of step 8. *)
Definition small_pixels : list byte := map byte_of_Z (seqZ 0 32).
Definition small_image : EpImage :=
  {| img_data := Some (2%positive, 0); img_width := 4; img_height := 4; img_step := 8 |}.

Definition accept_all : EpCascadeClassifier :=
  {| cls_data := Some (1%positive, 0); cls_size := 68 |}.
Definition ragged : EpCascadeClassifier :=
  {| cls_data := Some (1%positive, 0); cls_size := 76 |}.

Definition accept_all_world : World := world_of [accept_all_blob; small_pixels] [].
Definition ragged_world : World := world_of [ragged_blob; small_pixels] [].

(** A 2x2 image of step 8 with the rows [1 2] and [3 4]. *)
Definition two_rows_pixels : list byte :=
  map byte_of_Z [1; 2; 0; 0; 0; 0; 0; 0; 3; 4; 0; 0; 0; 0; 0; 0].
Definition two_rows_image : EpImage :=
  {| img_data := Some (1%positive, 0); img_width := 2; img_height := 2; img_step := 8 |}.
Definition two_rows_world : World := world_of [two_rows_pixels] [].

(** An image file that announces 2x2 pixels and holds three. *)
Definition truncated_file : list byte :=
  ints [@FILE_ID_IMAGE example_header; 2; 2] ++ map byte_of_Z [1; 2; 3].
Definition truncated_world : World := world_of [] [("image.bin"%string, truncated_file)].

(** One level of 217x217 pixels, and one of 66x66. *)
Definition one_level (width height : Z) : EpImgList :=
  {| imgs := [{| prop_data_offset := 0; prop_step := round_up_to_8n width;
                 prop_width := width; prop_height := height |}];
     imgs_capacity := 4; prev_offset := 0;
     cur_offset := round_up_to_8n width * height |}.

(** Cores whose loader fails. *)
Definition no_cores : Cores :=
  {| load_group_ok := false; all_tasks_finish := true; written_back := fun _ t => t |}.

Section TileTasks.
Context {hdr : Header}.

(** The task [ep_task_list_add] writes. *)
Definition new_task (offset width height step scan_mode items_count image_index : Z)
  : EpTaskItem :=
  {| task_offset := offset; task_area := step * height; task_width := width;
     task_height := height; task_step := step; task_scan_mode := scan_mode;
     task_items_count := items_count; task_image_index := image_index;
     task_objects := [] |}.

(** The task of tile [k] of a level. *)
Definition tile_task (scan_mode img_index image_step iw ih ow oh th tv k : Z)
  : EpTaskItem :=
  let '(x1, y1, tile_width, tile_height, tile_step) :=
    tile_bounds iw ih ow oh th tv k in
  new_task (x1 + y1 * image_step) tile_width tile_height tile_step
    (if scan_mode =? SCAN_FULL then SCAN_FULL else Z.land (x1 + y1 + scan_mode) 1)
    0 img_index.

End TileTasks.

(** Byte [i] of a block, and the [int] at byte [i]. *)
Definition block_byte (block : list byte) (i : Z) : outcome Z :=
  if 0 <=? i then
    match block !! Z.to_nat i with
    | Some c => Done (Z.of_N (Byte.to_N c))
    | None => Stopped UndefinedBehaviour
    end
  else Stopped UndefinedBehaviour.

Definition block_int (block : list byte) (i : Z) : outcome Z :=
  do b0 <- block_byte block i;
  do b1 <- block_byte block (i + 1);
  do b2 <- block_byte block (i + 2);
  do b3 <- block_byte block (i + 3);
  Done (wrap32 (b0 + 256 * b1 + 65536 * b2 + 16777216 * b3)).

(** The macro values and geometries the tiling is evaluated at:
    [(MAX_TILE_BYTES, RECOMMENDED_TILE_SIZE, width, height, window)]. *)
Definition overrun_table : list (Z * Z * Z * Z * Z) :=
  [(1024, 32, 57, 26, 24); (1024, 48, 57, 26, 24); (1024, 64, 57, 26, 24);
   (1024, 96, 57, 26, 24); (1024, 128, 57, 26, 24);
   (2048, 32, 177, 33, 24); (2048, 48, 57, 52, 24); (2048, 64, 57, 52, 24);
   (2048, 96, 57, 52, 24); (2048, 128, 57, 52, 24);
   (4096, 32, 457, 35, 24); (4096, 48, 137, 137, 24);
   (4096, 64, 137, 74, 24); (4096, 96, 97, 86, 24);
   (4096, 128, 97, 86, 24); (6144, 32, 73, 154, 9);
   (6144, 48, 137, 196, 24); (6144, 64, 217, 217, 24);
   (6144, 96, 137, 110, 24); (6144, 128, 137, 110, 24);
   (8192, 32, 73, 205, 9); (8192, 48, 137, 147, 24);
   (8192, 64, 217, 217, 24); (8192, 96, 177, 129, 24);
   (8192, 128, 161, 147, 24); (12288, 32, 73, 308, 9);
   (12288, 48, 137, 220, 24); (12288, 64, 217, 318, 24);
   (12288, 96, 337, 129, 24); (12288, 128, 217, 171, 24);
   (16384, 32, 73, 410, 9); (16384, 48, 137, 293, 24);
   (16384, 64, 217, 228, 24); (16384, 96, 377, 426, 24);
   (16384, 128, 337, 171, 24); (24576, 32, 73, 615, 9);
   (24576, 48, 137, 439, 24); (24576, 64, 217, 342, 24);
   (24576, 96, 377, 450, 24); (24576, 128, 497, 531, 24);
   (32768, 32, 73, 820, 9); (32768, 48, 137, 586, 24);
   (32768, 64, 217, 456, 24); (32768, 96, 377, 608, 24);
   (32768, 128, 497, 497, 24)].

(** A world in which memory never written holds what [fill] says. *)
Definition with_junk (fill : nat -> byte) (w : World) : World :=
  {| heap := heap w; next_block := next_block w; alloc_limit := alloc_limit w;
     junk := fill; files := files w; read_only := read_only w;
     disk_free := disk_free w |}.

(** The pixel [(x, y)] of an image. *)
Definition pixel (w : World) (image : EpImage) (x y : Z) : outcome Z :=
  do image_data <- deref (img_data image);
  load_byte w image_data (y * img_step image + x).

(** A run that stops does so for undefined behaviour: it neither fails an
    assertion nor goes on for ever. *)
Definition only_undefined {A : Type} (m : outcome A) : Prop :=
  forall f, m = Stopped f -> f = UndefinedBehaviour.

(** ** Notions of the further properties *)

(** The byte at [p + i], where there is one. *)
Definition byte_at (w : World) (p : ptr) (i : Z) : option byte :=
  match heap w !! p.1 with
  | Some block => if 0 <=? p.2 + i then block !! Z.to_nat (p.2 + i) else None
  | None => None
  end.

(** The value of a byte as [unsigned char]. *)
Definition byte_value (c : byte) : Z := Z.of_N (Byte.to_N c).

(** The sum of [f] over [start, start + n). *)
Definition sum_over (f : Z -> Z) (start : Z) (n : nat) : Z :=
  foldr Z.add 0 (map f (seqZ start (Z.of_nat n))).

(** The value of the pixel [(x, y)] of an image, 0 where it cannot be read. *)
Definition pixel_value (w : World) (image : EpImage) (x y : Z) : Z :=
  match pixel w image x y with
  | Done v => v
  | Stopped _ => 0
  end.

(** The 4x4 pixels of [small_image], packed with step 4. *)
Definition packed_pixels : list byte :=
  map byte_of_Z [0; 1; 2; 3; 8; 9; 10; 11; 16; 17; 18; 19; 24; 25; 26; 27].
Definition packed_image : EpImage :=
  {| img_data := Some (1%positive, 0); img_width := 4; img_height := 4; img_step := 4 |}.
Definition packed_world : World := world_of [packed_pixels] [].

(** Two worlds with the same memory: they may differ in their files. *)
Definition same_memory (w w' : World) : Prop :=
  heap w' = heap w /\ next_block w' = next_block w /\
  alloc_limit w' = alloc_limit w /\ junk w' = junk w.

(** The images of a list lie one after the other from [start]: each begins
    where the one before it ends, [step * height] bytes further. *)
Fixpoint laid_out (start : Z) (l : list EpImageProp) : Prop :=
  match l with
  | [] => True
  | i :: rest =>
      prop_data_offset i = start /\ laid_out (start + prop_step i * prop_height i) rest
  end.

(** Where the images of a list that starts at [start] end. *)
Definition end_offset (start : Z) (l : list EpImageProp) : Z :=
  fold_left (fun o i => o + prop_step i * prop_height i) l start.

(** An entry of a weight table is an average: its weights are not negative
    and add up to the divisor, the rounding term is less than the divisor,
    and every pixel it names is one of the 64 of the block. *)
Definition average_entry (entry : Z * Z * list (Z * Z * Z) * Z * Z) : bool :=
  let '(_, _, terms, rounding, divisor) := entry in
  (0 <? divisor) && (0 <=? rounding) && (rounding <? divisor) &&
  (foldr Z.add 0 (map (fun t : Z * Z * Z => t.2) terms) =? divisor) &&
  forallb (fun t : Z * Z * Z =>
             (0 <=? t.2) && (0 <=? 8 * t.1.1 + t.1.2) && (8 * t.1.1 + t.1.2 <? 64))
          terms.

(** Two [float]s are the same datum. *)
Definition float_same (a b : float) : bool :=
  match a, b with
  | S754_zero s, S754_zero s' => Bool.eqb s s'
  | S754_infinity s, S754_infinity s' => Bool.eqb s s'
  | S754_nan, S754_nan => true
  | S754_finite s m e, S754_finite s' m' e' =>
      Bool.eqb s s' && Pos.eqb m m' && Z.eqb e e'
  | _, _ => false
  end.

(** The value of the byte at [p + k], 0 where there is none. *)
Definition value_at (w : World) (p : ptr) (k : Z) : Z :=
  match byte_at w p k with
  | Some c => byte_value c
  | None => 0
  end.

(** The rounded mean of the 2x2 pixels at [(2x, 2y)] of the image of step
    [step] at [p]. *)
Definition halved (w : World) (p : ptr) (step x y : Z) : Z :=
  Z.shiftr (value_at w p (step * y * 2 + 2 * x) + value_at w p (step * y * 2 + 2 * x + 1)
            + value_at w p (step * y * 2 + step + 2 * x)
            + value_at w p (step * y * 2 + step + 2 * x + 1) + 2) 2.

(** [wz] is [w] after the first [n] pixels of the halved image, rows of
    [ow] pixels, have been written over the image at [p]: those pixels hold
    the means of the pixels of [w], and every other byte is as in [w]. *)
Definition halved_upto (w : World) (p : ptr) (step ow n : Z) (wz : World) : Prop :=
  (forall x y, 0 <= y -> 0 <= x < ow -> y * ow + x < n ->
     byte_at wz p (step * y + x) = Some (byte_of_Z (halved w p step x y))) /\
  (forall k, (forall x y, 0 <= y -> 0 <= x < ow -> y * ow + x < n -> k <> step * y + x) ->
     byte_at wz p k = byte_at w p k) /\
  (forall b, b <> p.1 -> heap wz !! b = heap w !! b).

Section TaskContract.
Context {hdr : Header}.

(** What [ep_task_list_add] asks of a task ("area must be step * height,
    step must be round_up_to8(width), items_count must be 0"), together with
    the tile budget, the index of the level, the scan mode of a tile and the
    alignment of its first byte. *)
Definition task_in_contract (scan_mode img_index image_step : Z) (t : EpTaskItem) : Prop :=
  task_area t = task_step t * task_height t /\
  task_step t = round_up_to_8n (task_width t) /\
  task_items_count t = 0 /\ task_objects t = [] /\
  task_image_index t = img_index /\
  task_step t * task_height t <= MAX_TILE_BYTES /\
  (if scan_mode =? SCAN_FULL then task_scan_mode t = SCAN_FULL
   else task_scan_mode t = 0 \/ task_scan_mode t = 1) /\
  (image_step mod 8 = 0 -> task_offset t mod 8 = 0).

End TaskContract.

(** An 8x2 image whose step is its width. *)
Definition wide_pixels : list byte := map byte_of_Z (seqZ 0 16).
Definition wide_image : EpImage :=
  {| img_data := Some (1%positive, 0); img_width := 8; img_height := 2; img_step := 8 |}.
Definition wide_world : World := world_of [wide_pixels] [].

(** A world with the file of [accept_all_blob] and the file of
    [wide_image]. *)
Definition saved_world : World :=
  world_of []
    [("classifier.bin"%string,
      ints [@FILE_ID_CLASSIFIER example_header; 68] ++ accept_all_blob);
     ("image.bin"%string, ints [@FILE_ID_IMAGE example_header; 8; 2] ++ wide_pixels)].

(** A file that starts as an image file does: the identifier, a positive
    width and a positive height, four bytes each.  The pixel payload is what
    follows these twelve bytes. *)
Definition image_header `{hdr : Header} (contents : list byte) (width height : Z) : Prop :=
  (12 <= length contents)%nat /\
  int_of_bytes (take 4 contents) = FILE_ID_IMAGE /\
  int_of_bytes (take 4 (drop 4 contents)) = width /\
  int_of_bytes (take 4 (drop 8 contents)) = height /\
  0 < width /\ 0 < height.

(** A task of level 0 that reports one detection, at [(1, 2)] of its
    tile. *)
Definition reporting_task : EpTaskItem :=
  {| task_offset := 0; task_area := 64; task_width := 8; task_height := 8;
     task_step := 8; task_scan_mode := 2; task_items_count := 1;
     task_image_index := 0; task_objects := [131073] |}.

(** Block [b] is allocated. *)
Definition live (w : World) (b : positive) : Prop := is_Some (heap w !! b).

(** A run that ends: it returns, or it stops for another reason than going
    on for ever. *)
Definition ends {A : Type} (m : outcome A) : Prop := m <> Stopped NeverReturns.

(** The world of the well-formed classifier with four more bytes after the
    blob, and cores that load and never finish. *)
Definition roomy_world : World :=
  world_of [accept_all_blob ++ ints [0]; small_pixels] [].
Definition stuck_cores : Cores :=
  {| load_group_ok := true; all_tasks_finish := false; written_back := fun _ t => t |}.


(** * Properties *)

(** ** Memory *)

Lemma load_byte_readable w p i :
  readable w p (i + 1) -> 0 <= i ->
  exists v, load_byte w p i = Done v /\ 0 <= v < 256.
Proof.
  intros (block & Hb & Hlo & Hhi) Hi. unfold load_byte. rewrite Hb.
  destruct (Z.leb_spec 0 (p.2 + i)) as [_|]; [|lia].
  destruct (lookup_lt_is_Some_2 block (Z.to_nat (p.2 + i))) as [c Hc]; [lia|].
  rewrite Hc. eexists; split; [reflexivity|].
  pose proof (Byte.to_N_bounded c) as Hc'. lia.
Qed.

Lemma load_int_readable w p off :
  readable w p (off + 4) -> 0 <= off ->
  exists v, load_int w p off = Done v.
Proof.
  intros Hr Hoff. unfold load_int.
  assert (forall k, 0 <= k < 4 -> readable w p (off + k + 1)) as Hk.
  { intros k Hk. destruct Hr as (block & Hb & Hlo & Hhi). exists block. repeat split; [done|lia|lia]. }
  destruct (load_byte_readable w p off) as (b0 & -> & _); [replace (off + 1) with (off + 0 + 1) by lia; apply Hk; lia|lia|].
  destruct (load_byte_readable w p (off + 1)) as (b1 & -> & _); [apply Hk; lia|lia|].
  destruct (load_byte_readable w p (off + 2)) as (b2 & -> & _); [apply Hk; lia|lia|].
  destruct (load_byte_readable w p (off + 3)) as (b3 & -> & _); [apply Hk; lia|lia|].
  simpl. eauto.
Qed.

Lemma load_int_at w p off :
  readable w p (off + 4) -> 0 <= off -> load_int w p off = Done (int_at w p off).
Proof.
  intros Hr Hoff. destruct (load_int_readable w p off Hr Hoff) as [v Hv].
  unfold int_at. by rewrite Hv.
Qed.

Lemma load_int_ptr_add w p a off :
  load_int w (ptr_add p a) off = load_int w p (a + off).
Proof.
  unfold load_int, load_byte, ptr_add. simpl.
  by rewrite !Z.add_assoc.
Qed.

Lemma readable_weaken w p n m : readable w p n -> m <= n -> readable w p m.
Proof.
  intros (block & Hb & Hlo & Hhi) Hm. exists block. repeat split; [done|done|lia].
Qed.

(** C6. [ep_classifier_check] on a classifier whose pointer is good for its
    size returns the place of the first violated invariant (1 empty, 2 too
    small, 3 wrong first tag, 4 undersized window, 5 wrong second tag, 6 wrong
    last tag, 7 wrong second-to-last tag), and 0 exactly when the classifier
    is non-empty and structurally valid. *)
Theorem ep_classifier_check_codes `{hdr : Header} (w : World)
    (classifier : EpCascadeClassifier) :
  layout_ok -> dereferencable w classifier ->
  ep_classifier_check classifier w = Done (first_violation (violations w classifier)) /\
  (ep_classifier_check classifier w = Done 0 <-> structurally_valid w classifier).
Proof.
  intros Hl Hd.
  assert (ep_classifier_check classifier w
          = Done (first_violation (violations w classifier))) as Hcode.
  { unfold ep_classifier_check, violations, first_violation, ep_classifier_is_empty.
    destruct (cls_data classifier) as [p|] eqn:Hp; [|reflexivity].
    specialize (Hd p Hp). simpl.
    destruct Hl as (Hm & Hdc & Hs & Hf & Hww0 & Hww & Hwh0 & Hwh).
    destruct (Z.ltb_spec (cls_size classifier)
                (sizeof_EpNodeMeta + sizeof_EpNodeDecision + sizeof_EpNodeStage
                 + sizeof_EpNodeFinal)) as [|Hsize]; [reflexivity|].
    rewrite (load_int_at w p 0) by (try apply (readable_weaken _ _ _ _ Hd); lia).
    cbn [obind].
    destruct (int_at w p 0 =? NODE_META); simpl; [|reflexivity].
    rewrite (load_int_at w p offsetof_window_height)
      by (try apply (readable_weaken _ _ _ _ Hd); lia).
    cbn [obind].
    destruct (int_at w p offsetof_window_height <? 3); simpl; [reflexivity|].
    rewrite (load_int_at w p offsetof_window_width)
      by (try apply (readable_weaken _ _ _ _ Hd); lia).
    cbn [obind].
    simpl.
    destruct (int_at w p offsetof_window_width <? 3); simpl; [reflexivity|].
    rewrite !load_int_ptr_add, !Z.add_0_r.
    rewrite (load_int_at w p sizeof_EpNodeMeta)
      by (try apply (readable_weaken _ _ _ _ Hd); lia).
    cbn [obind].
    destruct (int_at w p sizeof_EpNodeMeta =? NODE_DECISION); simpl; [|reflexivity].
    rewrite (load_int_at w p (cls_size classifier - sizeof_EpNodeFinal))
      by (try apply (readable_weaken _ _ _ _ Hd); lia).
    cbn [obind].
    destruct (int_at w p (cls_size classifier - sizeof_EpNodeFinal) =? NODE_FINAL);
      simpl; [|reflexivity].
    replace (cls_size classifier - sizeof_EpNodeFinal + - sizeof_EpNodeStage)
      with (cls_size classifier - sizeof_EpNodeFinal - sizeof_EpNodeStage) by lia.
    rewrite (load_int_at w p (cls_size classifier - sizeof_EpNodeFinal - sizeof_EpNodeStage))
      by (try apply (readable_weaken _ _ _ _ Hd); lia).
    cbn [obind].
    destruct (int_at w p (cls_size classifier - sizeof_EpNodeFinal - sizeof_EpNodeStage)
              =? NODE_STAGE); reflexivity. }
  split; [exact Hcode|].
  rewrite Hcode. unfold violations, first_violation, structurally_valid,
    ep_classifier_is_empty.
  destruct (cls_data classifier) as [p|] eqn:Hp; simpl.
  - repeat match goal with
           | |- context [Z.ltb ?a ?b] => destruct (Z.ltb_spec a b); simpl
           | |- context [Z.eqb ?a ?b] => destruct (Z.eqb_spec a b); simpl
           end;
      (split;
       [ intros [=]; try (exists p; repeat split; (done || lia))
       | intros (q & [= <-] & ?); try reflexivity; exfalso; (lia || intuition congruence) ]).
  - split; [intros [=]|intros (q & [=] & _)].
Qed.

(** ** The positions of a scan *)


Lemma land_1_mod2 z : Z.land z 1 = z mod 2.
Proof. change 1 with (Z.ones 1). by rewrite Z.land_ones. Qed.


Section Scan.
Context {hdr : Header}.

End Scan.




Section ScanSets.
Context {hdr : Header}.



End ScanSets.

(** ** Frame properties of the stores *)

Lemma obind_Done {A B} (m : outcome A) (k : A -> outcome B) b :
  obind m k = Done b -> exists a, m = Done a /\ k a = Done b.
Proof. destruct m as [a|f]; simpl; [eauto|discriminate]. Qed.

Lemma for_loop_invariant {S : Type} (P : S -> Prop) n start
    (body : Z -> S -> outcome S) s s' :
  (forall i t t', body i t = Done t' -> P t -> P t') ->
  for_loop n start body s = Done s' -> P s -> P s'.
Proof.
  intros Hbody. revert start s. induction n as [|n IH]; intros start s; simpl.
  - by intros [= ->].
  - intros H Hs. apply obind_Done in H as (t & Ht & Hrest). eauto.
Qed.




Lemma load_byte_same_block w w' p i :
  same_block p.1 w w' -> load_byte w' p i = load_byte w p i.
Proof. unfold same_block, load_byte. by intros ->. Qed.

Lemma load_int_same_block w w' p off :
  same_block p.1 w w' -> load_int w' p off = load_int w p off.
Proof.
  intros H. unfold load_int. by rewrite !(load_byte_same_block w w' p _ H).
Qed.

Lemma int_at_same_block w w' p off :
  same_block p.1 w w' -> int_at w' p off = int_at w p off.
Proof. intros H. unfold int_at. by rewrite (load_int_same_block w w' p off H). Qed.

Lemma away_from_set_size b image wd ht :
  away_from b image -> away_from b (set_size image wd ht).
Proof. done. Qed.

Lemma deref_Done p q : deref p = Done q -> p = Some q.
Proof. destruct p; simpl; congruence. Qed.




(** ** The detections of the host scan *)

Section HostScan.
Context {hdr : Header}.

Lemma ep_rect_list_add_rects w l x y wd ht :
  rects (ep_rect_list_add w l x y wd ht).2 = rects l \/
  rects (ep_rect_list_add w l x y wd ht).2
  = rects l ++ [{| rect_x := x; rect_y := y; rect_width := wd; rect_height := ht |}].
Proof.
  unfold ep_rect_list_add.
  destruct (rects_count l =? rects_capacity l);
    [destruct (realloc_ok w _)|]; simpl; auto.
Qed.



(** Adding to a list looks at the world for what [realloc] grants only. *)
Lemma add_rects_alloc_limit w w' l items :
  alloc_limit w' = alloc_limit w -> add_rects w' l items = add_rects w l items.
Proof.
  intros Hlimit. revert l. induction items as [|r items IH]; intros l; [done|].
  cbn [add_rects]. unfold ep_rect_list_add, realloc_ok. rewrite Hlimit.
  destruct (rects_count l =? rects_capacity l); [destruct (_ && _)|];
    by rewrite IH.
Qed.

Lemma load_int_Done_int_at w p off v : load_int w p off = Done v -> int_at w p off = v.
Proof. unfold int_at. by intros ->. Qed.



End HostScan.




(** ** The scale of a level *)

Lemma wrap32_small z : - 2 ^ 31 <= z < 2 ^ 31 -> wrap32 z = z.
Proof. intros Hz. unfold wrap32. rewrite Z.mod_small; lia. Qed.





(** ** The levels of the host driver *)



Section HostLoop.
Context {hdr : Header}.




End HostLoop.




Section HostDriver.
Context {hdr : Header}.


End HostDriver.

(** ** The detections of the offload path *)

Section OffloadResults.
Context {hdr : Header}.



End OffloadResults.

(** ** The tiling scheduler *)

(** ** The arithmetic of the tiling *)

Lemma land_m8 z : Z.land z (-8) = 8 * (z / 8).
Proof.
  change (-8) with (Z.lnot (Z.ones 3)).
  rewrite <- Z.ldiff_land, Z.ldiff_ones_r by lia.
  rewrite Z.shiftl_mul_pow2, Z.shiftr_div_pow2 by lia.
  change (2 ^ 3) with 8. lia.
Qed.

Lemma round_to_8n_grid z : round_to_8n z mod 8 = 0.
Proof.
  unfold round_to_8n. rewrite land_m8, Z.mul_comm. apply Z.mod_mul. lia.
Qed.

Lemma round_to_8n_0 : round_to_8n 0 = 0.
Proof. reflexivity. Qed.

Lemma half_bounds n : 0 < n -> 0 <= Z.quot n 2 < n.
Proof.
  intros Hn. rewrite Z.quot_div_nonneg by lia.
  pose proof (Z.div_mod n 2 ltac:(lia)). pose proof (Z.mod_pos_bound n 2 ltac:(lia)).
  lia.
Qed.

Lemma divide_round_0 n : 0 < n < 2 ^ 31 -> divide_round 0 n = 0.
Proof.
  intros Hn. unfold divide_round. rewrite Z.add_0_l.
  pose proof (half_bounds n ltac:(lia)) as Hr.
  rewrite wrap32_small by lia. by apply Z.quot_small.
Qed.

Lemma divide_round_all a n :
  0 <= a -> 0 < n -> a * n + n < 2 ^ 31 -> divide_round (a * n) n = a.
Proof.
  intros Ha Hn Hfits. unfold divide_round.
  pose proof (half_bounds n Hn) as Hr.
  rewrite wrap32_small by nia.
  rewrite Z.quot_div_nonneg by nia.
  symmetry. apply (Z.div_unique _ _ _ (Z.quot n 2)); lia.
Qed.

(** A sequence that starts at or below [x] has a last member at or below
    [x] among its first [n]. *)
Lemma last_at_or_below (f : Z -> Z) (x : Z) (n : nat) :
  f 0 <= x ->
  exists t, 0 <= t <= Z.of_nat n /\ f t <= x /\
            (t < Z.of_nat n -> x < f (t + 1)).
Proof.
  intros H0. induction n as [|n (t & Ht & Hle & Hgt)].
  - exists 0. repeat split; lia.
  - destruct (Z.eq_dec t (Z.of_nat n)) as [->|Hne].
    + destruct (Z_le_gt_dec (f (Z.of_nat n + 1)) x) as [Hle'|Hgt'].
      * exists (Z.of_nat n + 1). repeat split; lia.
      * exists (Z.of_nat n). repeat split; lia.
    + exists t. repeat split; lia.
Qed.

Lemma tile_index_split th tx ty :
  0 <= tx < th -> 0 <= ty ->
  Z.quot (ty * th + tx) th = ty /\ Z.rem (ty * th + tx) th = tx.
Proof.
  intros Hx Hy.
  rewrite Z.quot_div_nonneg, Z.rem_mod_nonneg by nia.
  split.
  - symmetry. apply (Z.div_unique _ _ _ tx); lia.
  - symmetry. apply (Z.mod_unique _ _ ty); lia.
Qed.

(** With positive numbers of tiles that fit an [int], every window
    position lies in the scannable extent of some tile. *)
Lemma tile_bounds_cover iw ih ow oh th tv x y :
  0 < th < 2 ^ 31 -> 0 < tv -> ih * tv + tv < 2 ^ 31 -> 0 <= x < iw -> 0 <= y < ih ->
  exists k, 0 <= k < th * tv /\
    let '(x1, y1, tile_width, tile_height, _) := tile_bounds iw ih ow oh th tv k in
    x1 <= x < x1 + tile_width - ow /\ y1 <= y < y1 + tile_height - oh.
Proof.
  intros Hth Htv Hfits Hx Hy.
  assert (tv < 2 ^ 31) as Htv' by nia.
  destruct (last_at_or_below (fun tx => round_to_8n (divide_round (iw * tx) th)) x
              (Z.to_nat (th - 1))) as (tx & Htx & Hlo & Hhi).
  { rewrite Z.mul_0_r, divide_round_0, round_to_8n_0 by lia. lia. }
  destruct (last_at_or_below (fun ty => divide_round (ih * ty) tv) y (Z.to_nat tv))
    as (ty & Hty & Hlo' & Hhi').
  { rewrite Z.mul_0_r, divide_round_0 by lia. lia. }
  assert (ty < tv) as Hty'.
  { destruct (Z.eq_dec ty tv) as [->|]; [|lia].
    rewrite divide_round_all in Hlo' by lia. lia. }
  exists (ty * th + tx). split; [nia|].
  unfold tile_bounds.
  destruct (tile_index_split th tx ty ltac:(lia) ltac:(lia)) as [-> ->].
  split.
  - destruct (Z.eqb_spec (tx + 1) th) as [Heq|Hne]; [lia|].
    specialize (Hhi ltac:(lia)). lia.
  - specialize (Hhi' ltac:(lia)). lia.
Qed.

Lemma tile_bounds_grid iw ih ow oh th tv k :
  let '(x1, _, _, _, _) := tile_bounds iw ih ow oh th tv k in x1 mod 8 = 0.
Proof. unfold tile_bounds. apply round_to_8n_grid. Qed.

Lemma tile_bounds_last iw ih ow oh th tv k :
  Z.rem k th = th - 1 ->
  let '(x1, _, tile_width, _, _) := tile_bounds iw ih ow oh th tv k in
  x1 + tile_width = iw + ow.
Proof.
  intros Hk. unfold tile_bounds. rewrite Hk.
  destruct (Z.eqb_spec (th - 1 + 1) th); lia.
Qed.

Section Tasks.
Context {hdr : Header}.

Lemma ep_task_list_add_tasks w l offset width height step scan_mode items_count
    image_index :
  let l' := (ep_task_list_add w l offset width height step scan_mode items_count
               image_index).2 in
  tasks l' = tasks l \/
  tasks l' = tasks l ++ [new_task offset width height step scan_mode items_count
                           image_index].
Proof.
  unfold ep_task_list_add.
  destruct (tasks_count l =? tasks_capacity l);
    [destruct (realloc_ok w _)|]; simpl; auto.
Qed.

(** The loop of [add_tasks_for_image] appends the tasks of the tiles in
    order, leaving out those [realloc] had no room for. *)
Lemma add_tasks_loop w scan_mode img_index image_step iw ih ow oh th tv n start
    task_buf task_buf' :
  for_loop n start
    (fun tile_index task_buf =>
       let '(tile_x1, tile_y1, tile_width, tile_height, tile_step) :=
         tile_bounds iw ih ow oh th tv tile_index in
       do _ <- assert (tile_step * tile_height <=? MAX_TILE_BYTES);
       Done (ep_task_list_add w task_buf (tile_x1 + tile_y1 * image_step)
               tile_width tile_height tile_step
               (if scan_mode =? SCAN_FULL then SCAN_FULL
                else Z.land (tile_x1 + tile_y1 + scan_mode) 1)
               0 img_index).2)
    task_buf = Done task_buf' ->
  exists added,
    tasks task_buf' = tasks task_buf ++ added /\
    (length added <= n)%nat /\
    (length added = n ->
     forall j, (j < n)%nat ->
       added !! j = Some (tile_task scan_mode img_index image_step iw ih ow oh th tv
                            (start + Z.of_nat j))).
Proof.
  revert start task_buf. induction n as [|n IH]; intros start task_buf H; cbn [for_loop] in H.
  - injection H as <-. exists []. rewrite app_nil_r. repeat split; [done|]. lia.
  - apply obind_Done in H as (buf1 & Hbody & H).
    apply IH in H as (added & Hrest & Hlen & Hall).
    destruct (tile_bounds iw ih ow oh th tv start) as [[[[x1 y1] tw] thh] ts] eqn:Hb.
    apply obind_Done in Hbody as (_ & _ & [= <-]).
    match type of Hrest with
    | context [ep_task_list_add w task_buf ?a ?b ?c ?d ?e ?f ?g] =>
        destruct (ep_task_list_add_tasks w task_buf a b c d e f g) as [Hsame|Hadd]
    end.
    + exists added. rewrite Hrest, Hsame. split; [done|]. split; [lia|]. lia.
    + eexists (_ :: added). rewrite Hrest, Hadd, <- app_assoc. split; [done|].
      split; [simpl; lia|]. simpl. intros Hfull [|j] Hj.
      * simpl. unfold tile_task. by rewrite Z.add_0_r, Hb.
      * simpl. rewrite Hall by lia. f_equal. f_equal. lia.
Qed.

End Tasks.

(** When the numbers of tiles [add_tasks_for_image] computes for a level are
    both positive and fit an [int], and the call returns with every tile
    appended, the appended tasks are the tiles in order, every valid window
    position of the level lies in the scannable extent of one of them, every
    tile starts on the 8-pixel grid, and the last tile of each row ends at
    the right edge of the level. *)
Lemma tiles_cover_positions `{hdr : Header} (w : World) (scan_mode : Z)
    (img_list : EpImgList) (img_index window_width window_height : Z)
    (task_buf task_buf' : EpTaskList) (prop : EpImageProp) (tiles_hor tiles_ver : Z) :
  let ow := window_width - 1 in
  let oh := window_height - 1 in
  let iw := prop_width prop - ow in
  let ih := prop_height prop - oh in
  let tile := tile_bounds iw ih ow oh tiles_hor tiles_ver in
  0 <= img_index ->
  imgs img_list !! Z.to_nat img_index = Some prop ->
  tile_counts iw ih ow oh = Done (tiles_hor, tiles_ver) ->
  0 < tiles_hor < 2 ^ 31 -> 0 < tiles_ver -> ih * tiles_ver + tiles_ver < 2 ^ 31 ->
  add_tasks_for_image w scan_mode img_list img_index window_width window_height
    task_buf = Done task_buf' ->
  length (tasks task_buf')
  = (length (tasks task_buf) + Z.to_nat (tiles_hor * tiles_ver))%nat ->
  (forall k, 0 <= k < tiles_hor * tiles_ver ->
     tasks task_buf' !! (length (tasks task_buf) + Z.to_nat k)%nat
     = Some (tile_task scan_mode img_index (prop_step prop) iw ih ow oh
               tiles_hor tiles_ver k)) /\
  (forall x y,
     0 <= x < prop_width prop + 1 - window_width ->
     0 <= y < prop_height prop + 1 - window_height ->
     exists k, 0 <= k < tiles_hor * tiles_ver /\
       let '(x1, y1, tile_width, tile_height, _) := tile k in
       x1 <= x /\ x + window_width <= x1 + tile_width /\
       y1 <= y /\ y + window_height <= y1 + tile_height) /\
  (forall k, 0 <= k < tiles_hor * tiles_ver ->
     let '(x1, _, _, _, _) := tile k in x1 mod 8 = 0) /\
  (forall k, 0 <= k < tiles_hor * tiles_ver -> Z.rem k tiles_hor = tiles_hor - 1 ->
     let '(x1, _, tile_width, _, _) := tile k in x1 + tile_width = prop_width prop).
Proof.
  intros ow oh iw ih tile Hidx Hprop Hcounts Hth Htv Hfits Hadd Hlen.
  split; [|split; [|split]].
  - unfold add_tasks_for_image in Hadd.
    apply obind_Done in Hadd as (_ & _ & Hadd). rewrite Hprop in Hadd.
    fold ow oh iw ih in Hadd. rewrite Hcounts in Hadd. cbn [obind] in Hadd.
    apply add_tasks_loop in Hadd as (added & Hrects & _ & Hall).
    rewrite Hrects, length_app in Hlen.
    intros k Hk. rewrite Hrects, lookup_app_r by lia.
    replace (length (tasks task_buf) + Z.to_nat k - length (tasks task_buf))%nat
      with (Z.to_nat k) by lia.
    rewrite Hall by lia. f_equal. f_equal. lia.
  - intros x y Hx Hy.
    destruct (tile_bounds_cover iw ih ow oh tiles_hor tiles_ver x y Hth Htv Hfits)
      as (k & Hk & Hcover); [unfold iw, ow; lia|unfold ih, oh; lia|].
    exists k. split; [done|]. unfold tile.
    destruct (tile_bounds iw ih ow oh tiles_hor tiles_ver k) as [[[[x1 y1] tw] thh] ts].
    unfold ow, oh in Hcover. lia.
  - intros k _. apply tile_bounds_grid.
  - intros k _ Hlast.
    pose proof (tile_bounds_last iw ih ow oh tiles_hor tiles_ver k Hlast) as H.
    unfold tile.
    destruct (tile_bounds iw ih ow oh tiles_hor tiles_ver k) as [[[[x1 y1] tw] thh] ts].
    unfold iw, ow in H. lia.
Qed.

(** ** Runs evaluated at concrete inputs *)

Lemma load_byte_block w p i b block :
  heap w !! b = Some block -> p.1 = b ->
  load_byte w p i = block_byte block (p.2 + i).
Proof. intros H <-. unfold load_byte, block_byte. by rewrite H. Qed.

Lemma load_int_block w p off b block :
  heap w !! b = Some block -> p.1 = b ->
  load_int w p off = block_int block (p.2 + off).
Proof.
  intros H Hp. unfold load_int, block_int.
  rewrite !(load_byte_block w p _ b block H Hp). by rewrite !Z.add_assoc.
Qed.

(** C2. The assertion of [add_tasks_for_image] fires: with a tile budget of
    8192 bytes and a recommended tile size of 64, the fifth tile of a level of
    217x217 pixels under a 24x24 window is 65 pixels wide and 120 high, and
    its step of 72 bytes times its height exceeds the budget.  The same
    happens for each of the other macro values in [overrun_table]. *)
Theorem tiling_assertion_fires :
  @tile_counts example_header 194 194 23 23 = Done (5, 2) /\
  tile_bounds 194 194 23 23 5 2 4 = (152, 0, 65, 120, 72) /\
  72 * 120 > @MAX_TILE_BYTES example_header /\
  @add_tasks_for_image example_header (world_of [] []) (@SCAN_FULL example_header)
    (one_level 217 217) 0 24 24 ep_task_list_create_empty
  = Stopped AssertionFailure /\
  Forall (fun '(M, T, width, height, window) =>
            @add_tasks_for_image (reference_header M T) (world_of [] []) 2
              (one_level width height) 0 window window ep_task_list_create_empty
            = Stopped AssertionFailure)
    overrun_table.
Proof.
  split; [vm_compute; reflexivity|]. split; [vm_compute; reflexivity|].
  split; [vm_compute; reflexivity|]. split; [vm_compute; reflexivity|].
  unfold overrun_table. repeat (constructor; [vm_compute; reflexivity|]). constructor.
Qed.

(** C3. The tiles of [add_tasks_for_image] do not cover the scan area
    exactly.  With a recommended tile size of 64 and a budget of 8192 bytes:
    for a 66x66 window on a level of 66x66 pixels the scheduler computes
    minus one column of tiles and appends no task, although the level has a
    valid window position; for a 61x61 window on a level of 67x67 pixels it
    appends two tiles, the first 68 pixels wide, one more than the level,
    and the second 59 pixels wide, less than the window, starting at
    column 8, past the last valid position. *)
Theorem tiles_miss_the_scan_area :
  (@tile_counts example_header 1 1 65 65 = Done (-1, 1) /\
   @add_tasks_for_image example_header (world_of [] []) (@SCAN_FULL example_header)
     (one_level 66 66) 0 66 66 ep_task_list_create_empty
   = Done ep_task_list_create_empty /\
   0 <= 0 < 66 + 1 - 66) /\
  (@tile_counts example_header 7 7 60 60 = Done (2, 1) /\
   @add_tasks_for_image example_header (world_of [] []) (@SCAN_FULL example_header)
     (one_level 67 67) 0 61 61 ep_task_list_create_empty
   = Done {| tasks := [@tile_task example_header 2 0 72 7 7 60 60 2 1 0;
                       @tile_task example_header 2 0 72 7 7 60 60 2 1 1];
             tasks_capacity := 15 |} /\
   tile_bounds 7 7 60 60 2 1 0 = (0, 0, 68, 67, 72) /\
   tile_bounds 7 7 60 60 2 1 1 = (8, 0, 59, 67, 64) /\
   67 < 0 + 68 /\ 59 < 61 /\ 67 + 1 - 61 <= 8).
Proof.
  split.
  - split; [vm_compute; reflexivity|]. split; [vm_compute; reflexivity|lia].
  - split; [vm_compute; reflexivity|]. split; [vm_compute; reflexivity|].
    split; [vm_compute; reflexivity|]. split; [vm_compute; reflexivity|lia].
Qed.

Lemma classify_loop_step `{hdr : Header} fuel w node image_data image_step object_score :
  classify_loop (S fuel) w node image_data image_step object_score
  = (do tag <- load_byte w node 0;
     if tag =? 0 then
       do s <- decision_score w image_data image_step node;
       classify_loop fuel w (ptr_add node sizeof_EpNodeDecision) image_data
         image_step (object_score + s)
     else
       do threshold <- load_int w node offsetof_threshold;
       if object_score <? threshold then Done 0
       else
         let node := ptr_add node sizeof_EpNodeStage in
         do tag' <- load_byte w node 0;
         if negb (tag' =? 0) then Done 1
         else
           do s <- decision_score w image_data image_step node;
           classify_loop fuel w (ptr_add node sizeof_EpNodeDecision) image_data
             image_step s).
Proof. reflexivity. Qed.

(** ** The loops of the host driver end *)

Lemma only_undefined_Done {A} (a : A) : only_undefined (Done a).
Proof. intros f [=]. Qed.

Lemma only_undefined_Stopped {A} : only_undefined (@Stopped A UndefinedBehaviour).
Proof. by intros f [= <-]. Qed.

Lemma only_undefined_bind {A B} (m : outcome A) (k : A -> outcome B) :
  only_undefined m -> (forall a, m = Done a -> only_undefined (k a)) ->
  only_undefined (obind m k).
Proof.
  intros Hm Hk. destruct m as [a|f]; simpl; [by apply Hk|].
  intros f' [= <-]. by apply Hm.
Qed.

Create HintDb undefined.

#[local] Hint Resolve only_undefined_Done only_undefined_Stopped : undefined.

Lemma only_undefined_deref p : only_undefined (deref p).
Proof. destruct p; simpl; auto with undefined. Qed.

Lemma only_undefined_guard b : only_undefined (guard b).
Proof. destruct b; simpl; auto with undefined. Qed.

Lemma only_undefined_load_byte w p i : only_undefined (load_byte w p i).
Proof.
  unfold load_byte. destruct (heap w !! p.1); [|auto with undefined].
  destruct (0 <=? p.2 + i); [|auto with undefined].
  destruct (_ !! _); auto with undefined.
Qed.

Lemma only_undefined_store_byte p i v w : only_undefined (store_byte p i v w).
Proof.
  unfold store_byte. destruct (heap w !! p.1); [|auto with undefined].
  destruct (_ && _); auto with undefined.
Qed.

Lemma only_undefined_load_int w p off : only_undefined (load_int w p off).
Proof.
  unfold load_int.
  repeat (apply only_undefined_bind; [apply only_undefined_load_byte|intros ? _]).
  auto with undefined.
Qed.

Lemma only_undefined_free p w : only_undefined (free p w).
Proof.
  unfold free. destruct p as [[b off]|]; [|auto with undefined].
  destruct (heap w !! b); [|auto with undefined].
  destruct (off =? 0); auto with undefined.
Qed.

Lemma only_undefined_for_loop {S} n start (body : Z -> S -> outcome S) s :
  (forall i t, only_undefined (body i t)) -> only_undefined (for_loop n start body s).
Proof.
  intros Hbody. revert start s. induction n as [|n IH]; intros start s; simpl.
  - auto with undefined.
  - apply only_undefined_bind; [apply Hbody|]. intros t _. apply IH.
Qed.

Lemma only_undefined_block_sum w lines columns : only_undefined (block_sum w lines columns).
Proof.
  unfold block_sum.
  assert (forall sl acc, only_undefined acc ->
            only_undefined
              (fold_left (fun acc x => do a <- acc; do v <- load_byte w sl x; Done (a + v))
                         columns acc)) as Hrow.
  { intros sl. induction columns as [|x rest IH]; intros acc Hacc; simpl; [done|].
    apply IH. apply only_undefined_bind; [done|]. intros a _.
    apply only_undefined_bind; [apply only_undefined_load_byte|].
    intros v _. auto with undefined. }
  assert (forall acc, only_undefined acc ->
            only_undefined
              (fold_left
                 (fun acc sl =>
                    fold_left
                      (fun acc x => do a <- acc; do v <- load_byte w sl x; Done (a + v))
                      columns acc) lines acc)) as Hall.
  { induction lines as [|sl rest IH]; intros acc Hacc; simpl; [done|].
    apply IH. by apply Hrow. }
  apply Hall. auto with undefined.
Qed.

Lemma only_undefined_block_sums w l0 l1 l2 c0 c1 c2 :
  only_undefined (block_sums w l0 l1 l2 c0 c1 c2).
Proof.
  unfold block_sums.
  generalize [(l0, c0); (l0, c1); (l0, c2); (l1, c0); (l1, c1); (l1, c2);
              (l2, c0); (l2, c1); (l2, c2)].
  intros blocks. induction blocks as [|lc rest IH]; cbn [fold_right].
  - auto with undefined.
  - apply only_undefined_bind; [apply only_undefined_block_sum|]. intros s _.
    apply only_undefined_bind; [exact IH|]. intros; auto with undefined.
Qed.

Section Termination.
Context {hdr : Header}.

Lemma only_undefined_calc_lbp_decision w image_data image_step node :
  only_undefined (calc_lbp_decision w image_data image_step node).
Proof.
  unfold calc_lbp_decision.
  apply only_undefined_bind; [apply only_undefined_load_int|]. intros feature _.
  apply only_undefined_bind.
  { repeat destruct (_ =? 1); apply only_undefined_block_sums. }
  intros sums _.
  do 9 (destruct sums as [|? sums]; [auto with undefined|]).
  destruct sums; [|auto with undefined].
  apply only_undefined_bind; [apply only_undefined_load_int|].
  intros; auto with undefined.
Qed.

Lemma only_undefined_decision_score w image_data image_step node :
  only_undefined (decision_score w image_data image_step node).
Proof.
  unfold decision_score.
  apply only_undefined_bind; [apply only_undefined_load_int|]. intros score _.
  apply only_undefined_bind; [apply only_undefined_calc_lbp_decision|].
  intros; auto with undefined.
Qed.

Lemma load_byte_Done_bounds w p i v :
  load_byte w p i = Done v -> 0 <= p.2 + i < Z.of_nat (block_length w p).
Proof.
  unfold load_byte, block_length. destruct (heap w !! p.1) as [block|]; [|discriminate].
  destruct (Z.leb_spec 0 (p.2 + i)); [|discriminate].
  destruct (block !! Z.to_nat (p.2 + i)) eqn:Hl; [|discriminate].
  apply lookup_lt_Some in Hl. lia.
Qed.

(** The loop of [classify] reads the blob front to back: with nodes of
    positive size and more fuel than bytes left, it never runs out of fuel. *)
Lemma only_undefined_classify_loop fuel w node image_data image_step object_score :
  0 < sizeof_EpNodeDecision -> 0 < sizeof_EpNodeStage ->
  Z.of_nat (block_length w node) - node.2 < Z.of_nat fuel -> (0 < fuel)%nat ->
  only_undefined (classify_loop fuel w node image_data image_step object_score).
Proof.
  intros Hd Hs. revert node object_score.
  induction fuel as [|fuel IH]; intros node object_score Hfuel Hpos; [lia|].
  rewrite classify_loop_step.
  apply only_undefined_bind; [apply only_undefined_load_byte|]. intros tag Htag.
  apply load_byte_Done_bounds in Htag.
  destruct (tag =? 0).
  - apply only_undefined_bind; [apply only_undefined_decision_score|]. intros s _.
    apply IH; unfold block_length in *; simpl in *; lia.
  - apply only_undefined_bind; [apply only_undefined_load_int|]. intros threshold _.
    destruct (object_score <? threshold); [auto with undefined|]. cbv zeta.
    apply only_undefined_bind; [apply only_undefined_load_byte|]. intros tag' Htag'.
    apply load_byte_Done_bounds in Htag'.
    destruct (negb (tag' =? 0)); [auto with undefined|].
    apply only_undefined_bind; [apply only_undefined_decision_score|]. intros s _.
    apply IH; unfold block_length in *; simpl in *; lia.
Qed.

Lemma only_undefined_classify w node image_data image_step :
  0 < sizeof_EpNodeDecision -> 0 < sizeof_EpNodeStage ->
  only_undefined (classify w node image_data image_step).
Proof.
  intros Hd Hs. unfold classify.
  apply only_undefined_bind; [apply only_undefined_decision_score|]. intros s Hscore.
  destruct (Z.lt_ge_cases (node.2 + sizeof_EpNodeDecision) 0) as [Hneg|Hnn].
  - rewrite classify_loop_step.
    unfold load_byte. simpl. destruct (heap w !! node.1); [|auto with undefined].
    destruct (Z.leb_spec 0 (node.2 + sizeof_EpNodeDecision + 0)); [lia|].
    simpl. auto with undefined.
  - apply only_undefined_classify_loop; try done; [|lia].
    unfold block_length. simpl. lia.
Qed.

End Termination.

(** C5. [ep_classifier_check] accepts [ragged_blob], and on it [classify]
    has undefined behaviour for any image and any sampling position: it
    returns neither 0 nor 1, and it does not loop either.  Its second turn
    reads a Decision node that starts 20 bytes before the end of the blob,
    and the turn after that starts 24 bytes past the end. *)
Theorem classify_leaves_accepted_blob (w : World) (b : positive) (image_data : ptr)
    (image_step : Z) :
  heap w !! b = Some ragged_blob ->
  @ep_classifier_check example_header
    {| cls_data := Some (b, 0); cls_size := 76 |} w = Done 0 /\
  @classify example_header w (b, 12) image_data image_step = Stopped UndefinedBehaviour.
Proof.
  intros H. split.
  - unfold ep_classifier_check. cbn [cls_data cls_size].
    rewrite !load_int_ptr_add, !(load_int_block w (b, 0) _ b ragged_blob H eq_refl).
    vm_compute. reflexivity.
  - assert (forall r, @classify example_header w (b, 12) image_data image_step <> Done r)
      as Hleaves.
    { intros r. unfold classify.
      destruct (decision_score w image_data image_step (b, 12)) as [s|f]; [|discriminate].
      cbn [obind]. rewrite classify_loop_step.
      erewrite load_byte_block; [|exact H|reflexivity].
      change (block_byte ragged_blob _) with (@Done Z 0). cbn [obind].
      change (0 =? 0) with true. cbv iota.
      destruct (decision_score w image_data image_step _) as [s'|f']; [|discriminate].
      cbn [obind]. unfold block_length. cbn [fst]. rewrite H.
      change (length ragged_blob) with 76%nat. rewrite classify_loop_step.
      erewrite load_byte_block; [|exact H|reflexivity].
      change (block_byte ragged_blob _) with (@Stopped Z UndefinedBehaviour).
      discriminate. }
    destruct (@classify example_header w (b, 12) image_data image_step) as [r|f] eqn:Hc.
    + by destruct (Hleaves r).
    + f_equal.
      refine (@only_undefined_classify example_header w (b, 12) image_data image_step
                _ _ f Hc); reflexivity.
Qed.

(** C7. Saving the 2x2 image with the rows [1 2] and [3 4] and loading the
    file succeeds and gives an image of the same size whose second row is
    not [3 4] but whatever [malloc] left at bytes 8 and 9 of the new buffer:
    [ep_image_load] reads the pixels in one piece, although the step of the
    image it creates is 8.  The checksums differ accordingly. *)
Theorem image_round_trip_loses_rows (fill : nat -> byte) :
  let w := with_junk fill two_rows_world in
  exists w1 loaded w2,
    @ep_image_save example_header two_rows_image "image.bin" w = Done (ERR_SUCCESS, w1) /\
    @ep_image_load example_header "image.bin" (Some ERR_OTHER) w1
    = Done ((loaded, Some ERR_SUCCESS), w2) /\
    img_width loaded = 2 /\ img_height loaded = 2 /\ img_step loaded = 8 /\
    pixel w two_rows_image 0 1 = Done 3 /\
    pixel w2 loaded 0 1 = Done (Z.of_N (Byte.to_N (fill 8%nat))) /\
    ep_image_checksum two_rows_image w = Done 10 /\
    ep_image_checksum loaded w2
    = Done (3 + Z.of_N (Byte.to_N (fill 8%nat)) + Z.of_N (Byte.to_N (fill 9%nat))).
Proof.
  intros w. subst w. do 3 eexists.
  split; [vm_compute; reflexivity|].
  split; [vm_compute; reflexivity|].
  repeat split; vm_compute; reflexivity.
Qed.

(** C8. Loading an image file whose pixel payload is short does not return
    an empty image with [ERR_FILE_CONTENTS]: the branch that stores that code
    lacks its [return], so the run stores [ERR_SUCCESS] over it and closes the
    file a second time, which is undefined. *)
Theorem truncated_image_load_is_undefined :
  @ep_image_load example_header "image.bin" (Some ERR_OTHER) truncated_world
  = Stopped UndefinedBehaviour.
Proof. vm_compute. reflexivity. Qed.

Section HostCodes.
Context {hdr : Header}.

(** The host driver returns [ERR_ARGUMENT] for a classifier that fails the
    check and for an empty image, and for nothing else. *)
Lemma host_argument_error image classifier objects scan_mode w image' objects' w' :
  ep_detect_multi_scale_host image classifier objects scan_mode w
  = Done (ERR_ARGUMENT, image', objects', w') ->
  ep_classifier_check classifier w <> Done 0 \/ ep_image_is_empty image = true.
Proof.
  unfold ep_detect_multi_scale_host. intros H.
  apply obind_Done in H as (bad & Hbad & H). rewrite Hbad.
  destruct (Z.eqb_spec bad 0) as [->|Hne]; [|left; congruence].
  change (negb (0 =? 0)) with false in H. cbv iota in H.
  destruct (ep_image_is_empty image); [by right|].
  apply obind_Done in H as (meta & _ & H).
  apply obind_Done in H as (ww & _ & H).
  apply obind_Done in H as (wh & _ & H).
  destruct (too_small image ww wh); [discriminate|].
  destruct (ep_image_create _ _ w) as [i7 w1].
  destruct (ep_image_create _ _ w1) as [i6 w2].
  destruct (ep_image_create _ _ w2) as [i5 w3].
  apply obind_Done in H as ([[[[[s7 s6] s5] ox] oy] w4] & _ & H).
  apply obind_Done in H as ([[o objects1] w5] & _ & H).
  apply obind_Done in H as (w6 & _ & H). discriminate.
Qed.

End HostCodes.

(** C9. Called with the scan mode 3, which is none of the three modes, on a
    valid classifier and a 4x4 image, [ep_detect_multi_scale_host] does not
    return [ERR_ARGUMENT]: it scans a checkerboard and returns [ERR_SUCCESS]
    with two detections. *)
Theorem host_accepts_unsupported_scan_mode :
  3 <> @SCAN_FULL example_header /\ 3 <> @SCAN_EVEN example_header /\
  3 <> @SCAN_ODD example_header /\
  @ep_classifier_check example_header accept_all accept_all_world = Done 0 /\
  ep_image_is_empty small_image = false /\
  exists objects' w',
    @ep_detect_multi_scale_host example_header small_image accept_all
      ep_rect_list_create_empty 3 accept_all_world
    = Done (ERR_SUCCESS, ep_image_create_empty, objects', w') /\
    length (rects objects') = 2%nat.
Proof.
  repeat (split; [vm_compute; (reflexivity || discriminate)|]).
  do 2 eexists. split; vm_compute; reflexivity.
Qed.

(** C10. When [e_load_group] fails, [ep_detect_multi_scale_device] returns
    -1 with the caller's image empty, but the buffer of that image (block 2)
    has not been released: it is still allocated, with its pixels, and no
    image refers to it any more. *)
Theorem device_load_failure_leaks_image :
  exists w',
    @ep_detect_multi_scale_device example_header no_cores small_image accept_all
      ep_rect_list_create_empty (@SCAN_FULL example_header) 16 accept_all_world
    = Done (inr (-1), ep_image_create_empty, ep_rect_list_create_empty, w') /\
    img_data small_image = Some (2%positive, 0) /\
    heap w' !! 2%positive = Some small_pixels.
Proof. eexists. repeat split; vm_compute; reflexivity. Qed.

(** ** What the host driver does to the caller's image *)

Lemma scale21_result src out w out' w' :
  scale21 src out w = Done (out', w') ->
  out' = set_size out (Z.quot (img_width src) 2) (Z.quot (img_height src) 2).
Proof.
  unfold scale21. intros H. by apply obind_Done in H as (w1 & _ & [= <- <-]).
Qed.

Section HostFrame.
Context {hdr : Header}.

Lemma host_loop_keeps_buffers fuel classifier ww wh ox oy scan_mode o idx objects w
    o' objects' w' :
  host_loop fuel classifier ww wh ox oy scan_mode o idx objects w
  = Done (o', objects', w') ->
  img_data (img8 o') = img_data (img8 o).
Proof.
  revert o idx objects w. induction fuel as [|fuel IH]; intros o idx objects w H;
    [discriminate|].
  cbn [host_loop] in H.
  destruct (too_small (img8 o) ww wh); [by injection H as <- <- <-|].
  apply obind_Done in H as (s8 & _ & H).
  apply obind_Done in H as (objects1 & _ & H).
  destruct (too_small (img7 o) ww wh); [by injection H as <- <- <-|].
  apply obind_Done in H as (s7 & _ & H).
  apply obind_Done in H as (objects2 & _ & H).
  destruct (too_small (img6 o) ww wh); [by injection H as <- <- <-|].
  apply obind_Done in H as (s6 & _ & H).
  apply obind_Done in H as (objects3 & _ & H).
  destruct (too_small (img5 o) ww wh); [by injection H as <- <- <-|].
  apply obind_Done in H as (s5 & _ & H).
  apply obind_Done in H as (objects4 & _ & H).
  apply obind_Done in H as ([i8 w1] & Hs8 & H). apply scale21_result in Hs8 as ->.
  apply obind_Done in H as ([i7 w2] & _ & H).
  apply obind_Done in H as ([i6 w3] & _ & H).
  apply obind_Done in H as ([i5 w4] & _ & H).
  by apply IH in H.
Qed.

(** The host driver either returns early and leaves the image, the
    detections and the world as they were, or returns [ERR_SUCCESS] with the
    caller's image empty and the buffer of the image released. *)
Lemma host_consumes_image image classifier objects scan_mode w e image' objects' w' :
  ep_detect_multi_scale_host image classifier objects scan_mode w
  = Done (e, image', objects', w') ->
  (image' = image /\ objects' = objects /\ w' = w) \/
  (e = ERR_SUCCESS /\ image' = ep_image_create_empty /\
   exists q, img_data image = Some q /\ heap w' !! q.1 = None).
Proof.
  unfold ep_detect_multi_scale_host. intros H.
  apply obind_Done in H as (bad & _ & H).
  destruct (negb (bad =? 0)); [left; by injection H as <- <- <- <-|].
  destruct (ep_image_is_empty image) eqn:Hempty; [left; by injection H as <- <- <- <-|].
  apply obind_Done in H as (meta & _ & H).
  apply obind_Done in H as (ww & _ & H).
  apply obind_Done in H as (wh & _ & H).
  destruct (too_small image ww wh); [left; by injection H as <- <- <- <-|].
  destruct (ep_image_create _ _ w) as [i7 w1].
  destruct (ep_image_create _ _ w1) as [i6 w2].
  destruct (ep_image_create _ _ w2) as [i5 w3].
  apply obind_Done in H as ([[[[[s7 s6] s5] ox] oy] w4] & _ & H).
  apply obind_Done in H as ([[o objects1] w5] & Hloop & H).
  apply host_loop_keeps_buffers in Hloop. cbn [img8] in Hloop.
  apply obind_Done in H as (w6 & Hrel & [= <- <- <- <-]).
  right. split; [done|]. split; [done|].
  unfold release_octave in Hrel.
  apply obind_Done in Hrel as ([? wa] & _ & Hrel).
  apply obind_Done in Hrel as ([? wb] & _ & Hrel).
  apply obind_Done in Hrel as ([? wc] & _ & Hrel).
  apply obind_Done in Hrel as ([? wd] & Hfree & [= <-]).
  unfold ep_image_release in Hfree.
  apply obind_Done in Hfree as (wf & Hfree & [= _ <-]).
  rewrite Hloop in Hfree. unfold free in Hfree.
  unfold ep_image_is_empty in Hempty.
  destruct (img_data image) as [[b off]|]; [|discriminate].
  exists (b, off). split; [done|].
  destruct (heap _ !! b); [|discriminate].
  destruct (off =? 0); [|discriminate].
  injection Hfree as <-. simpl. apply lookup_delete_eq.
Qed.

End HostFrame.

(** ** The theorems at concrete inputs *)



(** C5 at the world that holds [ragged_blob] in block 1. *)
Lemma classify_leaves_accepted_blob_witness :
  heap ragged_world !! 1%positive = Some ragged_blob /\
  @ep_classifier_check example_header ragged ragged_world = Done 0 /\
  @classify example_header ragged_world (1%positive, 12) (2%positive, 9) 8
  = Stopped UndefinedBehaviour.
Proof.
  assert (heap ragged_world !! 1%positive = Some ragged_blob) as H
    by (vm_compute; reflexivity).
  split; [exact H|].
  exact (classify_leaves_accepted_blob ragged_world 1%positive (2%positive, 9) 8 H).
Defined.

(** C6 at the well-formed classifier. *)
Lemma ep_classifier_check_codes_witness :
  @layout_ok example_header /\ dereferencable accept_all_world accept_all /\
  @ep_classifier_check example_header accept_all accept_all_world
  = Done (first_violation (@violations example_header accept_all_world accept_all)) /\
  (@ep_classifier_check example_header accept_all accept_all_world = Done 0 <->
   @structurally_valid example_header accept_all_world accept_all).
Proof.
  assert (@layout_ok example_header) as Hl by (repeat split; vm_compute; discriminate).
  assert (dereferencable accept_all_world accept_all) as Hd.
  { intros p [= <-]. exists accept_all_blob.
    split; [vm_compute; reflexivity|]. split; vm_compute; discriminate. }
  split; [exact Hl|]. split; [exact Hd|].
  exact (@ep_classifier_check_codes example_header accept_all_world accept_all Hl Hd).
Defined.

(** ** The levels an image has *)

Section CheckedWindow.
Context {hdr : Header}.

(** A classifier that passes the check has a window of 3x3 pixels at
    least. *)
Lemma checked_window classifier w p :
  ep_classifier_check classifier w = Done 0 -> cls_data classifier = Some p ->
  3 <= int_at w p offsetof_window_width /\ 3 <= int_at w p offsetof_window_height.
Proof.
  unfold ep_classifier_check. intros H Hp. rewrite Hp in H.
  destruct (_ <? _); [discriminate|].
  apply obind_Done in H as (tag & _ & H).
  destruct (negb (tag =? NODE_META)); [discriminate|].
  apply obind_Done in H as (wh & Hwh & H). apply load_int_Done_int_at in Hwh.
  apply obind_Done in H as (small & Hsmall & H).
  destruct small; [discriminate|].
  destruct (Z.ltb_spec wh 3) as [|Hh]; [discriminate|].
  apply obind_Done in Hsmall as (ww & Hww & [= Hsmall]).
  apply load_int_Done_int_at in Hww. rewrite Hww, Hwh.
  apply Z.ltb_ge in Hsmall. lia.
Qed.

End CheckedWindow.

Lemma quot_nonpos a b : a <= 0 -> 0 < b -> Z.quot a b <= 0.
Proof.
  intros Ha Hb.
  assert (Z.quot a b = - Z.quot (- a) b) as ->
    by (rewrite <- Z.quot_opp_l by lia; f_equal; lia).
  assert (0 <= Z.quot (- a) b) by (apply Z.quot_pos; lia). lia.
Qed.

(** A level that holds a window of three pixels in both directions belongs
    to an image of at least [9 * 4 ^ (i / 4)] pixels. *)
Lemma level_index_bound W H i :
  0 <= i -> W * H < 2 ^ 31 -> 3 <= level_size W i -> 3 <= level_size H i -> i < 112.
Proof.
  intros Hi Hpix HW HH.
  destruct (Z.lt_ge_cases i 112) as [|Hbig]; [done|exfalso].
  assert (28 <= i / 4) as Hm by (apply Z.div_le_lower_bound; lia).
  assert (2 ^ 28 <= 2 ^ (i / 4)) as Hp by (apply Z.pow_le_mono_r; lia).
  change (2 ^ 28) with 268435456 in Hp. change (2 ^ 31) with 2147483648 in Hpix.
  assert (forall S, 3 <= level_size S i -> 3 * 2 ^ (i / 4) <= S) as Hsize.
  { intros S HS. unfold level_size in HS.
    set (A := if i mod 4 =? 0 then S else Z.quot S 8 * (8 - i mod 4)) in *.
    assert (0 < 2 ^ (i / 4)) as Hpos by lia.
    assert (0 <= A) as HA.
    { destruct (Z.lt_ge_cases A 0) as [Hneg|]; [|done].
      pose proof (quot_nonpos A (2 ^ (i / 4)) ltac:(lia) Hpos). lia. }
    assert (3 * 2 ^ (i / 4) <= A) as HA3.
    { pose proof (Z.mul_quot_le A (2 ^ (i / 4)) HA ltac:(lia)). nia. }
    assert (A <= S); [|lia]. subst A.
    destruct (i mod 4 =? 0) eqn:Hj; [lia|].
    pose proof (Z.mod_pos_bound i 4 ltac:(lia)) as Hmod.
    apply Z.eqb_neq in Hj.
    destruct (Z.lt_ge_cases S 0) as [Hneg|Hnn].
    - exfalso. pose proof (quot_nonpos S 8 ltac:(lia) ltac:(lia)). nia.
    - pose proof (Z.mul_quot_le S 8 Hnn ltac:(lia)).
      assert (0 <= Z.quot S 8) by (apply Z.quot_pos; lia). nia. }
  pose proof (Hsize W HW). pose proof (Hsize H HH). nia.
Qed.




Section HostTermination.
Context {hdr : Header}.
Hypothesis decision_size : 0 < sizeof_EpNodeDecision.
Hypothesis stage_size : 0 < sizeof_EpNodeStage.

Lemma only_undefined_scan_windows w image node scale ox oy ww wh positions objects :
  only_undefined (scan_windows w image node scale ox oy ww wh positions objects).
Proof using decision_size stage_size.
  revert objects. induction positions as [|[x y] rest IH]; intros objects;
    cbn [scan_windows]; [auto with undefined|].
  apply only_undefined_bind; [apply only_undefined_deref|]. intros image_data _.
  apply only_undefined_bind; [by apply only_undefined_classify|]. intros accepted _.
  apply IH.
Qed.

Lemma only_undefined_detect_single_scale_host w image classifier objects scale ox oy
    scan_mode :
  only_undefined
    (detect_single_scale_host w image classifier objects scale ox oy scan_mode).
Proof using decision_size stage_size.
  unfold detect_single_scale_host.
  apply only_undefined_bind; [apply only_undefined_deref|]. intros node _.
  apply only_undefined_bind; [apply only_undefined_load_int|]. intros ww _.
  apply only_undefined_bind; [apply only_undefined_load_int|]. intros wh _.
  apply only_undefined_scan_windows.
Qed.

Lemma only_undefined_scale21 src out w : only_undefined (scale21 src out w).
Proof.
  unfold scale21.
  apply only_undefined_bind; [|intros; auto with undefined].
  apply only_undefined_for_loop. intros y w1.
  apply only_undefined_for_loop. intros x w2.
  apply only_undefined_bind; [apply only_undefined_deref|]. intros s _.
  apply only_undefined_bind; [apply only_undefined_deref|]. intros o _.
  cbv zeta.
  repeat (apply only_undefined_bind; [apply only_undefined_load_byte|intros ? _]).
  apply only_undefined_store_byte.
Qed.

Lemma only_undefined_store_block out out_step y x blk entries w :
  only_undefined (store_block out out_step y x blk entries w).
Proof.
  revert w. induction entries as [|[[[[r c] terms] rounding] divisor] rest IH];
    intros w; cbn [store_block]; [auto with undefined|].
  apply only_undefined_bind; [apply only_undefined_deref|]. intros p _.
  apply only_undefined_bind; [apply only_undefined_store_byte|]. intros w' _.
  apply IH.
Qed.

Lemma only_undefined_read_block w src src_step y8 x8 :
  only_undefined (read_block w src src_step y8 x8).
Proof.
  unfold read_block.
  apply only_undefined_bind; [apply only_undefined_deref|]. intros p _.
  apply only_undefined_for_loop. intros k acc.
  apply only_undefined_bind; [apply only_undefined_load_byte|].
  intros; auto with undefined.
Qed.

Lemma only_undefined_scale8765 src8 out7 out6 out5 w :
  only_undefined (scale8765 src8 out7 out6 out5 w).
Proof.
  unfold scale8765.
  apply only_undefined_bind; [|intros; auto with undefined].
  apply only_undefined_for_loop. intros block_y w1.
  apply only_undefined_for_loop. intros block_x w2.
  apply only_undefined_bind; [apply only_undefined_read_block|]. intros blk _.
  apply only_undefined_bind; [apply only_undefined_store_block|]. intros w3 _.
  apply only_undefined_bind; [apply only_undefined_store_block|]. intros w4 _.
  apply only_undefined_store_block.
Qed.

Lemma only_undefined_ep_image_release image w :
  only_undefined (ep_image_release image w).
Proof.
  unfold ep_image_release.
  apply only_undefined_bind; [apply only_undefined_free|]. intros; auto with undefined.
Qed.

Lemma only_undefined_release_octave o w : only_undefined (release_octave o w).
Proof.
  unfold release_octave.
  repeat (apply only_undefined_bind;
          [apply only_undefined_ep_image_release|intros [? ?] _]).
  auto with undefined.
Qed.

Lemma only_undefined_ep_classifier_check classifier w :
  only_undefined (ep_classifier_check classifier w).
Proof.
  unfold ep_classifier_check. destruct (cls_data classifier); [|auto with undefined].
  destruct (_ <? _); [auto with undefined|].
  apply only_undefined_bind; [apply only_undefined_load_int|]. intros tag _.
  destruct (negb _); [auto with undefined|].
  apply only_undefined_bind; [apply only_undefined_load_int|]. intros wh _.
  apply only_undefined_bind.
  { destruct (_ <? _); [auto with undefined|].
    apply only_undefined_bind; [apply only_undefined_load_int|].
    intros; auto with undefined. }
  intros small _. destruct small; [auto with undefined|]. cbv zeta.
  apply only_undefined_bind; [apply only_undefined_load_int|]. intros tag2 _.
  destruct (negb _); [auto with undefined|].
  apply only_undefined_bind; [apply only_undefined_load_int|]. intros tag3 _.
  destruct (negb _); [auto with undefined|].
  apply only_undefined_bind; [apply only_undefined_load_int|]. intros tag4 _.
  destruct (negb _); auto with undefined.
Qed.

Lemma only_undefined_convert_image_index_to_scale i :
  only_undefined (convert_image_index_to_scale i).
Proof.
  unfold convert_image_index_to_scale, shl_int.
  destruct (_ && _); cbn [obind]; auto with undefined.
Qed.

(** An octave halves every turn: with a window at least one pixel wide and
    more fuel than the image is wide, the loop of the host driver never runs
    out of fuel. *)
Lemma only_undefined_host_loop fuel classifier ww wh ox oy scan_mode o idx objects w :
  1 <= ww -> (0 < fuel)%nat -> img_width (img8 o) < Z.of_nat fuel ->
  only_undefined (host_loop fuel classifier ww wh ox oy scan_mode o idx objects w).
Proof using decision_size stage_size.
  intros Hww. revert o idx objects w.
  induction fuel as [|fuel IH]; intros o idx objects w Hpos Hfuel; [lia|].
  cbn [host_loop].
  destruct (too_small (img8 o) ww wh) eqn:Hsmall; [auto with undefined|].
  apply only_undefined_bind;
    [apply only_undefined_convert_image_index_to_scale|]. intros ? _.
  apply only_undefined_bind; [apply only_undefined_detect_single_scale_host|].
  intros objects1 _.
  destruct (too_small (img7 o) ww wh); [auto with undefined|].
  apply only_undefined_bind;
    [apply only_undefined_convert_image_index_to_scale|]. intros ? _.
  apply only_undefined_bind; [apply only_undefined_detect_single_scale_host|].
  intros objects2 _.
  destruct (too_small (img6 o) ww wh); [auto with undefined|].
  apply only_undefined_bind;
    [apply only_undefined_convert_image_index_to_scale|]. intros ? _.
  apply only_undefined_bind; [apply only_undefined_detect_single_scale_host|].
  intros objects3 _.
  destruct (too_small (img5 o) ww wh); [auto with undefined|].
  apply only_undefined_bind;
    [apply only_undefined_convert_image_index_to_scale|]. intros ? _.
  apply only_undefined_bind; [apply only_undefined_detect_single_scale_host|].
  intros objects4 _.
  apply only_undefined_bind; [apply only_undefined_scale21|]. intros [i8 w1] H8.
  apply only_undefined_bind; [apply only_undefined_scale21|]. intros [i7 w2] _.
  apply only_undefined_bind; [apply only_undefined_scale21|]. intros [i6 w3] _.
  apply only_undefined_bind; [apply only_undefined_scale21|]. intros [i5 w4] _.
  apply scale21_result in H8. subst i8.
  unfold too_small in Hsmall. apply orb_false_iff in Hsmall as [Hw _].
  apply Z.ltb_ge in Hw.
  assert (Z.quot (img_width (img8 o)) 2 < img_width (img8 o))
    by (apply Z.quot_lt; lia).
  apply IH; cbn [img8 set_size img_width]; lia.
Qed.

(** The host driver returns or stops for undefined behaviour: none of its
    loops goes on for ever, and it has no assertion to fail. *)
Lemma only_undefined_ep_detect_multi_scale_host image classifier objects scan_mode w :
  only_undefined (ep_detect_multi_scale_host image classifier objects scan_mode w).
Proof using decision_size stage_size.
  unfold ep_detect_multi_scale_host.
  apply only_undefined_bind; [apply only_undefined_ep_classifier_check|].
  intros bad Hbad.
  destruct (Z.eqb_spec bad 0) as [->|]; cbn [negb]; [|auto with undefined].
  destruct (ep_image_is_empty image); [auto with undefined|].
  apply only_undefined_bind; [apply only_undefined_deref|]. intros meta Hmeta.
  assert (cls_data classifier = Some meta) as Hp
    by (destruct (cls_data classifier); [by injection Hmeta as ->|discriminate]).
  destruct (checked_window _ _ _ Hbad Hp) as [Hww _].
  apply only_undefined_bind; [apply only_undefined_load_int|]. intros ww Hload.
  apply load_int_Done_int_at in Hload. rewrite Hload in Hww.
  apply only_undefined_bind; [apply only_undefined_load_int|]. intros wh _.
  destruct (too_small image ww wh); [auto with undefined|]. cbv zeta.
  destruct (ep_image_create _ _ w) as [i7 w1].
  destruct (ep_image_create _ _ w1) as [i6 w2].
  destruct (ep_image_create _ _ w2) as [i5 w3].
  apply only_undefined_bind; [apply only_undefined_scale8765|].
  intros [[[[[o7 o6] o5] ox] oy] w4] _.
  apply only_undefined_bind.
  { apply only_undefined_host_loop; [lia|lia|]. cbn [img8]. lia. }
  intros [[o objects'] w5] _.
  apply only_undefined_bind; [apply only_undefined_release_octave|].
  intros; auto with undefined.
Qed.

End HostTermination.

(** * Further properties *)

(** ** Integer helpers *)

(** X1. For a non-negative [x] and a positive [y] whose sum [x + y - 1] fits
    an [int], [divide_up x y] is the least number of [y]s that cover [x]. *)
Theorem divide_up_is_ceiling (x y : Z) :
  0 <= x -> 0 < y -> x + y - 1 < 2 ^ 31 ->
  y * (divide_up x y - 1) < x <= y * divide_up x y.
Proof.
  intros Hx Hy Hfits. unfold divide_up.
  rewrite wrap32_small, Z.quot_div_nonneg by lia.
  pose proof (Z.div_mod (x + y - 1) y ltac:(lia)).
  pose proof (Z.mod_pos_bound (x + y - 1) y Hy). lia.
Qed.

Lemma divide_up_is_ceiling_witness :
  0 <= 17 /\ 0 < 5 /\ 17 + 5 - 1 < 2 ^ 31 /\
  5 * (divide_up 17 5 - 1) < 17 <= 5 * divide_up 17 5.
Proof.
  split; [lia|]. split; [lia|]. split; [lia|].
  apply (divide_up_is_ceiling 17 5); lia.
Defined.

(** X2. For a non-negative [x] and a positive [y] whose sum [x + y / 2] fits
    an [int], [divide_round x y] is a multiple count nearest to [x / y]: it
    misses [x] by at most half of [y]. *)
Theorem divide_round_is_nearest (x y : Z) :
  0 <= x -> 0 < y -> x + Z.quot y 2 < 2 ^ 31 ->
  2 * Z.abs (x - y * divide_round x y) <= y.
Proof.
  intros Hx Hy Hfits. unfold divide_round.
  pose proof (half_bounds y Hy) as Hh.
  assert (y - 1 <= 2 * Z.quot y 2 <= y) as Hhalf.
  { rewrite Z.quot_div_nonneg by lia.
    pose proof (Z.div_mod y 2 ltac:(lia)). pose proof (Z.mod_pos_bound y 2 ltac:(lia)).
    lia. }
  rewrite wrap32_small, Z.quot_div_nonneg by lia.
  pose proof (Z.div_mod (x + Z.quot y 2) y ltac:(lia)).
  pose proof (Z.mod_pos_bound (x + Z.quot y 2) y Hy). lia.
Qed.

Lemma divide_round_is_nearest_witness :
  0 <= 17 /\ 0 < 5 /\ 17 + Z.quot 5 2 < 2 ^ 31 /\
  2 * Z.abs (17 - 5 * divide_round 17 5) <= 5.
Proof.
  split; [lia|]. split; [lia|]. split; [vm_compute; reflexivity|].
  apply (divide_round_is_nearest 17 5); [lia|lia|vm_compute; reflexivity].
Defined.

Lemma floor_8n z : z - 8 < 8 * (z / 8) <= z.
Proof.
  pose proof (Z.div_mod z 8 ltac:(lia)). pose proof (Z.mod_pos_bound z 8 ltac:(lia)).
  lia.
Qed.

Lemma round_up_to_8n_bounds (x : Z) :
  - 2 ^ 31 <= x + 7 < 2 ^ 31 -> x <= round_up_to_8n x < x + 8.
Proof.
  intros Hx. unfold round_up_to_8n. rewrite wrap32_small, land_m8 by done.
  pose proof (floor_8n (x + 7)). lia.
Qed.

(** X3. The three roundings to the 8-pixel grid give multiples of 8 for
    every argument.  [round_down_to_8n] gives the nearest one at or below;
    where [x + 7] fits an [int], [round_up_to_8n] gives the nearest one at or
    above, and where [x + 4] fits, [round_to_8n] gives the nearest one, a tie
    going up; negative arguments are rounded the same way. *)
Theorem round_8n_on_the_grid (x : Z) :
  (round_down_to_8n x mod 8 = 0 /\ round_up_to_8n x mod 8 = 0 /\
   round_to_8n x mod 8 = 0) /\
  x - 8 < round_down_to_8n x <= x /\
  (- 2 ^ 31 <= x + 7 < 2 ^ 31 -> x <= round_up_to_8n x < x + 8) /\
  (- 2 ^ 31 <= x + 4 < 2 ^ 31 -> x - 4 < round_to_8n x <= x + 4).
Proof.
  assert (forall z, (8 * (z / 8)) mod 8 = 0) as Hgrid
    by (intros z; rewrite Z.mul_comm; apply Z.mod_mul; lia).
  unfold round_down_to_8n, round_up_to_8n, round_to_8n. rewrite !land_m8.
  split; [by rewrite !Hgrid|]. split; [apply floor_8n|]. split.
  - intros Hx. rewrite wrap32_small by done. pose proof (floor_8n (x + 7)). lia.
  - intros Hx. rewrite wrap32_small by done. pose proof (floor_8n (x + 4)). lia.
Qed.

(** X3 at -13, which the three roundings take to -16, -8 and -16. *)
Lemma round_8n_on_the_grid_witness :
  round_down_to_8n (-13) = -16 /\ round_up_to_8n (-13) = -8 /\
  round_to_8n (-13) = -16 /\
  -13 <= round_up_to_8n (-13) < -13 + 8 /\
  -13 - 4 < round_to_8n (-13) <= -13 + 4.
Proof.
  split; [reflexivity|]. split; [reflexivity|]. split; [reflexivity|].
  destruct (round_8n_on_the_grid (-13)) as (_ & _ & Hup & Hnear).
  split; [apply Hup|apply Hnear]; lia.
Defined.

(** ** Bytes in memory *)

Lemma load_byte_byte_at w p i :
  load_byte w p i = match byte_at w p i with
                    | Some c => Done (byte_value c)
                    | None => Stopped UndefinedBehaviour
                    end.
Proof.
  unfold load_byte, byte_at, byte_value. destruct (heap w !! p.1); [|done].
  destruct (0 <=? p.2 + i); [|done]. by destruct (_ !! _).
Qed.

Lemma byte_at_ptr_add w p a i : byte_at w (ptr_add p a) i = byte_at w p (a + i).
Proof. unfold byte_at, ptr_add. cbn [fst snd]. by rewrite Z.add_assoc. Qed.

Lemma byte_at_same_heap w w' p i : heap w' !! p.1 = heap w !! p.1 ->
  byte_at w' p i = byte_at w p i.
Proof. unfold byte_at. by intros ->. Qed.

Lemma pixel_byte_at w image p x y :
  img_data image = Some p ->
  pixel w image x y = match byte_at w p (y * img_step image + x) with
                      | Some c => Done (byte_value c)
                      | None => Stopped UndefinedBehaviour
                      end.
Proof. intros Hp. unfold pixel. rewrite Hp. cbn [deref obind]. apply load_byte_byte_at. Qed.

Lemma malloc_Some n w p w' :
  malloc n w = (Some p, w') ->
  p = (next_block w, 0) /\ 0 <= n /\
  heap w' = <[next_block w := map (junk w) (seq 0 (Z.to_nat n))]> (heap w) /\
  next_block w' = Pos.succ (next_block w) /\ alloc_limit w' = alloc_limit w /\
  files w' = files w.
Proof.
  unfold malloc. destruct (Z.leb_spec 0 n); cbn [andb]; [|discriminate].
  destruct (n <=? alloc_limit w); [|discriminate]. by intros [= <- <-].
Qed.

Lemma malloc_None n w w' : malloc n w = (None, w') -> w' = w.
Proof. unfold malloc. destruct (_ && _); [discriminate|]. by intros [= <-]. Qed.

Lemma malloc_byte_at n w p w' i :
  malloc n w = (Some p, w') -> 0 <= i < n -> exists c, byte_at w' p i = Some c.
Proof.
  intros H Hi. apply malloc_Some in H as (-> & Hn & Hheap & _).
  unfold byte_at. cbn [fst snd]. rewrite Hheap, lookup_insert_eq.
  destruct (Z.leb_spec 0 (0 + i)); [|lia].
  apply lookup_lt_is_Some_2. rewrite length_map, length_seq. lia.
Qed.

(** ** Image buffers *)

(** X4. [ep_image_create] returns the empty image and changes nothing when
    the allocation fails; otherwise the image has the size asked for, a
    step that is the width rounded up to the 8-pixel grid and a new buffer
    of as many bytes as the [int] product of step and height gives, and the
    blocks that were there are as they were.  Where the rounding and the
    product fit an [int], every pixel of the image can be read. *)
Theorem ep_image_create_allocates (width height : Z) (w : World) (image : EpImage)
    (w' : World) :
  ep_image_create width height w = (image, w') ->
  (image = ep_image_create_empty /\ w' = w) \/
  (exists p block,
     img_data image = Some p /\ p = (next_block w, 0) /\
     img_width image = width /\ img_height image = height /\
     img_step image = round_up_to_8n width /\
     heap w' !! next_block w = Some block /\
     Z.of_nat (length block) = wrap32 (round_up_to_8n width * height) /\
     (- 2 ^ 31 <= width + 7 < 2 ^ 31 -> round_up_to_8n width * height < 2 ^ 31 ->
      forall x y, 0 <= x < width -> 0 <= y < height ->
                  exists v, pixel w' image x y = Done v) /\
     (forall b, b <> next_block w -> heap w' !! b = heap w !! b)).
Proof.
  unfold ep_image_create. intros H.
  destruct (malloc (wrap32 (round_up_to_8n width * height)) w) as [[p|] w1] eqn:Hm.
  - right. injection H as <- <-.
    pose proof (malloc_Some _ _ _ _ Hm) as (Hp & Hn & Hheap & _).
    exists p, (map (junk w) (seq 0 (Z.to_nat (wrap32 (round_up_to_8n width * height))))).
    split; [done|]. split; [done|]. split; [done|]. split; [done|]. split; [done|].
    split; [by rewrite Hheap, lookup_insert_eq|].
    split; [rewrite length_map, length_seq; lia|]. split.
    + intros Hwidth Hfits x y Hx Hy. erewrite pixel_byte_at by reflexivity.
      cbn [img_step].
      pose proof (round_up_to_8n_bounds width Hwidth) as Hup.
      rewrite wrap32_small in Hm by nia.
      destruct (malloc_byte_at _ _ _ _ (y * round_up_to_8n width + x) Hm) as [c ->];
        [nia|by eexists].
    + intros b Hb. by rewrite Hheap, lookup_insert_ne.
  - left. injection H as <- <-. by rewrite (malloc_None _ _ _ Hm).
Qed.

Lemma ep_image_create_allocates_witness :
  exists image w',
    ep_image_create 4 4 accept_all_world = (image, w') /\
    ((image = ep_image_create_empty /\ w' = accept_all_world) \/
     (exists p block,
        img_data image = Some p /\ p = (next_block accept_all_world, 0) /\
        img_width image = 4 /\ img_height image = 4 /\
        img_step image = round_up_to_8n 4 /\
        heap w' !! next_block accept_all_world = Some block /\
        Z.of_nat (length block) = wrap32 (round_up_to_8n 4 * 4) /\
        (- 2 ^ 31 <= 4 + 7 < 2 ^ 31 -> round_up_to_8n 4 * 4 < 2 ^ 31 ->
         forall x y, 0 <= x < 4 -> 0 <= y < 4 -> exists v, pixel w' image x y = Done v) /\
        (forall b, b <> next_block accept_all_world ->
                   heap w' !! b = heap accept_all_world !! b))).
Proof.
  eexists _, _. split; [reflexivity|].
  exact (ep_image_create_allocates 4 4 accept_all_world _ _ eq_refl).
Defined.

(** X5. In a world whose next block is fresh, an image that is created and
    then released leaves the heap as it was, and releasing the released
    image again does nothing. *)
Theorem ep_image_create_release_restores (width height : Z) (w : World)
    (image : EpImage) (w1 : World) :
  heap w !! next_block w = None ->
  ep_image_create width height w = (image, w1) ->
  exists image' w2,
    ep_image_release image w1 = Done (image', w2) /\
    ep_image_is_empty image' = true /\ heap w2 = heap w /\
    ep_image_release image' w2 = Done (image', w2).
Proof.
  intros Hfresh H. unfold ep_image_create in H.
  destruct (malloc (wrap32 (round_up_to_8n width * height)) w) as [[p|] w'] eqn:Hm.
  - injection H as <- <-.
    apply malloc_Some in Hm as (-> & _ & Hheap & _).
    unfold ep_image_release, free. cbn [img_data]. rewrite Hheap, lookup_insert_eq.
    cbn [obind]. change (0 =? 0) with true. cbv iota. cbn [obind].
    eexists _, _. split; [reflexivity|]. split; [reflexivity|].
    split; [|reflexivity].
    cbn [set_heap heap]. by apply delete_insert_id.
  - injection H as <- <-. apply malloc_None in Hm as ->.
    exists ep_image_create_empty, w. by repeat split.
Qed.

Lemma ep_image_create_release_restores_witness :
  exists image w1,
    heap accept_all_world !! next_block accept_all_world = None /\
    ep_image_create 4 4 accept_all_world = (image, w1) /\
    exists image' w2,
      ep_image_release image w1 = Done (image', w2) /\
      ep_image_is_empty image' = true /\ heap w2 = heap accept_all_world /\
      ep_image_release image' w2 = Done (image', w2).
Proof.
  eexists _, _. split; [vm_compute; reflexivity|]. split; [reflexivity|].
  refine (ep_image_create_release_restores 4 4 accept_all_world _ _ _ eq_refl).
  vm_compute. reflexivity.
Defined.

(** X7. A subimage is a view: its pixel [(i, j)] is the pixel
    [(x + i, y + j)] of the image in every world, and the subimage of a
    subimage is the subimage at the sum of the two corners. *)
Theorem ep_subimage_get_composes (image : EpImage) (x y width height : Z)
    (x' y' width' height' : Z) (sub sub' : EpImage) :
  ep_subimage_get image x y width height = Done sub ->
  ep_subimage_get sub x' y' width' height' = Done sub' ->
  ep_subimage_get image (x + x') (y + y') width' height' = Done sub' /\
  forall w i j, pixel w sub i j = pixel w image (x + i) (y + j).
Proof.
  unfold ep_subimage_get. intros H H'.
  destruct (img_data image) as [p|] eqn:Hp; [|discriminate].
  cbn [deref obind] in *. injection H as <-. cbn [img_data img_step deref obind] in H'.
  injection H' as <-. split.
  - replace (ptr_add p ((y + y') * img_step image + (x + x')))
      with (ptr_add (ptr_add p (y * img_step image + x)) (y' * img_step image + x'));
      [done|].
    unfold ptr_add. cbn [fst snd]. f_equal. lia.
  - intros w i j. unfold pixel. rewrite Hp. cbn [img_data img_step deref obind].
    rewrite !load_byte_byte_at, byte_at_ptr_add.
    by replace ((y + j) * img_step image + (x + i))
      with (y * img_step image + x + (j * img_step image + i)) by lia.
Qed.

Lemma ep_subimage_get_composes_witness :
  exists sub sub',
    ep_subimage_get small_image 1 1 3 3 = Done sub /\
    ep_subimage_get sub 1 0 2 2 = Done sub' /\
    ep_subimage_get small_image (1 + 1) (1 + 0) 2 2 = Done sub' /\
    forall w i j, pixel w sub i j = pixel w small_image (1 + i) (1 + j).
Proof.
  eexists _, _. split; [reflexivity|]. split; [reflexivity|].
  exact (ep_subimage_get_composes small_image 1 1 3 3 1 0 2 2 _ _ eq_refl eq_refl).
Defined.

(** ** Sums *)

Lemma sum_over_0 f start : sum_over f start 0 = 0.
Proof. reflexivity. Qed.

Lemma sum_over_S f start n :
  sum_over f start (S n) = f start + sum_over f (start + 1) n.
Proof.
  unfold sum_over. rewrite seqZ_cons by lia. cbn [map foldr].
  by replace (Z.pred (Z.of_nat (S n))) with (Z.of_nat n) by lia.
Qed.

Lemma sum_over_app f start n m :
  sum_over f start (n + m) = sum_over f start n + sum_over f (start + Z.of_nat n) m.
Proof.
  revert start. induction n as [|n IH]; intros start.
  - rewrite sum_over_0. cbn [Nat.add]. by replace (start + Z.of_nat 0) with start by lia.
  - cbn [Nat.add]. rewrite !sum_over_S, IH.
    replace (start + 1 + Z.of_nat n) with (start + Z.of_nat (S n)) by lia. lia.
Qed.

Lemma sum_over_ext f g start n :
  (forall i, start <= i < start + Z.of_nat n -> f i = g i) ->
  sum_over f start n = sum_over g start n.
Proof.
  revert start. induction n as [|n IH]; intros start H; [done|].
  rewrite !sum_over_S, H by lia. f_equal. apply IH. intros i Hi. apply H. lia.
Qed.

Lemma sum_over_shift f a start n :
  sum_over (fun i => f (a + i)) start n = sum_over f (a + start) n.
Proof.
  revert start. induction n as [|n IH]; intros start; [done|].
  rewrite !sum_over_S, IH. by rewrite Z.add_assoc.
Qed.

(** A sum over [h] rows of [w] is the sum of the sums of the rows. *)
Lemma sum_over_snoc f start n :
  sum_over f start (S n) = sum_over f start n + f (start + Z.of_nat n).
Proof.
  replace (S n) with (n + 1)%nat by lia.
  rewrite sum_over_app, sum_over_S, sum_over_0. lia.
Qed.

Lemma sum_over_rows v w h :
  sum_over v 0 (h * w) =
  sum_over (fun y => sum_over (fun x => v (y * Z.of_nat w + x)) 0 w) 0 h.
Proof.
  induction h as [|h IH]; [done|].
  replace (S h * w)%nat with (h * w + w)%nat by lia.
  rewrite sum_over_app, IH, sum_over_snoc, sum_over_shift. do 2 f_equal. lia.
Qed.

(** A loop that adds [g i] in turn [i] adds their sum. *)
Lemma for_loop_sum (body : Z -> Z -> outcome Z) g n start r :
  (forall i t, start <= i < start + Z.of_nat n -> body i t = Done (t + g i)) ->
  for_loop n start body r = Done (r + sum_over g start n).
Proof.
  revert start r. induction n as [|n IH]; intros start r H.
  - cbn [for_loop]. rewrite sum_over_0. f_equal. lia.
  - cbn [for_loop]. rewrite H by lia. cbn [obind].
    rewrite IH by (intros i t Hi; apply H; lia). rewrite sum_over_S. f_equal. lia.
Qed.

(** ** Checksums *)

(** The checksum of an image whose pixels can all be read is the sum of its
    pixels, whatever its step. *)
Lemma ep_image_checksum_sum w image :
  ep_image_is_empty image = false -> 0 <= img_width image -> 0 <= img_height image ->
  (forall x y, 0 <= x < img_width image -> 0 <= y < img_height image ->
               exists v, pixel w image x y = Done v) ->
  ep_image_checksum image w =
  Done (sum_over (fun y => sum_over (fun x => pixel_value w image x y) 0
                             (Z.to_nat (img_width image)))
                 0 (Z.to_nat (img_height image))).
Proof.
  intros Hne Hw Hh Hpix. unfold ep_image_checksum, ep_image_is_empty in *.
  destruct (img_data image) as [p|] eqn:Hp; [|discriminate].
  assert (forall x y, 0 <= x < img_width image -> 0 <= y < img_height image ->
            load_byte w p (y * img_step image + x) = Done (pixel_value w image x y))
    as Hval.
  { intros x y Hx Hy. destruct (Hpix x y Hx Hy) as [v Hv].
    unfold pixel_value. rewrite Hv. unfold pixel in Hv. by rewrite Hp in Hv. }
  destruct (Z.eqb_spec (img_step image) (img_width image)) as [Hstep|Hstep].
  - unfold sum_bytes.
    replace (Z.to_nat (img_width image * img_height image))
      with (Z.to_nat (img_height image) * Z.to_nat (img_width image))%nat by lia.
    rewrite (for_loop_sum _ (fun i => pixel_value w image (i mod img_width image)
                                         (i / img_width image))).
    + rewrite sum_over_rows. f_equal. rewrite Z.add_0_l.
      apply sum_over_ext. intros y Hy. apply sum_over_ext. intros x Hx.
      rewrite Z2Nat.id by lia.
      assert (0 < img_width image) by lia.
      f_equal.
      * rewrite Z.add_comm, Z.mod_add by lia. apply Z.mod_small. lia.
      * rewrite Z.add_comm, Z.div_add by lia. rewrite Z.div_small by lia. lia.
    + intros i t Hi.
      assert (0 < img_width image) as Hpos by nia.
      pose proof (Z.div_mod i (img_width image) ltac:(lia)) as Hdm.
      pose proof (Z.mod_pos_bound i (img_width image) Hpos) as Hm.
      assert (0 <= i / img_width image < img_height image) as Hq.
      { split; [apply Z.div_pos; lia|]. apply Z.div_lt_upper_bound; nia. }
      assert (load_byte w p i
              = Done (pixel_value w image (i mod img_width image) (i / img_width image)))
        as ->; [|done].
      rewrite <- (Hval _ _ Hm Hq), Hstep. f_equal. lia.
  - rewrite (for_loop_sum _ (fun y => sum_over (fun x => pixel_value w image x y) 0
                                         (Z.to_nat (img_width image)))).
    + reflexivity.
    + intros y t Hy. unfold sum_bytes. apply for_loop_sum. intros x r Hx.
      assert (load_byte w (ptr_add p (y * img_step image)) x
              = Done (pixel_value w image x y)) as ->; [|done].
      rewrite <- (Hval x y) by lia. unfold load_byte, ptr_add. cbn [fst snd].
      by rewrite Z.add_assoc.
Qed.

(** X6. Images with the same data get the same checksums: two images of
    the same non-negative size whose pixels can be read and agree have the
    same checksum, whatever their steps, their buffers and the bytes between
    their rows. *)
Theorem ep_image_checksum_same_pixels (w1 : World) (image1 : EpImage) (w2 : World)
    (image2 : EpImage) :
  ep_image_is_empty image1 = false -> ep_image_is_empty image2 = false ->
  0 <= img_width image1 -> 0 <= img_height image1 ->
  img_width image2 = img_width image1 -> img_height image2 = img_height image1 ->
  (forall x y, 0 <= x < img_width image1 -> 0 <= y < img_height image1 ->
     exists v, pixel w1 image1 x y = Done v /\ pixel w2 image2 x y = Done v) ->
  exists s, ep_image_checksum image1 w1 = Done s /\ ep_image_checksum image2 w2 = Done s.
Proof.
  intros He1 He2 Hw Hh Hw2 Hh2 Hpix.
  eexists. split.
  - apply ep_image_checksum_sum; try done.
    intros x y Hx Hy. destruct (Hpix x y Hx Hy) as (v & Hv & _). by exists v.
  - rewrite ep_image_checksum_sum; try lia; try done.
    + f_equal. rewrite Hw2, Hh2.
      apply sum_over_ext. intros y Hy. apply sum_over_ext. intros x Hx.
      destruct (Hpix x y ltac:(lia) ltac:(lia)) as (v & Hv1 & Hv2).
      unfold pixel_value. by rewrite Hv1, Hv2.
    + intros x y Hx Hy. rewrite Hw2 in Hx. rewrite Hh2 in Hy.
      destruct (Hpix x y Hx Hy) as (v & _ & Hv). by exists v.
Qed.

Lemma ep_image_checksum_same_pixels_witness :
  ep_image_is_empty small_image = false /\ ep_image_is_empty packed_image = false /\
  0 <= img_width small_image /\ 0 <= img_height small_image /\
  img_width packed_image = img_width small_image /\
  img_height packed_image = img_height small_image /\
  (forall x y, 0 <= x < img_width small_image -> 0 <= y < img_height small_image ->
     exists v, pixel accept_all_world small_image x y = Done v /\
               pixel packed_world packed_image x y = Done v) /\
  exists s, ep_image_checksum small_image accept_all_world = Done s /\
            ep_image_checksum packed_image packed_world = Done s.
Proof.
  assert (forall x y, 0 <= x < img_width small_image -> 0 <= y < img_height small_image ->
     exists v, pixel accept_all_world small_image x y = Done v /\
               pixel packed_world packed_image x y = Done v) as Hpix.
  { intros x y Hx Hy. cbn [small_image img_width img_height] in Hx, Hy.
    assert (x = 0 \/ x = 1 \/ x = 2 \/ x = 3) as Hxs by lia.
    assert (y = 0 \/ y = 1 \/ y = 2 \/ y = 3) as Hys by lia.
    destruct Hxs as [->|[->|[->| ->]]], Hys as [->|[->|[->| ->]]];
      eexists; split; vm_compute; reflexivity. }
  split; [reflexivity|]. split; [reflexivity|].
  split; [cbn; lia|]. split; [cbn; lia|].
  split; [reflexivity|]. split; [reflexivity|]. split; [exact Hpix|].
  apply (ep_image_checksum_same_pixels accept_all_world small_image packed_world
           packed_image); try reflexivity; try (cbn; lia). exact Hpix.
Defined.

(** ** Copies *)

Lemma load_bytes_Done w p n l :
  load_bytes w p n = Done l ->
  0 <= n /\ length l = Z.to_nat n /\ readable w p n /\
  forall i, 0 <= i < n -> byte_at w p i = l !! Z.to_nat i.
Proof.
  unfold load_bytes, byte_at, readable.
  destruct (heap w !! p.1) as [block|]; [|discriminate].
  destruct (Z.leb_spec 0 p.2); cbn [andb]; [|discriminate].
  destruct (Z.leb_spec 0 n); cbn [andb]; [|discriminate].
  destruct (Z.leb_spec (p.2 + n) (Z.of_nat (length block))); [|discriminate].
  intros [= <-]. split; [done|]. split.
  { rewrite length_take, length_drop. lia. }
  split; [by exists block|].
  intros i Hi. destruct (Z.leb_spec 0 (p.2 + i)); [|lia].
  rewrite lookup_take_lt by lia. rewrite lookup_drop. f_equal. lia.
Qed.

Lemma load_bytes_readable w p n :
  readable w p n -> 0 <= n -> exists l, load_bytes w p n = Done l.
Proof.
  intros (block & Hb & Hp & Hn) Hnn. unfold load_bytes. rewrite Hb.
  destruct (Z.leb_spec 0 p.2); [|lia]. destruct (Z.leb_spec 0 n); [|lia].
  destruct (Z.leb_spec (p.2 + n) (Z.of_nat (length block))); [|lia].
  by eexists.
Qed.

Lemma store_bytes_Done p l w w' :
  store_bytes p l w = Done w' ->
  (forall i, 0 <= i < Z.of_nat (length l) -> byte_at w' p i = l !! Z.to_nat i) /\
  (forall q i, q.1 <> p.1 \/ q.2 + i < p.2 \/ p.2 + Z.of_nat (length l) <= q.2 + i ->
               byte_at w' q i = byte_at w q i) /\
  (forall b, b <> p.1 -> heap w' !! b = heap w !! b) /\
  (forall b, is_Some (heap w' !! b) <-> is_Some (heap w !! b)) /\
  files w' = files w /\ next_block w' = next_block w.
Proof.
  unfold store_bytes.
  destruct (heap w !! p.1) as [block|] eqn:Hb; [|discriminate].
  destruct (Z.leb_spec 0 p.2); cbn [andb]; [|discriminate].
  destruct (Z.leb_spec (p.2 + Z.of_nat (length l)) (Z.of_nat (length block)));
    [|discriminate].
  intros [= <-]. cbn [set_heap heap files next_block].
  assert (length (take (Z.to_nat p.2) block) = Z.to_nat p.2) as Htake
    by (rewrite length_take; lia).
  repeat split; try done.
  - intros i Hi. unfold byte_at. cbn [set_heap heap]. rewrite lookup_insert_eq.
    destruct (Z.leb_spec 0 (p.2 + i)); [|lia].
    rewrite lookup_app_r by lia. rewrite Htake, lookup_app_l by lia. f_equal. lia.
  - intros q i Hq. unfold byte_at. cbn [set_heap heap].
    destruct (decide (q.1 = p.1)) as [Heq|Hne]; [|by rewrite lookup_insert_ne].
    rewrite Heq, lookup_insert_eq, Hb.
    destruct (Z.leb_spec 0 (q.2 + i)); [|done].
    destruct Hq as [Hq|[Hq|Hq]]; [done| |].
    + rewrite lookup_app_l by lia. apply lookup_take_lt. lia.
    + rewrite lookup_app_r by lia. rewrite Htake, lookup_app_r by lia.
      rewrite lookup_drop. f_equal. lia.
  - intros b Hne. by rewrite lookup_insert_ne.
  - destruct (decide (b = p.1)) as [->|Hne]; [by rewrite Hb|by rewrite lookup_insert_ne].
  - destruct (decide (b = p.1)) as [->|Hne];
      [by rewrite lookup_insert_eq|by rewrite lookup_insert_ne].
Qed.

Lemma store_bytes_writable p l w :
  readable w p (Z.of_nat (length l)) -> exists w', store_bytes p l w = Done w'.
Proof.
  intros (block & Hb & Hp & Hn). unfold store_bytes. rewrite Hb.
  destruct (Z.leb_spec 0 p.2); [|lia].
  destruct (Z.leb_spec (p.2 + Z.of_nat (length l)) (Z.of_nat (length block))); [|lia].
  by eexists.
Qed.

Lemma memcpy_Done dst src n w w' :
  memcpy dst src n w = Done w' ->
  0 <= n /\
  (forall i, 0 <= i < n ->
             byte_at w' dst i = byte_at w src i /\ is_Some (byte_at w src i)) /\
  (forall q i, q.1 <> dst.1 \/ q.2 + i < dst.2 \/ dst.2 + n <= q.2 + i ->
               byte_at w' q i = byte_at w q i) /\
  (forall b, b <> dst.1 -> heap w' !! b = heap w !! b) /\
  (forall b, is_Some (heap w' !! b) <-> is_Some (heap w !! b)).
Proof.
  unfold memcpy. intros H. apply obind_Done in H as (l & Hl & H).
  destruct (_ && _); [discriminate|].
  apply load_bytes_Done in Hl as (Hn & Hlen & _ & Hsrc).
  apply store_bytes_Done in H as (Hdst & Hframe & Hother & Hlive & _).
  split; [done|]. split; [|split; [|done]].
  - intros i Hi. rewrite Hdst, Hsrc by lia. split; [done|].
    apply lookup_lt_is_Some_2. lia.
  - intros q i Hq. apply Hframe. lia.
Qed.

Lemma round_up_to_8n_fixed z :
  z mod 8 = 0 -> - 2 ^ 31 <= z + 7 < 2 ^ 31 -> round_up_to_8n z = z.
Proof.
  intros Hz Hfits. unfold round_up_to_8n. rewrite wrap32_small, land_m8 by done.
  pose proof (Z.div_mod z 8 ltac:(lia)) as Hdm.
  assert ((z + 7) / 8 = z / 8) as ->; [|lia].
  symmetry. apply (Z.div_unique _ _ _ 7); lia.
Qed.

(** The row loop of [ep_subimage_clone]: row by row, from a block to another
    one. *)
Lemma copy_rows dst src ds ss width n start w1 w2 :
  dst.1 <> src.1 -> width <= ds ->
  for_loop n start
    (fun line w => memcpy (ptr_add dst (line * ds)) (ptr_add src (line * ss)) width w) w1
  = Done w2 ->
  (forall j i, start <= j < start + Z.of_nat n -> 0 <= i < width ->
     byte_at w2 dst (j * ds + i) = byte_at w1 src (j * ss + i) /\
     is_Some (byte_at w1 src (j * ss + i))) /\
  (forall q k, q.1 <> dst.1 \/ q.2 + k < dst.2 + start * ds ->
               byte_at w2 q k = byte_at w1 q k) /\
  (forall b, b <> dst.1 -> heap w2 !! b = heap w1 !! b).
Proof.
  intros Hblocks Hds. revert start w1.
  induction n as [|n IH]; intros start w1 H; cbn [for_loop] in H.
  - injection H as <-. split; [intros; lia|]. by split.
  - apply obind_Done in H as (wa & Hrow & Hrest).
    apply memcpy_Done in Hrow as (Hw & Hcopy & Hframe & Hother & _).
    apply IH in Hrest as (Hrows & Hframe' & Hother').
    assert (forall k, byte_at wa src k = byte_at w1 src k) as Hsrc.
    { intros k. apply Hframe. left. cbn [ptr_add fst]. congruence. }
    split; [|split].
    + intros j i Hj Hi. destruct (decide (j = start)) as [->|Hne].
      * rewrite Hframe' by (right; nia).
        rewrite <- !byte_at_ptr_add. by apply Hcopy.
      * destruct (Hrows j i ltac:(lia) Hi) as [Heq Hsome].
        by rewrite Heq, Hsrc in *.
    + intros q k Hq. rewrite Hframe' by (destruct Hq; [by left|right; nia]).
      apply Hframe. cbn [ptr_add fst snd]. destruct Hq; [by left|right; left; lia].
    + intros b Hb. rewrite Hother' by done. by apply Hother.
Qed.

(** The window [ep_subimage_clone] copies. *)
Lemma ep_subimage_clone_window (image : EpImage) (x y width height : Z) (w : World)
    (clone : EpImage) (w' : World) :
  away_from (next_block w) image ->
  0 <= width -> 0 <= height -> width + 7 < 2 ^ 31 ->
  round_up_to_8n width * height < 2 ^ 31 ->
  (img_step image = round_up_to_8n width -> width mod 8 = 0) ->
  ep_subimage_clone image x y width height w = Done (clone, w') ->
  ep_image_is_empty clone = false ->
  img_width clone = width /\ img_height clone = height /\
  (forall i j, 0 <= i < width -> 0 <= j < height ->
     exists v, pixel w' clone i j = Done v /\ pixel w image (x + i) (y + j) = Done v) /\
  (forall b, b <> next_block w -> heap w' !! b = heap w !! b).
Proof.
  intros Haway Hwidth Hheight Hround Hfits Hsteps H Hne.
  unfold ep_subimage_clone, ep_image_create in H.
  pose proof (round_up_to_8n_bounds width ltac:(lia)) as Hup.
  rewrite (wrap32_small (round_up_to_8n width * height)) in H by nia.
  destruct (malloc (round_up_to_8n width * height) w) as [[q|] w1] eqn:Hm.
  2:{ cbn [img_data] in H. injection H as <- <-. discriminate. }
  cbn [img_data img_step] in H.
  apply malloc_Some in Hm as (-> & _ & Hheap & _).
  apply obind_Done in H as (p & Hp & H). apply deref_Done in Hp.
  pose proof (Haway p Hp) as Hblock.
  assert (forall k, byte_at w1 p k = byte_at w p k) as Hsrc.
  { intros k. apply byte_at_same_heap. by rewrite Hheap, lookup_insert_ne. }
  assert (forall b, b <> next_block w -> heap w1 !! b = heap w !! b) as Hold
    by (intros b Hb; by rewrite Hheap, lookup_insert_ne).
  assert (forall (c : EpImage) (wz : World),
            img_data c = Some (next_block w, 0) -> img_step c = round_up_to_8n width ->
            (forall i j, 0 <= i < width -> 0 <= j < height ->
               byte_at wz (next_block w, 0) (j * round_up_to_8n width + i)
               = byte_at w p ((y + j) * img_step image + (x + i)) /\
               is_Some (byte_at w p ((y + j) * img_step image + (x + i)))) ->
            forall i j, 0 <= i < width -> 0 <= j < height ->
              exists v, pixel wz c i j = Done v /\ pixel w image (x + i) (y + j) = Done v)
    as Hpixels.
  { intros c wz Hc Hcs Hbytes i j Hi Hj.
    rewrite (pixel_byte_at _ _ _ _ _ Hc), (pixel_byte_at _ _ _ _ _ Hp), Hcs.
    destruct (Hbytes i j Hi Hj) as [-> [v ->]]. by eexists. }
  destruct (Z.eqb_spec (img_step image) (round_up_to_8n width)) as [Heq|Hdiff].
  - apply obind_Done in H as (w2 & Hcopy & [= <- <-]).
    cbn [img_width img_height].
    pose proof (round_up_to_8n_fixed _ (Hsteps Heq) ltac:(lia)) as Hfix.
    rewrite wrap32_small in Hcopy by nia.
    apply memcpy_Done in Hcopy as (_ & Hcopy & _ & Hother & _).
    split; [done|]. split; [done|]. split.
    + apply Hpixels; [done|done|]. intros i j Hi Hj.
      destruct (Hcopy (j * width + i) ltac:(nia)) as [Hc Hs].
      rewrite byte_at_ptr_add, Hsrc, Heq, Hfix in Hc, Hs. rewrite Heq, !Hfix.
      by replace ((y + j) * width + (x + i)) with (y * width + x + (j * width + i))
        by lia.
    + intros b Hb. rewrite Hother by done. by apply Hold.
  - apply obind_Done in H as (w2 & Hcopy & [= <- <-]).
    cbn [img_width img_height].
    apply copy_rows in Hcopy as (Hrows & _ & Hother); [|cbn [ptr_add fst]; congruence|lia].
    split; [done|]. split; [done|]. split.
    + apply Hpixels; [done|done|]. intros i j Hi Hj.
      destruct (Hrows j i ltac:(lia) Hi) as [Hc Hs].
      rewrite byte_at_ptr_add, Hsrc in Hc, Hs.
      by replace ((y + j) * img_step image + (x + i))
        with (y * img_step image + x + (j * img_step image + i)) by lia.
    + intros b Hb. rewrite Hother by done. by apply Hold.
Qed.

(** X8. [ep_subimage_clone] copies the window into a buffer of its own: for
    a window whose buffer size, step times height, fits an [int], when the
    clone is not empty, its pixels are the pixels of the window and the
    blocks that were there are as they were.  This needs the step of the
    source to differ from the step of the clone, or the width to be a
    multiple of 8: with equal steps the pixels are copied in one piece of
    [width * height] bytes. *)
Theorem ep_subimage_clone_copies (image : EpImage) (x y width height : Z) (w : World)
    (clone : EpImage) (w' : World) :
  away_from (next_block w) image ->
  0 <= width -> 0 <= height -> width + 7 < 2 ^ 31 ->
  round_up_to_8n width * height < 2 ^ 31 ->
  (img_step image = round_up_to_8n width -> width mod 8 = 0) ->
  ep_subimage_clone image x y width height w = Done (clone, w') ->
  ep_image_is_empty clone = false ->
  img_width clone = width /\ img_height clone = height /\
  (forall i j, 0 <= i < width -> 0 <= j < height ->
     exists v, pixel w' clone i j = Done v /\ pixel w image (x + i) (y + j) = Done v) /\
  (forall b, b <> next_block w -> heap w' !! b = heap w !! b).
Proof. apply ep_subimage_clone_window. Qed.

(** X27. For an image whose buffer size, the step of a new image of its
    width times its height, fits an [int], [ep_image_clone] gives an image of
    the same size in a buffer of its own, with the same pixels and the same
    checksum, when the step of the image differs from the step of a new image
    of its width or when the width is a multiple of 8; the blocks that were
    there are as they were. *)
Theorem ep_image_clone_same_image (image : EpImage) (w : World) (clone : EpImage)
    (w' : World) :
  away_from (next_block w) image -> 0 <= img_width image -> 0 <= img_height image ->
  img_width image + 7 < 2 ^ 31 ->
  round_up_to_8n (img_width image) * img_height image < 2 ^ 31 ->
  (img_step image = round_up_to_8n (img_width image) -> img_width image mod 8 = 0) ->
  ep_image_clone image w = Done (clone, w') -> ep_image_is_empty clone = false ->
  img_width clone = img_width image /\ img_height clone = img_height image /\
  (forall x y, 0 <= x < img_width image -> 0 <= y < img_height image ->
     exists v, pixel w' clone x y = Done v /\ pixel w image x y = Done v) /\
  (exists s, ep_image_checksum clone w' = Done s /\ ep_image_checksum image w = Done s) /\
  (forall b, b <> next_block w -> heap w' !! b = heap w !! b).
Proof.
  intros Haway Hw Hh Hround Hfits Hsteps H Hne. unfold ep_image_clone in H.
  assert (ep_image_is_empty image = false) as Hsrc.
  { unfold ep_subimage_clone in H. destruct (ep_image_create _ _ w) as [result w1].
    unfold ep_image_is_empty in *. destruct (img_data result) eqn:Hr.
    - destruct (img_data image); [done|cbn in H; discriminate].
    - injection H as <- <-. by rewrite Hr in Hne. }
  destruct (ep_subimage_clone_window image 0 0 _ _ w clone w' Haway Hw Hh Hround Hfits
              Hsteps H Hne)
    as (Hcw & Hch & Hpix & Hother).
  assert (forall x y, 0 <= x < img_width image -> 0 <= y < img_height image ->
            exists v, pixel w' clone x y = Done v /\ pixel w image x y = Done v) as Hsame.
  { intros x y Hx Hy. destruct (Hpix x y Hx Hy) as (v & Hv & Hv'). by exists v. }
  split; [done|]. split; [done|]. split; [exact Hsame|]. split; [|done].
  eexists. split.
  - apply ep_image_checksum_sum; try done; try lia.
    intros x y Hx Hy. rewrite Hcw in Hx. rewrite Hch in Hy.
    destruct (Hsame x y Hx Hy) as (v & Hv & _). by exists v.
  - rewrite ep_image_checksum_sum; try lia; try done.
    + f_equal. rewrite Hcw, Hch.
      apply sum_over_ext. intros y Hy. apply sum_over_ext. intros x Hx.
      destruct (Hsame x y ltac:(lia) ltac:(lia)) as (v & Hv1 & Hv2).
      unfold pixel_value. by rewrite Hv1, Hv2.
    + intros x y Hx Hy. destruct (Hsame x y Hx Hy) as (v & _ & Hv). by exists v.
Qed.

(** ** Bytes and [int]s *)

Lemma byte_value_byte_of_Z x : byte_value (byte_of_Z x) = x mod 256.
Proof.
  unfold byte_value, byte_of_Z.
  pose proof (Z.mod_pos_bound x 256 ltac:(lia)) as Hx.
  destruct (Byte.of_N (Z.to_N (x mod 256))) as [c|] eqn:Hc.
  - apply Byte.to_of_N in Hc. rewrite Hc. lia.
  - apply Byte.of_N_None_iff in Hc. lia.
Qed.

Lemma int_of_bytes_int_bytes v : int_of_bytes (int_bytes v) = wrap32 v.
Proof.
  unfold int_of_bytes, int_bytes. cbn [fold_right].
  change (fun c : byte => Z.of_N (Byte.to_N c)) with byte_value.
  fold (byte_value (byte_of_Z (to_unsigned v))).
  fold (byte_value (byte_of_Z (Z.shiftr (to_unsigned v) 8))).
  fold (byte_value (byte_of_Z (Z.shiftr (to_unsigned v) 16))).
  fold (byte_value (byte_of_Z (Z.shiftr (to_unsigned v) 24))).
  rewrite !byte_value_byte_of_Z, !Z.shiftr_div_pow2 by lia.
  unfold to_unsigned. set (u := v mod 2 ^ 32).
  assert (0 <= u < 2 ^ 32) as Hu by (apply Z.mod_pos_bound; lia).
  change (2 ^ 8) with 256. change (2 ^ 16) with (256 * 256).
  change (2 ^ 24) with (256 * (256 * 256)).
  rewrite <- !Z.div_div by lia.
  pose proof (Z.div_mod u 256 ltac:(lia)).
  pose proof (Z.div_mod (u / 256) 256 ltac:(lia)).
  pose proof (Z.div_mod (u / 256 / 256) 256 ltac:(lia)).
  assert (u / 256 / 256 / 256 < 256).
  { rewrite !Z.div_div by lia. apply Z.div_lt_upper_bound; lia. }
  assert (0 <= u / 256 / 256 / 256) by (repeat apply Z.div_pos; lia).
  rewrite (Z.mod_small (u / 256 / 256 / 256)) by lia.
  replace (u mod 256 + 256 * ((u / 256) mod 256 + 256 * ((u / 256 / 256) mod 256
             + 256 * (u / 256 / 256 / 256 + 256 * 0)))) with u by lia.
  unfold wrap32, u. by rewrite Z.add_mod_idemp_l by lia.
Qed.

Lemma length_int_bytes v : length (int_bytes v) = 4%nat.
Proof. reflexivity. Qed.

Lemma load_int_agree w p off w' p' off' :
  (forall k, 0 <= k < 4 -> byte_at w' p' (off' + k) = byte_at w p (off + k)) ->
  load_int w' p' off' = load_int w p off.
Proof.
  intros H. unfold load_int. rewrite !load_byte_byte_at.
  pose proof (H 0 ltac:(lia)) as H0. rewrite !Z.add_0_r in H0.
  by rewrite H0, !H by lia.
Qed.

Lemma for_loop_ext {S : Type} (body body' : Z -> S -> outcome S) n start s :
  (forall i t, start <= i < start + Z.of_nat n -> body' i t = body i t) ->
  for_loop n start body' s = for_loop n start body s.
Proof.
  revert start s. induction n as [|n IH]; intros start s H; [done|].
  cbn [for_loop]. rewrite H by lia. destruct (body start s) as [t|f]; [|done].
  cbn [obind]. apply IH. intros i u Hi. apply H. lia.
Qed.

(** ** Classifiers with the same bytes *)

Section SameBytes.
Context {hdr : Header}.

(** [ep_classifier_check] looks at the bytes of the blob only. *)
Lemma ep_classifier_check_agree w p w' p' size :
  layout_ok ->
  (forall k, 0 <= k < size -> byte_at w' p' k = byte_at w p k) ->
  ep_classifier_check {| cls_data := Some p'; cls_size := size |} w'
  = ep_classifier_check {| cls_data := Some p; cls_size := size |} w.
Proof.
  intros (Hm & Hd & Hs & Hf & Hww & Hww' & Hwh & Hwh') H.
  unfold ep_classifier_check. cbn [cls_data cls_size].
  destruct (Z.ltb_spec size (sizeof_EpNodeMeta + sizeof_EpNodeDecision
                             + sizeof_EpNodeStage + sizeof_EpNodeFinal)); [done|].
  rewrite !load_int_ptr_add.
  rewrite (load_int_agree w p 0 w' p' 0) by (intros; apply H; lia).
  rewrite (load_int_agree w p offsetof_window_height w' p' offsetof_window_height)
    by (intros; apply H; lia).
  rewrite (load_int_agree w p offsetof_window_width w' p' offsetof_window_width)
    by (intros; apply H; lia).
  rewrite (load_int_agree w p (sizeof_EpNodeMeta + 0) w' p' (sizeof_EpNodeMeta + 0))
    by (intros; apply H; lia).
  rewrite (load_int_agree w p (size - sizeof_EpNodeFinal + 0) w' p'
             (size - sizeof_EpNodeFinal + 0)) by (intros; apply H; lia).
  rewrite (load_int_agree w p (size - sizeof_EpNodeFinal + (- sizeof_EpNodeStage + 0))
             w' p' (size - sizeof_EpNodeFinal + (- sizeof_EpNodeStage + 0)))
    by (intros; apply H; lia).
  done.
Qed.

End SameBytes.

Lemma ep_classifier_checksum_agree char_signed w p w' p' size :
  (forall k, 0 <= k < size -> byte_at w' p' k = byte_at w p k) ->
  ep_classifier_checksum char_signed {| cls_data := Some p'; cls_size := size |} w'
  = ep_classifier_checksum char_signed {| cls_data := Some p; cls_size := size |} w.
Proof.
  intros H. unfold ep_classifier_checksum. cbn [cls_data cls_size].
  apply for_loop_ext. intros i t Hi. rewrite !load_byte_byte_at, H by lia. done.
Qed.

(** X14. [ep_classifier_clone] copies the blob into a buffer of its own:
    when the clone is not empty it has the size and the bytes of the
    classifier, so [ep_classifier_check] and [ep_classifier_checksum] give on
    it what they give on the classifier, and the blocks that were there are
    as they were. *)
Theorem ep_classifier_clone_copies `{hdr : Header} (char_signed : bool)
    (classifier : EpCascadeClassifier) (w : World) (clone : EpCascadeClassifier)
    (w' : World) :
  layout_ok ->
  (forall p, cls_data classifier = Some p -> p.1 <> next_block w) ->
  ep_classifier_clone classifier w = Done (clone, w') ->
  ep_classifier_is_empty clone = false ->
  cls_size clone = cls_size classifier /\
  (exists p q, cls_data classifier = Some p /\ cls_data clone = Some q /\
     forall k, 0 <= k < cls_size classifier ->
       byte_at w' q k = byte_at w p k /\ is_Some (byte_at w p k)) /\
  ep_classifier_check clone w' = ep_classifier_check classifier w /\
  ep_classifier_checksum char_signed clone w'
  = ep_classifier_checksum char_signed classifier w /\
  (forall b, b <> next_block w -> heap w' !! b = heap w !! b).
Proof.
  intros Hlayout Haway H Hne. unfold ep_classifier_clone in H.
  destruct classifier as [[p|] size]; cbn [cls_data cls_size] in *.
  2:{ injection H as <- <-. discriminate. }
  destruct (malloc size w) as [[q|] w1] eqn:Hm.
  2:{ injection H as <- <-. discriminate. }
  apply obind_Done in H as (w2 & Hcopy & [= <- <-]). cbn [cls_data cls_size].
  apply malloc_Some in Hm as (-> & _ & Hheap & _).
  apply memcpy_Done in Hcopy as (_ & Hcopy & _ & Hother & _).
  assert (forall k, byte_at w1 p k = byte_at w p k) as Hsrc.
  { intros k. apply byte_at_same_heap. rewrite Hheap, lookup_insert_ne; [done|].
    intros Heq. by apply (Haway p). }
  assert (forall k, 0 <= k < size ->
            byte_at w2 (next_block w, 0) k = byte_at w p k /\ is_Some (byte_at w p k))
    as Hbytes.
  { intros k Hk. destruct (Hcopy k Hk) as [Hc Hs]. by rewrite Hsrc in Hc, Hs. }
  split; [done|]. split; [by exists p, (next_block w, 0)|].
  split; [apply ep_classifier_check_agree; [done|]; intros; by apply Hbytes|].
  split; [apply ep_classifier_checksum_agree; intros; by apply Hbytes|].
  intros b Hb. rewrite Hother by done. by rewrite Hheap, lookup_insert_ne.
Qed.

(** ** Files *)

Lemma same_memory_refl w : same_memory w w.
Proof. by repeat split. Qed.

Lemma same_memory_trans w1 w2 w3 :
  same_memory w1 w2 -> same_memory w2 w3 -> same_memory w1 w3.
Proof.
  intros (? & ? & ? & ?) (? & ? & ? & ?). repeat split; congruence.
Qed.

Lemma load_bytes_same_heap w w' p n :
  heap w' = heap w -> load_bytes w' p n = load_bytes w p n.
Proof. unfold load_bytes. by intros ->. Qed.

(** A write that the disk has room for. *)
Lemma fwrite_all l file w :
  f_open file = true -> Z.of_nat (length l) <= disk_free w ->
  exists w',
    fwrite l file w = Done (Z.of_nat (length l), w') /\ same_memory w w' /\
    read_only w' = read_only w /\ disk_free w' = disk_free w - Z.of_nat (length l) /\
    files w' = <[f_name file := default [] (files w !! f_name file) ++ l]> (files w).
Proof.
  intros Ho Hd. unfold fwrite. rewrite Ho. rewrite Z.min_l by lia.
  rewrite Nat2Z.id, take_ge by done. eexists. split; [reflexivity|].
  by repeat split.
Qed.

(** A write that the disk has no room for. *)
Lemma fwrite_short l file w :
  f_open file = true -> disk_free w < Z.of_nat (length l) -> l <> [] ->
  exists n w',
    fwrite l file w = Done (n, w') /\ n <> Z.of_nat (length l) /\ same_memory w w'.
Proof.
  intros Ho Hd Hl. unfold fwrite. rewrite Ho. cbv zeta. eexists _, _.
  split; [reflexivity|]. split; [destruct l; [done|cbn [length] in *; lia]|].
  by repeat split.
Qed.

Section ClassifierFiles.
Context {hdr : Header}.

(** What [ep_classifier_save] writes when nothing stands in its way. *)
Lemma ep_classifier_save_writes classifier name w p blob :
  cls_data classifier = Some p -> 0 < cls_size classifier ->
  load_bytes w p (cls_size classifier) = Done blob ->
  read_only w name = false -> cls_size classifier + 8 <= disk_free w ->
  exists w',
    ep_classifier_save classifier name w = Done (ERR_SUCCESS, w') /\ same_memory w w' /\
    files w' = <[name := int_bytes FILE_ID_CLASSIFIER ++
                          int_bytes (cls_size classifier) ++ blob]> (files w).
Proof.
  intros Hp Hsize Hblob Hro Hdisk. unfold ep_classifier_save. rewrite Hp.
  destruct (Z.leb_spec (cls_size classifier) 0); [lia|].
  unfold fopen_wb. rewrite Hro.
  set (file := {| f_name := name; f_rest := []; f_open := true |}).
  set (w0 := set_files (<[name := []]> (files w)) (disk_free w) w).
  destruct (fwrite_all (int_bytes FILE_ID_CLASSIFIER) file w0 eq_refl)
    as (w1 & -> & Hm1 & Hro1 & Hd1 & Hf1); [cbn; lia|].
  cbn [obind]. rewrite length_int_bytes. change (Z.of_nat 4 =? 4) with true.
  cbn [negb].
  destruct (fwrite_all (int_bytes (cls_size classifier)) file w1 eq_refl)
    as (w2 & -> & Hm2 & Hro2 & Hd2 & Hf2).
  { rewrite Hd1. cbn. lia. }
  cbn [obind]. rewrite length_int_bytes. change (Z.of_nat 4 =? 4) with true.
  cbn [negb].
  assert (same_memory w w2) as Hm by (apply (same_memory_trans _ w1); [|done];
    apply (same_memory_trans _ w0); [by repeat split|done]).
  rewrite (load_bytes_same_heap w w2) by apply Hm. rewrite Hblob. cbn [obind].
  apply load_bytes_Done in Hblob as (_ & Hlen & _).
  destruct (fwrite_all blob file w2 eq_refl) as (w3 & -> & Hm3 & Hro3 & Hd3 & Hf3).
  { rewrite Hd2, Hd1. cbn. lia. }
  cbn [obind]. replace (Z.of_nat (length blob)) with (cls_size classifier) by lia.
  rewrite Z.eqb_refl. cbn [negb fclose file f_open obind].
  eexists. split; [reflexivity|]. split; [by apply (same_memory_trans _ w2)|].
  rewrite Hf3, Hf2, Hf1. cbn [file f_name w0 files set_files].
  rewrite !lookup_insert_eq. cbn [default]. rewrite !insert_insert_eq.
  unfold id. by rewrite app_nil_l, <- app_assoc.
Qed.

(** What [ep_classifier_load] does with a file of the right form. *)
Lemma ep_classifier_load_reads name error_code w size blob :
  wrap32 FILE_ID_CLASSIFIER = FILE_ID_CLASSIFIER ->
  files w !! name = Some (int_bytes FILE_ID_CLASSIFIER ++ int_bytes size ++ blob) ->
  0 < size < 2 ^ 31 -> length blob = Z.to_nat size -> size <= alloc_limit w ->
  exists w2,
    heap w2 = <[next_block w := blob]> (heap w) /\
    let result := {| cls_data := Some (next_block w, 0); cls_size := size |} in
    ep_classifier_load name error_code w =
    (do bad <- ep_classifier_check result w2;
     if negb (bad =? 0) then
       do (result, w3) <- ep_classifier_release result w2;
       Done ((result, set_error error_code ERR_FILE_CONTENTS), w3)
     else Done ((result, set_error error_code ERR_SUCCESS), w2)).
Proof.
  intros Hid Hfile Hsize Hlen Hlimit. unfold ep_classifier_load, fopen_rb.
  rewrite Hfile. unfold fread at 1. cbn [f_open f_rest f_name obind].
  change (Z.to_nat 4) with 4%nat.
  rewrite (take_app_length' (int_bytes FILE_ID_CLASSIFIER)) by done.
  rewrite (drop_app_length' (int_bytes FILE_ID_CLASSIFIER)) by done.
  rewrite length_int_bytes, int_of_bytes_int_bytes, Hid, Z.eqb_refl.
  change (negb (4 =? 4)%nat || negb true) with false. cbv iota.
  unfold fread at 1. cbn [f_open f_rest f_name obind]. change (Z.to_nat 4) with 4%nat.
  rewrite (take_app_length' (int_bytes size)) by done.
  rewrite (drop_app_length' (int_bytes size)) by done.
  rewrite length_int_bytes, int_of_bytes_int_bytes, wrap32_small by lia.
  destruct (Z.leb_spec size 0); [lia|].
  change (negb (4 =? 4)%nat || false) with false. cbv iota.
  unfold malloc. destruct (Z.leb_spec 0 size); [|lia].
  destruct (Z.leb_spec size (alloc_limit w)); [|lia]. cbn [andb].
  unfold fread. cbn [f_open f_rest f_name obind].
  destruct (Z.ltb_spec size 0); [lia|].
  rewrite take_ge by lia.
  unfold store_bytes. cbn [fst snd heap]. rewrite lookup_insert_eq.
  rewrite length_map, length_seq.
  destruct (Z.leb_spec (0 + Z.of_nat (length blob)) (Z.of_nat (Z.to_nat size))); [|lia].
  cbn [andb Z.leb obind]. change (0 <=? 0) with true. cbn [andb obind].
  replace (Z.of_nat (length blob)) with size by lia. rewrite Z.eqb_refl.
  cbn [negb fclose f_open obind].
  eexists. split; [|reflexivity].
  cbn [set_heap heap]. rewrite insert_insert_eq. f_equal.
  change (Z.to_nat 0) with 0%nat. rewrite take_0, app_nil_l.
  rewrite drop_ge by (rewrite length_map, length_seq; lia). apply app_nil_r.
Qed.

End ClassifierFiles.

Lemma byte_at_block w b block k :
  heap w !! b = Some block -> 0 <= k -> byte_at w (b, 0) k = block !! Z.to_nat k.
Proof.
  intros Hb Hk. unfold byte_at. cbn [fst snd]. rewrite Hb.
  by destruct (Z.leb_spec 0 (0 + k)); [|lia].
Qed.

(** X11. A classifier that passes [ep_classifier_check] and is saved to a
    writable file on a disk with room for it loads again with
    [ERR_SUCCESS]: the loaded classifier has the same size, the same bytes
    and the same checksum. *)
Theorem classifier_save_load_round_trip `{hdr : Header} (char_signed : bool)
    (classifier : EpCascadeClassifier) (name : string) (e0 : EpErrorCode) (w : World)
    (p : ptr) :
  layout_ok -> wrap32 FILE_ID_CLASSIFIER = FILE_ID_CLASSIFIER ->
  cls_data classifier = Some p -> readable w p (cls_size classifier) ->
  ep_classifier_check classifier w = Done 0 ->
  cls_size classifier < 2 ^ 31 -> cls_size classifier <= alloc_limit w ->
  read_only w name = false -> cls_size classifier + 8 <= disk_free w ->
  exists w1 loaded w2 q,
    ep_classifier_save classifier name w = Done (ERR_SUCCESS, w1) /\
    ep_classifier_load name (Some e0) w1 = Done ((loaded, Some ERR_SUCCESS), w2) /\
    cls_size loaded = cls_size classifier /\ cls_data loaded = Some q /\
    (forall k, 0 <= k < cls_size classifier -> byte_at w2 q k = byte_at w p k) /\
    ep_classifier_checksum char_signed loaded w2
    = ep_classifier_checksum char_signed classifier w.
Proof.
  intros Hlayout Hid Hp Hread Hcheck Hint Hlimit Hro Hdisk.
  destruct classifier as [data size]. cbn [cls_data cls_size] in *. subst data.
  assert (16 <= size) as Hsize.
  { unfold ep_classifier_check in Hcheck. cbn [cls_data cls_size] in Hcheck.
    destruct Hlayout as (? & ? & ? & ? & _).
    destruct (Z.ltb_spec size (sizeof_EpNodeMeta + sizeof_EpNodeDecision
                               + sizeof_EpNodeStage + sizeof_EpNodeFinal));
      [discriminate|lia]. }
  destruct (load_bytes_readable w p size Hread ltac:(lia)) as [blob Hblob].
  destruct (ep_classifier_save_writes {| cls_data := Some p; cls_size := size |}
              name w p blob eq_refl ltac:(cbn; lia) Hblob Hro Hdisk)
    as (w1 & Hsave & (Hheap1 & Hnext1 & Hlimit1 & _) & Hfiles1).
  cbn [cls_size] in Hfiles1.
  apply load_bytes_Done in Hblob as (_ & Hlen & _ & Hbytes).
  destruct (ep_classifier_load_reads name (Some e0) w1 size blob Hid)
    as (w2 & Hheap2 & Hload); [by rewrite Hfiles1, lookup_insert_eq|lia|done|lia|].
  cbv zeta in Hload. rewrite Hnext1 in Hload, Hheap2.
  assert (forall k, 0 <= k < size -> byte_at w2 (next_block w, 0) k = byte_at w p k)
    as Hsame.
  { intros k Hk. rewrite (byte_at_block w2 _ blob) by (by rewrite Hheap2, lookup_insert_eq || lia).
    symmetry. by apply Hbytes. }
  pose proof (ep_classifier_check_agree w p w2 _ size Hlayout Hsame) as Hagree.
  unfold ptr in *. rewrite Hagree, Hcheck in Hload.
  cbn [obind] in Hload. change (negb (0 =? 0)) with false in Hload. cbv iota in Hload.
  eexists w1, _, w2, _. split; [exact Hsave|]. split; [exact Hload|].
  split; [done|]. split; [done|]. split; [exact Hsame|].
  by apply ep_classifier_checksum_agree.
Qed.

(** X13. [ep_classifier_save] on a classifier whose blob can be read
    returns, and never changes memory.  It returns [ERR_ARGUMENT] exactly
    for an empty classifier or a size that is not positive, and then changes
    nothing; otherwise it returns [ERR_SUCCESS] or [ERR_FILE]: [ERR_FILE],
    with nothing changed, for a file it cannot open for writing, and
    [ERR_SUCCESS] for a file it can open on a disk that has room for the
    blob and the two words before it. *)
Theorem ep_classifier_save_codes `{hdr : Header} (classifier : EpCascadeClassifier)
    (name : string) (w : World) :
  (forall p, cls_data classifier = Some p -> readable w p (cls_size classifier)) ->
  exists e w',
    ep_classifier_save classifier name w = Done (e, w') /\ same_memory w w' /\
    (e = ERR_ARGUMENT <->
     ep_classifier_is_empty classifier = true \/ cls_size classifier <= 0) /\
    (e = ERR_ARGUMENT \/ e = ERR_SUCCESS \/ e = ERR_FILE) /\
    (e = ERR_ARGUMENT -> w' = w) /\
    (ep_classifier_is_empty classifier = false -> 0 < cls_size classifier ->
     read_only w name = true -> e = ERR_FILE /\ w' = w) /\
    (ep_classifier_is_empty classifier = false -> 0 < cls_size classifier ->
     read_only w name = false -> cls_size classifier + 8 <= disk_free w ->
     e = ERR_SUCCESS).
Proof.
  intros Hread. destruct classifier as [[p|] size]; cbn [cls_data cls_size] in *.
  2:{ exists ERR_ARGUMENT, w. split; [done|]. split; [apply same_memory_refl|].
      unfold ep_classifier_is_empty. cbn [cls_data].
      intuition (try discriminate; try congruence; try lia; auto). }
  specialize (Hread p eq_refl).
  assert (ep_classifier_is_empty {| cls_data := Some p; cls_size := size |} = false)
    as Hne by done.
  destruct (Z.le_gt_cases size 0) as [Hsize|Hsize].
  { exists ERR_ARGUMENT, w. unfold ep_classifier_save. cbn [cls_data cls_size].
    destruct (Z.leb_spec size 0); [|lia]. split; [done|].
    split; [apply same_memory_refl|]. rewrite Hne.
    intuition (try discriminate; try congruence; try lia; auto). }
  destruct (read_only w name) eqn:Hro.
  { exists ERR_FILE, w. unfold ep_classifier_save, fopen_wb. cbn [cls_data cls_size].
    destruct (Z.leb_spec size 0); [lia|]. rewrite Hro. split; [done|].
    split; [apply same_memory_refl|]. rewrite Hne.
    intuition (try discriminate; try congruence; try lia; auto). }
  destruct (load_bytes_readable w p size Hread ltac:(lia)) as [blob Hblob].
  destruct (Z.le_gt_cases (size + 8) (disk_free w)) as [Hdisk|Hdisk].
  { destruct (ep_classifier_save_writes {| cls_data := Some p; cls_size := size |}
                name w p blob eq_refl Hsize Hblob Hro Hdisk) as (w' & Hsave & Hm & _).
    exists ERR_SUCCESS, w'. split; [done|]. split; [done|]. rewrite Hne.
    intuition (try discriminate; try congruence; try lia; auto). }
  assert (exists w', ep_classifier_save {| cls_data := Some p; cls_size := size |} name w
                     = Done (ERR_FILE, w') /\ same_memory w w') as (w' & Hsave & Hm).
  { unfold ep_classifier_save, fopen_wb. cbn [cls_data cls_size].
    destruct (Z.leb_spec size 0); [lia|]. rewrite Hro.
    set (file := {| f_name := name; f_rest := []; f_open := true |}).
    set (w0 := set_files (<[name := []]> (files w)) (disk_free w) w).
    assert (same_memory w w0) as Hm0 by (by repeat split).
    destruct (Z.le_gt_cases 4 (disk_free w)) as [Hd4|Hd4].
    2:{ destruct (fwrite_short (int_bytes FILE_ID_CLASSIFIER) file w0 eq_refl)
          as (n & w1 & -> & Hn & Hm1); [cbn; lia|done|].
        cbn [obind]. rewrite length_int_bytes in Hn.
        destruct (Z.eqb_spec n 4); [done|]. cbn [negb fclose f_open file obind].
        eexists. split; [reflexivity|]. by apply (same_memory_trans _ w0). }
    destruct (fwrite_all (int_bytes FILE_ID_CLASSIFIER) file w0 eq_refl)
      as (w1 & -> & Hm1 & Hro1 & Hd1 & Hf1); [cbn; lia|].
    cbn [obind]. rewrite length_int_bytes. change (Z.of_nat 4 =? 4) with true.
    cbn [negb].
    assert (same_memory w w1) as Hm01 by (by apply (same_memory_trans _ w0)).
    destruct (Z.le_gt_cases 8 (disk_free w)) as [Hd8|Hd8].
    2:{ destruct (fwrite_short (int_bytes size) file w1 eq_refl)
          as (n & w2 & -> & Hn & Hm2); [rewrite Hd1; cbn; lia|done|].
        cbn [obind]. rewrite length_int_bytes in Hn.
        destruct (Z.eqb_spec n 4); [done|]. cbn [negb fclose f_open file obind].
        eexists. split; [reflexivity|]. by apply (same_memory_trans _ w1). }
    destruct (fwrite_all (int_bytes size) file w1 eq_refl)
      as (w2 & -> & Hm2 & Hro2 & Hd2 & Hf2); [rewrite Hd1; cbn; lia|].
    cbn [obind]. rewrite length_int_bytes. change (Z.of_nat 4 =? 4) with true.
    cbn [negb].
    assert (same_memory w w2) as Hm02 by (by apply (same_memory_trans _ w1)).
    rewrite (load_bytes_same_heap w w2) by apply Hm02. rewrite Hblob. cbn [obind].
    apply load_bytes_Done in Hblob as (_ & Hlen & _).
    destruct (fwrite_short blob file w2 eq_refl) as (n & w3 & -> & Hn & Hm3).
    { rewrite Hd2, Hd1. cbn. lia. }
    { intros ->. cbn in Hlen. lia. }
    cbn [obind]. destruct (Z.eqb_spec n size); [lia|].
    cbn [negb fclose f_open file obind].
    eexists. split; [reflexivity|]. by apply (same_memory_trans _ w2). }
  exists ERR_FILE, w'. split; [done|]. split; [done|]. rewrite Hne.
  intuition (try discriminate; try congruence; try lia; auto).
Qed.

Lemma free_Done p w w' : free (Some p) w = Done w' -> heap w' = delete p.1 (heap w).
Proof.
  unfold free. destruct p as [b off]. destruct (heap w !! b); [|discriminate].
  destruct (off =? 0); [|discriminate]. by intros [= <-].
Qed.

(** A block that is allocated, written to and freed leaves the heap of a
    world whose next block is fresh as it was. *)
Lemma malloc_store_free n w q w1 l w2 w3 :
  heap w !! next_block w = None ->
  malloc n w = (Some q, w1) -> store_bytes q l w1 = Done w2 ->
  free (Some q) w2 = Done w3 -> heap w3 = heap w.
Proof.
  intros Hfresh Hm Hs Hf. apply malloc_Some in Hm as (-> & _ & Hheap & _).
  apply store_bytes_Done in Hs as (_ & _ & Hother & _).
  apply free_Done in Hf. cbn [fst] in *. rewrite Hf. apply map_eq. intros b.
  destruct (decide (b = next_block w)) as [->|Hne].
  - by rewrite lookup_delete_eq.
  - rewrite lookup_delete_ne by done. rewrite Hother by done.
    by rewrite Hheap, lookup_insert_ne.
Qed.

Lemma fclose_Done file file' : fclose file = Done file' -> f_open file' = false.
Proof. unfold fclose. destruct (f_open file); [|discriminate]. by intros [= <-]. Qed.

Lemma fclose_closed file : f_open file = false -> fclose file = Stopped UndefinedBehaviour.
Proof. unfold fclose. by intros ->. Qed.

(** X10. Whatever the file holds, a classifier that [ep_classifier_load]
    returns with [ERR_SUCCESS] is not empty and passes
    [ep_classifier_check]; with any other code ([ERR_FILE],
    [ERR_FILE_CONTENTS] or [ERR_MEMORY]) the classifier returned is empty and
    the heap is as it was before the call. *)
Theorem ep_classifier_load_validates `{hdr : Header} (name : string) (e0 : EpErrorCode)
    (w : World) (loaded : EpCascadeClassifier) (code : option EpErrorCode) (w' : World) :
  heap w !! next_block w = None ->
  ep_classifier_load name (Some e0) w = Done ((loaded, code), w') ->
  (code = Some ERR_SUCCESS /\ ep_classifier_is_empty loaded = false /\
   ep_classifier_check loaded w' = Done 0) \/
  ((code = Some ERR_FILE \/ code = Some ERR_FILE_CONTENTS \/ code = Some ERR_MEMORY) /\
   loaded = ep_classifier_create_empty /\ heap w' = heap w).
Proof.
  intros Hfresh H. unfold ep_classifier_load in H.
  destruct (fopen_rb name w) as [file|].
  2:{ injection H as <- <- <-. right. by intuition. }
  apply obind_Done in H as ([id file1] & _ & H).
  destruct (_ || _).
  { apply obind_Done in H as (? & _ & [= <- <- <-]). right. by intuition. }
  apply obind_Done in H as ([sz file2] & _ & H).
  destruct (_ || _).
  { apply obind_Done in H as (? & _ & [= <- <- <-]). right. by intuition. }
  destruct (malloc (int_of_bytes sz) w) as [[q|] w1] eqn:Hm.
  2:{ apply obind_Done in H as (? & _ & [= <- <- <-]). right.
      apply malloc_None in Hm as ->. by intuition. }
  apply obind_Done in H as ([blob file3] & _ & H).
  apply obind_Done in H as (w2 & Hstore & H).
  destruct (negb (_ =? _)).
  { apply obind_Done in H as (? & _ & H).
    unfold ep_classifier_release in H. cbn [cls_data] in H.
    apply obind_Done in H as ([released w3] & Hrel & [= <- <- <-]).
    apply obind_Done in Hrel as (w4 & Hfree & [= <- <-]). right.
    split; [by right; left|]. split; [done|].
    by apply (malloc_store_free _ _ _ _ _ _ _ Hfresh Hm Hstore Hfree). }
  apply obind_Done in H as (? & _ & H).
  apply obind_Done in H as (bad & Hbad & H).
  destruct (Z.eqb_spec bad 0) as [->|Hne]; cbn [negb] in H.
  - injection H as <- <- <-. left. by repeat split.
  - unfold ep_classifier_release in H. cbn [cls_data] in H.
    apply obind_Done in H as ([released w3] & Hrel & [= <- <- <-]).
    apply obind_Done in Hrel as (w4 & Hfree & [= <- <-]). right.
    split; [by right; left|]. split; [done|].
    by apply (malloc_store_free _ _ _ _ _ _ _ Hfresh Hm Hstore Hfree).
Qed.

Section ImageLoad.
Context {hdr : Header}.

Lemma fread_open n name rest :
  fread n {| f_name := name; f_rest := rest; f_open := true |}
  = Done (take (if n <? 0 then length rest else Z.to_nat n) rest,
          {| f_name := name;
             f_rest := drop (if n <? 0 then length rest else Z.to_nat n) rest;
             f_open := true |}).
Proof. reflexivity. Qed.

(** The header checks of [ep_image_load] pass on the files that start with
    the header of an image and on no other; past them, the pixels are read
    in one piece, and the branch of the short payload ends in the second
    [fclose]. *)
Lemma ep_image_load_header name error_code w contents :
  files w !! name = Some contents ->
  (exists width height,
     image_header contents width height /\
     ep_image_load name error_code w =
     match malloc (wrap32 (round_up_to_8n width * height)) w with
     | (None, w1) => Done ((ep_image_create_empty, set_error error_code ERR_MEMORY), w1)
     | (Some q, w1) =>
         let data_size := wrap32 (width * height) in
         let pixels :=
           take (if data_size <? 0 then length (drop 12 contents) else Z.to_nat data_size)
                (drop 12 contents) in
         do w2 <- store_bytes q pixels w1;
         if Z.of_nat (length pixels) =? data_size then
           Done (({| img_data := Some q; img_width := width; img_height := height;
                     img_step := round_up_to_8n width |},
                  set_error error_code ERR_SUCCESS), w2)
         else do w3 <- free (Some q) w2; Stopped UndefinedBehaviour
     end) \/
  ((forall width height, ~ image_header contents width height) /\
   ep_image_load name error_code w
   = Done ((ep_image_create_empty, set_error error_code ERR_FILE_CONTENTS), w)).
Proof.
  intros Hfile. unfold ep_image_load, fopen_rb. rewrite Hfile.
  rewrite fread_open. change (4 <? 0) with false. cbv iota.
  change (Z.to_nat 4) with 4%nat. cbn [obind].
  destruct (Nat.eqb_spec (length (take 4 contents)) 4) as [Hl1|Hl1]; cbn [negb orb].
  2:{ right. split; [|done]. intros width height (Hlen & _).
      rewrite length_take in Hl1. lia. }
  destruct (Z.eqb_spec (int_of_bytes (take 4 contents)) FILE_ID_IMAGE) as [Hid|Hid];
    cbn [negb].
  2:{ right. split; [|done]. by intros width height (_ & ? & _). }
  rewrite fread_open. change (4 <? 0) with false. cbv iota.
  change (Z.to_nat 4) with 4%nat. cbn [obind].
  destruct (Nat.eqb_spec (length (take 4 (drop 4 contents))) 4) as [Hl2|Hl2];
    cbn [negb orb].
  2:{ right. split; [|done]. intros width height (Hlen & _).
      rewrite length_take, length_drop in Hl2. lia. }
  destruct (Z.leb_spec (int_of_bytes (take 4 (drop 4 contents))) 0) as [Hwd|Hwd].
  { right. split; [|done]. intros width height (_ & _ & <- & _ & ? & _). lia. }
  rewrite fread_open. change (4 <? 0) with false. cbv iota.
  change (Z.to_nat 4) with 4%nat. cbn [obind]. rewrite !drop_drop.
  change (4 + 4)%nat with 8%nat. change (8 + 4)%nat with 12%nat.
  destruct (Nat.eqb_spec (length (take 4 (drop 8 contents))) 4) as [Hl3|Hl3];
    cbn [negb orb].
  2:{ right. split; [|done]. intros width height (Hlen & _).
      rewrite length_take, length_drop in Hl3. lia. }
  destruct (Z.leb_spec (int_of_bytes (take 4 (drop 8 contents))) 0) as [Hht|Hht].
  { right. split; [|done]. intros width height (_ & _ & _ & <- & _ & ?). lia. }
  left. eexists _, _. split.
  { rewrite length_take, length_drop in Hl3. repeat split; try done. lia. }
  unfold ep_image_create.
  destruct (malloc _ w) as [[q|] w1]; cbn [img_data]; [|done].
  rewrite fread_open. cbn [obind].
  destruct (store_bytes q _ w1) as [w2|f]; cbn [obind]; [|done].
  destruct (_ =? _); cbn [negb]; [done|].
  unfold ep_image_release. cbn [obind fclose f_open img_data].
  by destruct (free (Some q) w2).
Qed.

(** A block that [malloc] has just made takes the bytes that fit it. *)
Lemma store_bytes_malloc n w q w1 l :
  malloc n w = (Some q, w1) -> Z.of_nat (length l) <= n ->
  exists w2, store_bytes q l w1 = Done w2 /\ heap w2 !! q.1 <> None /\ q.2 = 0.
Proof.
  unfold malloc. intros H Hl.
  destruct (Z.leb_spec 0 n); [|done]. destruct (n <=? alloc_limit w); [|done].
  injection H as <- <-. unfold store_bytes. cbn [fst snd heap].
  rewrite lookup_insert_eq, length_map, length_seq.
  destruct (Z.leb_spec (0 + Z.of_nat (length l)) (Z.of_nat (Z.to_nat n))); [|lia].
  change (0 <=? 0) with true. cbn [andb]. eexists. split; [done|].
  cbn [set_heap heap]. by rewrite lookup_insert_eq.
Qed.

End ImageLoad.

(** X9. Whatever the file holds, [ep_image_load] ends in one of three ways.
    An image it returns with [ERR_SUCCESS] is not empty, has the positive
    width and height of the file and the step of a new image.  With any
    other code the image returned is empty and the heap is as it was before
    the call.  And a run that does not return is undefined: the file starts
    with the header of an image, and its pixel payload is shorter than width
    times height or the size of the buffer does not fit an [int].  Every
    file with the header of an image whose buffer can be allocated and whose
    payload is short is such a file: the code [ERR_FILE_CONTENTS] never
    comes back for it. *)
Theorem ep_image_load_codes `{hdr : Header} (name : string) (e0 : EpErrorCode)
    (w : World) :
  heap w !! next_block w = None ->
  (forall loaded code w',
     ep_image_load name (Some e0) w = Done ((loaded, code), w') ->
     (code = Some ERR_SUCCESS /\ ep_image_is_empty loaded = false /\
      0 < img_width loaded /\ 0 < img_height loaded /\
      img_step loaded = round_up_to_8n (img_width loaded)) \/
     ((code = Some ERR_FILE \/ code = Some ERR_FILE_CONTENTS \/ code = Some ERR_MEMORY) /\
      loaded = ep_image_create_empty /\ heap w' = heap w)) /\
  (forall f,
     ep_image_load name (Some e0) w = Stopped f ->
     f = UndefinedBehaviour /\
     exists contents width height,
       files w !! name = Some contents /\ image_header contents width height /\
       (Z.of_nat (length (drop 12 contents)) < width * height \/
        2 ^ 31 <= width + 7 \/ 2 ^ 31 <= round_up_to_8n width * height)) /\
  (forall contents width height,
     files w !! name = Some contents -> image_header contents width height ->
     width + 7 < 2 ^ 31 ->
     round_up_to_8n width * height < 2 ^ 31 ->
     round_up_to_8n width * height <= alloc_limit w ->
     Z.of_nat (length (drop 12 contents)) < width * height ->
     ep_image_load name (Some e0) w = Stopped UndefinedBehaviour).
Proof.
  intros Hfresh.
  destruct (files w !! name) as [contents|] eqn:Hfile.
  2:{ unfold ep_image_load, fopen_rb. rewrite Hfile. split; [|split]; [|done..].
      intros loaded code w' [= <- <- <-]. right. by intuition. }
  destruct (ep_image_load_header name (Some e0) w contents Hfile)
    as [(width & height & Hheader & ->)|(Hnone & ->)].
  2:{ split; [|split]; [|done|].
      - intros loaded code w' [= <- <- <-]. right. by intuition.
      - intros c wd ht [= <-] Hheader. by destruct (Hnone wd ht). }
  pose proof Hheader as (_ & _ & _ & _ & Hwidth & Hheight).
  destruct (malloc _ w) as [[q|] w1] eqn:Hm.
  2:{ pose proof (malloc_None _ _ _ Hm) as ->. split; [|split]; [|done|].
      - intros loaded code w' [= <- <- <-]. right. by intuition.
      - intros c wd ht [= <-] Hheader' Hround Hfits Hlimit _.
        destruct Hheader as (_ & _ & Hw & Hh & _), Hheader' as (_ & _ & Hw' & Hh' & _).
        assert (wd = width) as -> by congruence.
        assert (ht = height) as -> by congruence.
        exfalso. revert Hm. unfold malloc.
        pose proof (round_up_to_8n_bounds width ltac:(lia)) as Hup.
        rewrite wrap32_small by nia.
        destruct (Z.leb_spec 0 (round_up_to_8n width * height)); [|nia].
        by destruct (Z.leb_spec (round_up_to_8n width * height) (alloc_limit w)); [|lia]. }
  cbv zeta. split; [|split].
  - intros loaded code w' H. apply obind_Done in H as (w2 & _ & H).
    destruct (_ =? _).
    + injection H as <- <- <-. left. by repeat split.
    + by apply obind_Done in H as (? & _ & ?).
  - intros f H. split.
    { revert f H. apply only_undefined_bind.
      - unfold store_bytes. destruct (heap w1 !! q.1); [|auto with undefined].
        destruct (_ && _); auto with undefined.
      - intros w2 _. destruct (_ =? _); [auto with undefined|].
        apply only_undefined_bind; [apply only_undefined_free|]. auto with undefined. }
    exists contents, width, height. split; [done|]. split; [done|].
    destruct (Z.lt_ge_cases (Z.of_nat (length (drop 12 contents))) (width * height))
      as [|Hlong]; [by left|right].
    destruct (Z.lt_ge_cases (width + 7) (2 ^ 31)) as [Hround|]; [|by left]. right.
    destruct (Z.lt_ge_cases (round_up_to_8n width * height) (2 ^ 31)) as [Hfits|];
      [exfalso|done].
    pose proof (round_up_to_8n_bounds width ltac:(lia)) as Hup.
    rewrite wrap32_small in Hm by nia. rewrite (wrap32_small (width * height)) in H by nia.
    destruct (Z.ltb_spec (width * height) 0); [nia|].
    assert (length (take (Z.to_nat (width * height)) (drop 12 contents))
            = Z.to_nat (width * height)) as Hlen by (rewrite length_take; lia).
    destruct (store_bytes_malloc _ _ _ _ (take (Z.to_nat (width * height))
                                            (drop 12 contents)) Hm)
      as (w2 & Hstore & _); [nia|].
    rewrite Hstore in H. cbn [obind] in H. rewrite Hlen in H.
    by destruct (Z.eqb_spec (Z.of_nat (Z.to_nat (width * height))) (width * height));
      [|lia].
  - intros c wd ht [= <-] Hheader' Hround Hfits Hlimit Hshort.
    destruct Hheader as (_ & _ & Hw & Hh & _), Hheader' as (_ & _ & Hw' & Hh' & _).
    assert (wd = width) as -> by congruence. assert (ht = height) as -> by congruence.
    pose proof (round_up_to_8n_bounds width ltac:(lia)) as Hup.
    rewrite wrap32_small in Hm by nia. rewrite (wrap32_small (width * height)) by nia.
    destruct (Z.ltb_spec (width * height) 0); [nia|].
    assert (length (take (Z.to_nat (width * height)) (drop 12 contents))
            = length (drop 12 contents)) as Hlen by (rewrite length_take; lia).
    destruct (store_bytes_malloc _ _ _ _ (take (Z.to_nat (width * height))
                                            (drop 12 contents)) Hm)
      as (w2 & Hstore & Hlive & Hoff); [nia|].
    rewrite Hstore. cbn [obind]. rewrite Hlen.
    destruct (Z.eqb_spec (Z.of_nat (length (drop 12 contents))) (width * height)); [lia|].
    unfold free. destruct q as [b off]. cbn [fst snd] in Hlive, Hoff. subst off.
    by destruct (heap w2 !! b).
Qed.

(** ** Image files *)

Lemma readable_same_heap w w' p n : heap w' = heap w -> readable w p n -> readable w' p n.
Proof. unfold readable. by intros ->. Qed.

Lemma byte_at_same_memory w w' p i : same_memory w w' -> byte_at w' p i = byte_at w p i.
Proof. intros (Hh & _). apply byte_at_same_heap. by rewrite Hh. Qed.

(** The rows [save_rows] writes when the disk has room for them. *)
Lemma save_rows_writes n q width step file w old :
  f_open file = true -> 0 < width ->
  (forall j, 0 <= j < Z.of_nat n -> readable w (ptr_add q (j * step)) width) ->
  Z.of_nat n * width <= disk_free w ->
  files w !! f_name file = Some old ->
  exists w' rows,
    save_rows n q width step file w = Done (None, w') /\ same_memory w w' /\
    files w' !! f_name file = Some (old ++ rows) /\
    length rows = (n * Z.to_nat width)%nat /\
    forall j i, 0 <= j < Z.of_nat n -> 0 <= i < width ->
      rows !! Z.to_nat (j * width + i) = byte_at w q (j * step + i).
Proof.
  intros Hopen Hwidth. revert q w old.
  induction n as [|n IH]; intros q w old Hread Hdisk Hold.
  - exists w, []. cbn [save_rows]. split; [done|]. split; [apply same_memory_refl|].
    split; [by rewrite app_nil_r|]. split; [done|]. intros; lia.
  - cbn [save_rows].
    assert (readable w q width) as Hrow.
    { destruct (Hread 0 ltac:(lia)) as (block & Hb & Hlo & Hhi).
      cbn [ptr_add fst snd] in *. exists block. split; [done|]. lia. }
    destruct (load_bytes_readable w q width Hrow ltac:(lia)) as [row Hload].
    rewrite Hload. cbn [obind].
    apply load_bytes_Done in Hload as (_ & Hlen & _ & Hbytes).
    destruct (fwrite_all row file w Hopen ltac:(lia))
      as (w1 & -> & Hm1 & _ & Hd1 & Hf1).
    cbn [obind]. replace (Z.of_nat (length row)) with width by lia.
    rewrite Z.eqb_refl.
    destruct (IH (ptr_add q step) w1 (old ++ row)) as (w' & rows & -> & Hm & Hf & Hl & Hr).
    + intros j Hj. destruct (Hread (j + 1) ltac:(lia)) as (block & Hb & Hlo & Hhi).
      cbn [ptr_add fst snd] in *. exists block. cbn [ptr_add fst snd].
      split; [by rewrite (proj1 Hm1)|]. lia.
    + lia.
    + by rewrite Hf1, lookup_insert_eq, Hold.
    + exists w', (row ++ rows). split; [done|].
      split; [by apply (same_memory_trans _ w1)|].
      split; [by rewrite Hf, app_assoc|].
      split; [rewrite length_app; lia|].
      intros j i Hj Hi. destruct (decide (j = 0)) as [->|Hne].
      * rewrite lookup_app_l by lia. rewrite <- Hbytes by lia. done.
      * rewrite lookup_app_r by nia.
        replace (Z.to_nat (j * width + i) - length row)%nat
          with (Z.to_nat ((j - 1) * width + i)) by nia.
        rewrite Hr by lia. rewrite byte_at_ptr_add, (byte_at_same_memory w w1) by done.
        f_equal. lia.
Qed.

Section ImageFiles.
Context {hdr : Header}.

(** What [ep_image_save] writes when nothing stands in its way: the file
    identifier, the width, the height, and the pixels row by row without the
    bytes between the rows. *)
Lemma ep_image_save_writes image name w p :
  img_data image = Some p -> 0 < img_width image -> 0 < img_height image ->
  (forall y, 0 <= y < img_height image ->
             readable w (ptr_add p (y * img_step image)) (img_width image)) ->
  read_only w name = false ->
  img_width image * img_height image + 12 <= disk_free w ->
  exists w' pixels,
    ep_image_save image name w = Done (ERR_SUCCESS, w') /\ same_memory w w' /\
    files w' !! name = Some (int_bytes FILE_ID_IMAGE ++ int_bytes (img_width image) ++
                             int_bytes (img_height image) ++ pixels) /\
    length pixels = Z.to_nat (img_width image * img_height image) /\
    forall x y, 0 <= x < img_width image -> 0 <= y < img_height image ->
      pixels !! Z.to_nat (y * img_width image + x) = byte_at w p (y * img_step image + x).
Proof.
  intros Hp Hw Hh Hread Hro Hdisk. unfold ep_image_save. rewrite Hp.
  destruct (Z.leb_spec (img_width image) 0); [lia|].
  destruct (Z.leb_spec (img_height image) 0); [lia|]. cbn [orb].
  unfold fopen_wb. rewrite Hro.
  set (file := {| f_name := name; f_rest := []; f_open := true |}).
  set (w0 := set_files (<[name := []]> (files w)) (disk_free w) w).
  assert (same_memory w w0) as Hm0 by (by repeat split).
  destruct (fwrite_all (int_bytes FILE_ID_IMAGE) file w0 eq_refl)
    as (w1 & -> & Hm1 & _ & Hd1 & Hf1); [cbn; nia|].
  cbn [obind]. rewrite length_int_bytes. change (Z.of_nat 4 =? 4) with true.
  cbn [negb]. cbv zeta.
  destruct (fwrite_all (int_bytes (img_width image)) file w1 eq_refl)
    as (w2 & -> & Hm2 & _ & Hd2 & Hf2); [rewrite Hd1; cbn; nia|].
  cbn [obind]. rewrite length_int_bytes. change (Z.of_nat 4 =? 4) with true.
  cbn [negb].
  destruct (fwrite_all (int_bytes (img_height image)) file w2 eq_refl)
    as (w3 & -> & Hm3 & _ & Hd3 & Hf3); [rewrite Hd2, Hd1; cbn; nia|].
  cbn [obind]. rewrite length_int_bytes. change (Z.of_nat 4 =? 4) with true.
  cbn [negb].
  assert (same_memory w w3) as Hm.
  { apply (same_memory_trans _ w2); [|done]. apply (same_memory_trans _ w1); [|done].
    by apply (same_memory_trans _ w0). }
  assert (files w3 !! name = Some (int_bytes FILE_ID_IMAGE ++ int_bytes (img_width image)
                                   ++ int_bytes (img_height image))) as Hheader.
  { rewrite Hf3, Hf2, Hf1. cbn [file f_name w0 files set_files].
    rewrite !lookup_insert_eq. cbn [default]. unfold id.
    by rewrite app_nil_l, <- app_assoc. }
  assert (disk_free w3 = disk_free w - 12) as Hd.
  { rewrite Hd3, Hd2, Hd1. cbn. lia. }
  destruct (Z.eqb_spec (img_step image) (img_width image)) as [Hstep|Hstep].
  - assert (readable w p (img_width image * img_height image)) as Hall.
    { destruct (Hread 0 ltac:(lia)) as (block & Hb & Hlo & _).
      destruct (Hread (img_height image - 1) ltac:(lia)) as (block' & Hb' & _ & Hhi).
      cbn [ptr_add fst snd] in *. exists block. split; [done|]. split; [lia|].
      rewrite Hb in Hb'. injection Hb' as <-. rewrite Hstep in Hhi. lia. }
    destruct (load_bytes_readable w p _ Hall ltac:(nia)) as [pixels Hload].
    rewrite (load_bytes_same_heap w w3) by apply Hm. rewrite Hload. cbn [obind].
    apply load_bytes_Done in Hload as (_ & Hlen & _ & Hbytes).
    destruct (fwrite_all pixels file w3 eq_refl) as (w4 & -> & Hm4 & _ & _ & Hf4);
      [lia|].
    cbn [obind].
    replace (Z.of_nat (length pixels)) with (img_width image * img_height image) by lia.
    rewrite Z.eqb_refl. cbn [negb fclose f_open file obind].
    exists w4, pixels. split; [done|]. split; [by apply (same_memory_trans _ w3)|].
    split.
    { rewrite Hf4. cbn [file f_name]. rewrite lookup_insert_eq, Hheader. cbn [default].
      unfold id. by rewrite <- !app_assoc. }
    split; [done|]. intros x y Hx Hy. rewrite Hstep. symmetry. apply Hbytes. nia.
  - destruct (save_rows_writes (Z.to_nat (img_height image)) p (img_width image)
                (img_step image) file w3
                (int_bytes FILE_ID_IMAGE ++ int_bytes (img_width image)
                   ++ int_bytes (img_height image)) eq_refl Hw)
      as (w4 & rows & -> & Hm4 & Hf4 & Hlen & Hrows).
    + intros j Hj. apply (readable_same_heap w); [apply Hm|]. apply Hread. lia.
    + lia.
    + exact Hheader.
    + cbn [obind fclose f_open file].
      exists w4, rows. split; [done|]. split; [by apply (same_memory_trans _ w3)|].
      cbn [file f_name] in Hf4.
      split; [by rewrite Hf4, <- !app_assoc|]. split; [lia|].
      intros x y Hx Hy. rewrite Hrows by lia. by apply byte_at_same_memory.
Qed.

(** What [ep_image_load] does with a file of the right form: the pixels go
    to the start of the new buffer in one piece. *)
Lemma ep_image_load_reads name error_code w width height pixels :
  wrap32 FILE_ID_IMAGE = FILE_ID_IMAGE ->
  files w !! name = Some (int_bytes FILE_ID_IMAGE ++ int_bytes width ++
                          int_bytes height ++ pixels) ->
  0 < width < 2 ^ 31 -> 0 < height < 2 ^ 31 ->
  width + 7 < 2 ^ 31 -> round_up_to_8n width * height < 2 ^ 31 ->
  length pixels = Z.to_nat (width * height) ->
  round_up_to_8n width * height <= alloc_limit w ->
  exists w2 rest,
    heap w2 = <[next_block w := pixels ++ rest]> (heap w) /\
    length (pixels ++ rest) = Z.to_nat (round_up_to_8n width * height) /\
    ep_image_load name error_code w =
    Done (({| img_data := Some (next_block w, 0); img_width := width;
              img_height := height; img_step := round_up_to_8n width |},
           set_error error_code ERR_SUCCESS), w2).
Proof.
  intros Hid Hfile Hw Hh Hround Hfits Hlen Hlimit. unfold ep_image_load, fopen_rb.
  pose proof (round_up_to_8n_bounds width ltac:(lia)) as Hup.
  rewrite Hfile. unfold fread at 1. cbn [f_open f_rest f_name obind].
  change (Z.to_nat 4) with 4%nat.
  rewrite (take_app_length' (int_bytes FILE_ID_IMAGE)) by done.
  rewrite (drop_app_length' (int_bytes FILE_ID_IMAGE)) by done.
  rewrite length_int_bytes, int_of_bytes_int_bytes, Hid, Z.eqb_refl.
  change (negb (4 =? 4)%nat || negb true) with false. cbv iota.
  unfold fread at 1. cbn [f_open f_rest f_name obind]. change (Z.to_nat 4) with 4%nat.
  rewrite (take_app_length' (int_bytes width)) by done.
  rewrite (drop_app_length' (int_bytes width)) by done.
  rewrite length_int_bytes, int_of_bytes_int_bytes, wrap32_small by lia.
  destruct (Z.leb_spec width 0); [lia|].
  change (negb (4 =? 4)%nat || false) with false. cbv iota.
  unfold fread at 1. cbn [f_open f_rest f_name obind]. change (Z.to_nat 4) with 4%nat.
  rewrite (take_app_length' (int_bytes height)) by done.
  rewrite (drop_app_length' (int_bytes height)) by done.
  rewrite length_int_bytes, int_of_bytes_int_bytes, wrap32_small by lia.
  destruct (Z.leb_spec height 0); [lia|].
  change (negb (4 =? 4)%nat || false) with false. cbv iota.
  unfold ep_image_create, malloc.
  rewrite (wrap32_small (round_up_to_8n width * height)) by nia.
  rewrite (wrap32_small (width * height)) by nia.
  destruct (Z.leb_spec 0 (round_up_to_8n width * height)); [|nia].
  destruct (Z.leb_spec (round_up_to_8n width * height) (alloc_limit w)); [|lia].
  cbn [andb img_data].
  unfold fread. cbn [f_open f_rest f_name obind].
  destruct (Z.ltb_spec (width * height) 0); [nia|].
  rewrite take_ge by lia.
  unfold store_bytes. cbn [fst snd heap]. rewrite lookup_insert_eq.
  rewrite length_map, length_seq.
  destruct (Z.leb_spec (0 + Z.of_nat (length pixels))
              (Z.of_nat (Z.to_nat (round_up_to_8n width * height)))); [|nia].
  change (0 <=? 0) with true. cbn [andb obind].
  replace (Z.of_nat (length pixels)) with (width * height) by lia. rewrite Z.eqb_refl.
  cbn [negb obind fclose f_open].
  eexists _, _. split; [|split; [|reflexivity]].
  - cbn [set_heap heap]. rewrite insert_insert_eq. f_equal.
  - rewrite length_app, length_drop, length_map, length_seq. nia.
Qed.

End ImageFiles.

(** X12. An image whose width is a multiple of 8 survives the round trip
    through a file: saved to a writable file on a disk with room for it, it
    loads again with [ERR_SUCCESS], with the same width and height, the same
    pixels and the same checksum, whatever the step of the image saved. *)
Theorem image_save_load_round_trip `{hdr : Header} (image : EpImage) (name : string)
    (e0 : EpErrorCode) (w : World) (p : ptr) :
  wrap32 FILE_ID_IMAGE = FILE_ID_IMAGE ->
  img_data image = Some p ->
  0 < img_width image -> 0 < img_height image -> img_width image mod 8 = 0 ->
  img_width image * img_height image < 2 ^ 31 ->
  (forall y, 0 <= y < img_height image ->
             readable w (ptr_add p (y * img_step image)) (img_width image)) ->
  read_only w name = false ->
  img_width image * img_height image + 12 <= disk_free w ->
  img_width image * img_height image <= alloc_limit w ->
  exists w1 loaded w2,
    ep_image_save image name w = Done (ERR_SUCCESS, w1) /\
    ep_image_load name (Some e0) w1 = Done ((loaded, Some ERR_SUCCESS), w2) /\
    img_width loaded = img_width image /\ img_height loaded = img_height image /\
    (forall x y, 0 <= x < img_width image -> 0 <= y < img_height image ->
       exists v, pixel w2 loaded x y = Done v /\ pixel w image x y = Done v) /\
    exists s, ep_image_checksum loaded w2 = Done s /\ ep_image_checksum image w = Done s.
Proof.
  intros Hid Hp Hw Hh Hgrid Hint Hread Hro Hdisk Hlimit.
  destruct (ep_image_save_writes image name w p Hp Hw Hh Hread Hro Hdisk)
    as (w1 & pixels & Hsave & (Hheap1 & Hnext1 & Hlimit1 & _) & Hfile & Hlen & Hpix).
  assert (img_width image + 7 < 2 ^ 31) as Hround.
  { pose proof (Z.div_mod (img_width image) 8 ltac:(lia)). nia. }
  pose proof (round_up_to_8n_fixed _ Hgrid ltac:(lia)) as Hfix.
  destruct (ep_image_load_reads name (Some e0) w1 (img_width image) (img_height image)
              pixels Hid Hfile ltac:(nia) ltac:(nia) Hround ltac:(rewrite Hfix; lia) Hlen)
    as (w2 & rest & Hheap2 & _ & Hload); [rewrite Hfix, Hlimit1; lia|].
  rewrite Hfix, Hnext1 in Hload. rewrite Hnext1 in Hheap2.
  set (loaded := {| img_data := Some (next_block w, 0); img_width := img_width image;
                    img_height := img_height image; img_step := img_width image |})
    in *.
  assert (forall x y, 0 <= x < img_width image -> 0 <= y < img_height image ->
            exists v, pixel w2 loaded x y = Done v /\ pixel w image x y = Done v)
    as Hsame.
  { intros x y Hx Hy.
    rewrite (pixel_byte_at w2 loaded (next_block w, 0)) by done.
    rewrite (pixel_byte_at w image p) by done. cbn [loaded img_step].
    rewrite (byte_at_block w2 _ (pixels ++ rest))
      by (by rewrite Hheap2, lookup_insert_eq || nia).
    rewrite lookup_app_l by nia. rewrite Hpix by done.
    rewrite <- Hpix by done.
    destruct (lookup_lt_is_Some_2 pixels (Z.to_nat (y * img_width image + x))
                ltac:(nia)) as [c ->].
    by eexists. }
  exists w1, loaded, w2. split; [done|]. split; [done|]. split; [done|].
  split; [done|]. split; [exact Hsame|].
  eexists. split.
  - apply ep_image_checksum_sum; try done; cbn [loaded img_width img_height]; try lia.
    intros x y Hx Hy. destruct (Hsame x y Hx Hy) as (v & Hv & _). by exists v.
  - rewrite ep_image_checksum_sum; try lia.
    + f_equal. cbn [loaded img_width img_height].
      apply sum_over_ext. intros y Hy. apply sum_over_ext. intros x Hx.
      destruct (Hsame x y ltac:(lia) ltac:(lia)) as (v & Hv1 & Hv2).
      unfold pixel_value. by rewrite Hv1, Hv2.
    + unfold ep_image_is_empty. by rewrite Hp.
    + intros x y Hx Hy. destruct (Hsame x y Hx Hy) as (v & _ & Hv). by exists v.
Qed.

(** ** Growable lists *)

(** X15. [ep_rect_list_reserve] leaves the list as it is when it fails;
    when it succeeds, as many rectangles as were asked for can be added
    without a reallocation: each [ep_rect_list_add] succeeds in any world,
    also one that grants no memory, the rectangles are appended in order and
    the capacity stays. *)
Theorem ep_rect_list_reserve_then_add `{hdr : Header} (w : World) (l : EpRectList)
    (count : Z) (e : EpErrorCode) (l1 : EpRectList) :
  0 <= MAX_DETECTIONS_PER_TILE ->
  ep_rect_list_reserve w l count = (e, l1) ->
  (e = ERR_MEMORY /\ l1 = l) \/
  (e = ERR_SUCCESS /\ rects l1 = rects l /\
   forall w' items, Z.of_nat (length items) <= count ->
     add_rects w' l1 items
     = (repeat ERR_SUCCESS (length items),
        {| rects := rects l ++ items; rects_capacity := rects_capacity l1 |})).
Proof.
  intros Hmax H.
  assert (forall (l2 : EpRectList) (c : Z),
            rects l2 = rects l -> rects_count l + c <= rects_capacity l2 ->
            forall w' items, Z.of_nat (length items) <= c ->
              add_rects w' l2 items
              = (repeat ERR_SUCCESS (length items),
                 {| rects := rects l ++ items; rects_capacity := rects_capacity l2 |}))
    as Hadds.
  { intros l2 c Hrects Hroom w' items. unfold rects_count in Hroom.
    revert l2 c Hrects Hroom. generalize (rects l) as old.
    induction items as [|r rest IH]; intros old l2 c Hrects Hroom Hlen.
    - cbn [add_rects length repeat]. rewrite app_nil_r. destruct l2. cbn in *.
      by rewrite Hrects.
    - cbn [length] in Hlen. cbn [add_rects]. unfold ep_rect_list_add.
      unfold rects_count. rewrite Hrects.
      destruct (Z.eqb_spec (Z.of_nat (length old)) (rects_capacity l2)); [lia|].
      rewrite (IH (old ++ [r]) _ (c - 1)); cbn [rects rects_capacity].
      + cbn [length repeat]. by rewrite <- app_assoc.
      + by destruct r.
      + rewrite length_app. cbn [length]. lia.
      + lia. }
  unfold ep_rect_list_reserve in H.
  destruct (Z.leb_spec (rects_count l + count) (rects_capacity l)).
  - injection H as <- <-. right. split; [done|]. split; [done|]. by apply Hadds.
  - destruct (realloc_ok w _).
    + injection H as <- <-. right. split; [done|]. split; [done|].
      apply Hadds; cbn [rects rects_capacity]; [done|lia].
    + injection H as <- <-. by left.
Qed.

(** X16. Adding to a list keeps the invariant that buffers rely on: a list
    whose count does not exceed its capacity is left in that state by
    [ep_rect_list_add], [ep_task_list_add] and [ep_img_list_add], and a call
    that returns [ERR_MEMORY] leaves the list as it was. *)
Theorem list_add_keeps_room `{hdr : Header} (w : World) :
  0 < MAX_DETECTIONS_PER_TILE ->
  (forall l x y wd ht e l',
     rects_count l <= rects_capacity l ->
     ep_rect_list_add w l x y wd ht = (e, l') ->
     rects_count l' <= rects_capacity l' /\ (e = ERR_MEMORY -> l' = l) /\
     (e = ERR_SUCCESS \/ e = ERR_MEMORY)) /\
  (forall l offset width height step scan_mode items_count image_index e l',
     tasks_count l <= tasks_capacity l ->
     ep_task_list_add w l offset width height step scan_mode items_count image_index
     = (e, l') ->
     tasks_count l' <= tasks_capacity l' /\ (e = ERR_MEMORY -> l' = l) /\
     (e = ERR_SUCCESS \/ e = ERR_MEMORY)) /\
  (forall l step width height e l',
     imgs_count l <= imgs_capacity l ->
     ep_img_list_add w l step width height = (e, l') ->
     imgs_count l' <= imgs_capacity l' /\ (e = ERR_MEMORY -> l' = l) /\
     (e = ERR_SUCCESS \/ e = ERR_MEMORY)).
Proof.
  intros Hmax. split; [|split].
  - intros l x y wd ht e l' Hroom. unfold ep_rect_list_add, rects_count in *.
    destruct (Z.eqb_spec (Z.of_nat (length (rects l))) (rects_capacity l)).
    + destruct (realloc_ok w _); intros [= <- <-]; cbn [rects rects_capacity];
        rewrite ?length_app; cbn [length];
        intuition (try discriminate; try lia; auto).
    + intros [= <- <-]; cbn [rects rects_capacity]; rewrite ?length_app; cbn [length];
        intuition (try discriminate; try lia; auto).
  - intros l offset width height step scan_mode items_count image_index e l' Hroom.
    unfold ep_task_list_add, tasks_count in *.
    destruct (Z.eqb_spec (Z.of_nat (length (tasks l))) (tasks_capacity l)).
    + destruct (realloc_ok w _); intros [= <- <-]; cbn [tasks tasks_capacity];
        rewrite ?length_app; cbn [length];
        intuition (try discriminate; try lia; auto).
    + intros [= <- <-]; cbn [tasks tasks_capacity]; rewrite ?length_app; cbn [length];
        intuition (try discriminate; try lia; auto).
  - intros l step width height e l' Hroom. unfold ep_img_list_add, imgs_count in *.
    destruct (Z.eqb_spec (Z.of_nat (length (imgs l))) (imgs_capacity l)).
    + destruct (realloc_ok w _); intros [= <- <-]; cbn [imgs imgs_capacity];
        rewrite ?length_app; cbn [length];
        intuition (try discriminate; try lia; auto).
    + intros [= <- <-]; cbn [imgs imgs_capacity]; rewrite ?length_app; cbn [length];
        intuition (try discriminate; try lia; auto).
Qed.

Lemma laid_out_app start l i :
  laid_out start l -> prop_data_offset i = end_offset start l -> laid_out start (l ++ [i]).
Proof.
  revert start. induction l as [|j rest IH]; intros start; cbn [laid_out app].
  - unfold end_offset. cbn [fold_left]. by intros _ ->.
  - intros [Hj Hrest] Hi. split; [done|]. apply IH; [done|].
    unfold end_offset in *. by cbn [fold_left] in Hi.
Qed.

Lemma end_offset_app start l i :
  end_offset start (l ++ [i]) = end_offset start l + prop_step i * prop_height i.
Proof. unfold end_offset. by rewrite fold_left_app. Qed.

(** X17. The image list lays the images out one after the other: a new
    list starts and ends at its start offset, and [ep_img_list_add] gives
    the new image the offset where the last one ends, moves the end by
    [step * height] and remembers the old end in [prev_offset]. *)
Theorem ep_img_list_add_lays_out `{hdr : Header} (w : World) (start : Z) :
  (laid_out start (imgs (ep_img_list_create_empty start)) /\
   cur_offset (ep_img_list_create_empty start)
   = end_offset start (imgs (ep_img_list_create_empty start))) /\
  forall l step width height l',
    laid_out start (imgs l) -> cur_offset l = end_offset start (imgs l) ->
    ep_img_list_add w l step width height = (ERR_SUCCESS, l') ->
    laid_out start (imgs l') /\ cur_offset l' = end_offset start (imgs l') /\
    prev_offset l' = cur_offset l /\
    imgs l' = imgs l ++ [{| prop_data_offset := cur_offset l; prop_step := step;
                            prop_width := width; prop_height := height |}].
Proof.
  split; [done|]. intros l step width height l' Hlaid Hend. unfold ep_img_list_add.
  destruct (if imgs_count l =? imgs_capacity l then _ else _); [|discriminate].
  intros [= <-]. cbn [imgs cur_offset prev_offset].
  split; [by apply laid_out_app|]. split; [|done].
  rewrite end_offset_app. cbn [prop_step prop_height]. lia.
Qed.

(** ** The pyramid kernels *)

Lemma weighted_sum_bounds blk lo hi terms :
  length blk = 64%nat -> Forall (fun v => lo <= v <= hi) blk ->
  forallb (fun t : Z * Z * Z =>
             (0 <=? t.2) && (0 <=? 8 * t.1.1 + t.1.2) && (8 * t.1.1 + t.1.2 <? 64))
          terms = true ->
  lo * foldr Z.add 0 (map (fun t : Z * Z * Z => t.2) terms)
  <= weighted_sum blk terms
  <= hi * foldr Z.add 0 (map (fun t : Z * Z * Z => t.2) terms).
Proof.
  intros Hlen Hblk. unfold weighted_sum.
  assert (forall acc,
            forallb (fun t : Z * Z * Z =>
                       (0 <=? t.2) && (0 <=? 8 * t.1.1 + t.1.2)
                       && (8 * t.1.1 + t.1.2 <? 64)) terms = true ->
            acc + lo * foldr Z.add 0 (map (fun t : Z * Z * Z => t.2) terms)
            <= fold_left (fun acc t => acc + s8p blk t.1.1 t.1.2 * t.2) terms acc
            <= acc + hi * foldr Z.add 0 (map (fun t : Z * Z * Z => t.2) terms)) as H.
  { induction terms as [|t rest IH]; intros acc Hok; cbn [fold_left map foldr forallb] in *.
    - lia.
    - apply andb_true_iff in Hok as [Ht Hrest].
      apply andb_true_iff in Ht as [Ht Hhi]. apply andb_true_iff in Ht as [Hwt Hlo].
      apply Z.leb_le in Hwt, Hlo. apply Z.ltb_lt in Hhi.
      specialize (IH (acc + s8p blk t.1.1 t.1.2 * t.2) Hrest).
      assert (lo <= s8p blk t.1.1 t.1.2 <= hi) as Hpix.
      { unfold s8p. rewrite Forall_forall in Hblk. apply Hblk.
        apply list_elem_of_In, nth_In. rewrite Hlen. lia. }
      nia. }
  intros Hok. specialize (H 0 Hok). lia.
Qed.

(** X18. Every pixel [scale8765] writes is an average of pixels of the 8x8
    source block: for each of the 110 assignments, the value stored lies
    between the least and the greatest pixel of the block.  So no value
    overflows a byte, and a flat block gives flat results. *)
Theorem scale8765_averages (blk : list Z) (lo hi : Z) :
  length blk = 64%nat -> 0 <= lo -> Forall (fun v => lo <= v <= hi) blk ->
  Forall (fun entry : Z * Z * list (Z * Z * Z) * Z * Z =>
            lo <= Z.quot (weighted_sum blk entry.1.1.2 + entry.1.2) entry.2 <= hi)
         (o7_weights ++ o6_weights ++ o5_weights).
Proof.
  intros Hlen Hlo Hblk.
  assert (forallb average_entry (o7_weights ++ o6_weights ++ o5_weights) = true) as Hok
    by (vm_compute; reflexivity).
  rewrite forallb_forall in Hok. apply Forall_forall. intros entry Hin.
  apply list_elem_of_In in Hin. specialize (Hok entry Hin). destruct entry as [[[[r c] terms] rounding] divisor].
  cbn [fst snd]. unfold average_entry in Hok.
  apply andb_true_iff in Hok as [Hok Hterms]. apply andb_true_iff in Hok as [Hok Hsum].
  apply andb_true_iff in Hok as [Hok Hr2]. apply andb_true_iff in Hok as [Hd Hr1].
  apply Z.ltb_lt in Hd, Hr2. apply Z.leb_le in Hr1. apply Z.eqb_eq in Hsum.
  pose proof (weighted_sum_bounds blk lo hi terms Hlen Hblk Hterms) as Hws.
  rewrite Hsum in Hws.
  rewrite Z.quot_div_nonneg by nia. split.
  - apply Z.div_le_lower_bound; nia.
  - apply Z.lt_succ_r, Z.div_lt_upper_bound; nia.
Qed.

Lemma float_same_eq a b : float_same a b = true -> a = b.
Proof.
  destruct a as [s|s| |s m e], b as [s'|s'| |s' m' e']; cbn [float_same];
    try discriminate; try done.
  - by intros ->%Bool.eqb_prop.
  - by intros ->%Bool.eqb_prop.
  - intros H. apply andb_true_iff in H as [H He]. apply andb_true_iff in H as [Hs Hm].
    apply Bool.eqb_prop in Hs. apply Pos.eqb_eq in Hm. apply Z.eqb_eq in He.
    by subst.
Qed.

(** X20. Four levels further, one octave, the scale is twice as large: for
    the level indices whose shift fits an [int],
    [convert_image_index_to_scale] returns at [i] and at [i + 4], and the
    scale of level [i + 4] is exactly twice the scale of level [i]. *)
Theorem scale_doubles_every_octave (i : Z) :
  0 <= i < 108 ->
  exists s,
    convert_image_index_to_scale i = Done s /\
    convert_image_index_to_scale (i + 4) = Done (fmul (float_of_int 2) s).
Proof.
  intros Hi.
  assert (forallb (fun i => match convert_image_index_to_scale i,
                                  convert_image_index_to_scale (i + 4) with
                            | Done s, Done t => float_same t (fmul (float_of_int 2) s)
                            | _, _ => false
                            end)
                  (seqZ 0 108) = true) as Hall by (vm_compute; reflexivity).
  rewrite forallb_forall in Hall.
  specialize (Hall i ltac:(apply list_elem_of_In, elem_of_seqZ; lia)).
  destruct (convert_image_index_to_scale i) as [s|]; [|done].
  destruct (convert_image_index_to_scale (i + 4)) as [t|]; [|done].
  exists s. split; [done|]. f_equal. by apply float_same_eq.
Qed.

Lemma scale_doubles_every_octave_witness :
  0 <= 5 < 108 /\
  exists s,
    convert_image_index_to_scale 5 = Done s /\
    convert_image_index_to_scale (5 + 4) = Done (fmul (float_of_int 2) s).
Proof.
  split; [lia|]. apply (scale_doubles_every_octave 5). lia.
Defined.

Lemma store_byte_Done q i v w w' :
  store_byte q i v w = Done w' ->
  byte_at w' q i = Some (byte_of_Z v) /\
  (forall q' k, q'.1 <> q.1 \/ q'.2 + k <> q.2 + i -> byte_at w' q' k = byte_at w q' k) /\
  (forall b, b <> q.1 -> heap w' !! b = heap w !! b).
Proof.
  unfold store_byte. destruct (heap w !! q.1) as [block|] eqn:Hb; [|discriminate].
  destruct (Z.leb_spec 0 (q.2 + i)); cbn [andb]; [|discriminate].
  destruct (Z.ltb_spec (q.2 + i) (Z.of_nat (length block))); [|discriminate].
  intros [= <-]. split; [|split].
  - unfold byte_at. cbn [set_heap heap]. rewrite lookup_insert_eq.
    destruct (Z.leb_spec 0 (q.2 + i)); [|lia].
    apply list_lookup_insert_eq. lia.
  - intros q' k Hq. unfold byte_at. cbn [set_heap heap].
    destruct (decide (q'.1 = q.1)) as [Heq|Hne]; [|by rewrite lookup_insert_ne].
    rewrite Heq, lookup_insert_eq, Hb. destruct (Z.leb_spec 0 (q'.2 + k)); [|done].
    apply list_lookup_insert_ne. destruct Hq; [done|lia].
  - intros b Hne. cbn [set_heap heap]. by rewrite lookup_insert_ne.
Qed.

Lemma load_byte_Done_byte_at w p i v :
  load_byte w p i = Done v -> exists c, byte_at w p i = Some c /\ v = byte_value c.
Proof.
  rewrite load_byte_byte_at. destruct (byte_at w p i) as [c|]; [|discriminate].
  intros [= <-]. by exists c.
Qed.

Lemma byte_value_bounds c : 0 <= byte_value c <= 255.
Proof. unfold byte_value. pose proof (Byte.to_N_bounded c). lia. Qed.

(** A row and a column below the step name one offset. *)
Lemma row_column_unique step y x y' x' :
  0 <= x < step -> 0 <= x' < step -> step * y + x = step * y' + x' -> y = y' /\ x = x'.
Proof. intros Hx Hx' H. assert (y = y') by nia. subst. lia. Qed.

(** One pixel of [scale21] in place. *)
Lemma scale21_pixel w p step ow x y wz wz' :
  0 <= y -> 0 <= x < ow -> 2 * ow <= step ->
  halved_upto w p step ow (y * ow + x) wz ->
  (do a <- load_byte wz (ptr_add p (step * y * 2)) (Z.shiftl x 1);
   do b <- load_byte wz (ptr_add p (step * y * 2)) (Z.shiftl x 1 + 1);
   do c <- load_byte wz (ptr_add (ptr_add p (step * y * 2)) step) (Z.shiftl x 1);
   do d <- load_byte wz (ptr_add (ptr_add p (step * y * 2)) step) (Z.shiftl x 1 + 1);
   store_byte (ptr_add p (step * y)) x (Z.shiftr (a + b + c + d + 2) 2) wz) = Done wz' ->
  halved_upto w p step ow (y * ow + x + 1) wz'.
Proof.
  intros Hy Hx Hstep (Hdone & Hrest & Hother) H.
  rewrite Z.shiftl_mul_pow2 in H by lia. change (2 ^ 1) with 2 in H.
  assert (forall e, (e = 0 \/ e = 1) -> forall f, (f = 0 \/ f = 1) ->
            byte_at wz p (step * y * 2 + f * step + (x * 2 + e))
            = byte_at w p (step * y * 2 + f * step + (x * 2 + e))) as Hread.
  { intros e He f Hf. apply Hrest. intros x' y' Hy' Hx' Hn Heq.
    destruct (row_column_unique step (y * 2 + f) (x * 2 + e) y' x') as [<- <-]; nia. }
  apply obind_Done in H as (a & Ha & H). apply load_byte_Done_byte_at in Ha as (ca & Ha & ->).
  apply obind_Done in H as (b & Hb & H). apply load_byte_Done_byte_at in Hb as (cb & Hb & ->).
  apply obind_Done in H as (c & Hc & H). apply load_byte_Done_byte_at in Hc as (cc & Hc & ->).
  apply obind_Done in H as (d & Hd & H). apply load_byte_Done_byte_at in Hd as (cd & Hd & ->).
  rewrite byte_at_ptr_add in Ha, Hb, Hc, Hd. rewrite byte_at_ptr_add in Hc, Hd.
  pose proof (Hread 0 ltac:(lia) 0 ltac:(lia)) as Ha'.
  pose proof (Hread 1 ltac:(lia) 0 ltac:(lia)) as Hb'.
  pose proof (Hread 0 ltac:(lia) 1 ltac:(lia)) as Hc'.
  pose proof (Hread 1 ltac:(lia) 1 ltac:(lia)) as Hd'.
  replace (step * y * 2 + 0 * step + (x * 2 + 0)) with (step * y * 2 + x * 2) in Ha' by lia.
  replace (step * y * 2 + 0 * step + (x * 2 + 1)) with (step * y * 2 + (x * 2 + 1))
    in Hb' by lia.
  replace (step * y * 2 + 1 * step + (x * 2 + 0)) with (step * y * 2 + (step + x * 2))
    in Hc' by lia.
  replace (step * y * 2 + 1 * step + (x * 2 + 1)) with (step * y * 2 + (step + (x * 2 + 1)))
    in Hd' by lia.
  rewrite Ha' in Ha. rewrite Hb' in Hb. rewrite Hc' in Hc. rewrite Hd' in Hd.
  assert (Z.shiftr (byte_value ca + byte_value cb + byte_value cc + byte_value cd + 2) 2
          = halved w p step x y) as Hmean.
  { unfold halved.
    assert (value_at w p (step * y * 2 + 2 * x) = byte_value ca) as ->.
    { unfold value_at. replace (step * y * 2 + 2 * x) with (step * y * 2 + x * 2) by lia.
      by rewrite Ha. }
    assert (value_at w p (step * y * 2 + 2 * x + 1) = byte_value cb) as ->.
    { unfold value_at.
      replace (step * y * 2 + 2 * x + 1) with (step * y * 2 + (x * 2 + 1)) by lia.
      by rewrite Hb. }
    assert (value_at w p (step * y * 2 + step + 2 * x) = byte_value cc) as ->.
    { unfold value_at.
      replace (step * y * 2 + step + 2 * x) with (step * y * 2 + (step + x * 2)) by lia.
      by rewrite Hc. }
    assert (value_at w p (step * y * 2 + step + 2 * x + 1) = byte_value cd) as ->.
    { unfold value_at.
      replace (step * y * 2 + step + 2 * x + 1)
        with (step * y * 2 + (step + (x * 2 + 1))) by lia.
      by rewrite Hd. }
    done. }
  rewrite Hmean in H.
  apply store_byte_Done in H as (Hnew & Hframe & Hother').
  rewrite byte_at_ptr_add in Hnew.
  assert (forall k, k <> step * y + x -> byte_at wz' p k = byte_at wz p k) as Hkeep.
  { intros k Hk. apply Hframe. right. cbn [ptr_add fst snd]. lia. }
  split; [|split].
  - intros x' y' Hy' Hx' Hn.
    destruct (decide (y' * ow + x' = y * ow + x)) as [Heq|Hne].
    + destruct (row_column_unique ow y' x' y x) as [-> ->]; [lia|lia|lia|done].
    + rewrite Hkeep; [apply Hdone; lia|].
      intros Heq. destruct (row_column_unique step y' x' y x) as [-> ->]; [lia|lia|done|].
      done.
  - intros k Hk. rewrite Hkeep by (apply Hk; lia).
    apply Hrest. intros x' y' Hy' Hx' Hn. apply Hk; lia.
  - intros b Hb0. rewrite Hother' by done. by apply Hother.
Qed.

Section InPlace.
Variables (w : World) (p : ptr) (step ow : Z).
Variable body : Z -> Z -> World -> outcome World.
Hypothesis body_eq : forall y x wz,
  body y x wz =
  (do a <- load_byte wz (ptr_add p (step * y * 2)) (Z.shiftl x 1);
   do b <- load_byte wz (ptr_add p (step * y * 2)) (Z.shiftl x 1 + 1);
   do c <- load_byte wz (ptr_add (ptr_add p (step * y * 2)) step) (Z.shiftl x 1);
   do d <- load_byte wz (ptr_add (ptr_add p (step * y * 2)) step) (Z.shiftl x 1 + 1);
   store_byte (ptr_add p (step * y)) x (Z.shiftr (a + b + c + d + 2) 2) wz).
Hypothesis room : 2 * ow <= step.

(** One row of [scale21] in place. *)
Lemma scale21_row y n x0 wz wz' :
  0 <= y -> 0 <= x0 -> x0 + Z.of_nat n <= ow ->
  halved_upto w p step ow (y * ow + x0) wz ->
  for_loop n x0 (body y) wz = Done wz' ->
  halved_upto w p step ow (y * ow + x0 + Z.of_nat n) wz'.
Proof using body_eq room.
  intros Hy. revert x0 wz. induction n as [|n IH]; intros x0 wz Hx0 Hn Hinv H.
  - cbn [for_loop] in H. injection H as <-. by rewrite Z.add_0_r.
  - cbn [for_loop] in H. apply obind_Done in H as (wa & Hpixel & Hrest).
    rewrite body_eq in Hpixel.
    apply (scale21_pixel w p step ow x0 y wz wa) in Hpixel; [|lia|lia|done|done].
    replace (y * ow + x0 + Z.of_nat (S n)) with (y * ow + (x0 + 1) + Z.of_nat n) by lia.
    apply (IH (x0 + 1) wa); [lia|lia| |done].
    by replace (y * ow + (x0 + 1)) with (y * ow + x0 + 1) by lia.
Qed.

(** The rows of [scale21] in place. *)
Lemma scale21_rows n y0 wz wz' :
  0 <= y0 -> 0 <= ow ->
  halved_upto w p step ow (y0 * ow) wz ->
  for_loop n y0 (fun y wr => for_loop (Z.to_nat ow) 0 (body y) wr) wz = Done wz' ->
  halved_upto w p step ow ((y0 + Z.of_nat n) * ow) wz'.
Proof using body_eq room.
  intros Hy0 How. revert y0 wz Hy0. induction n as [|n IH]; intros y0 wz Hy0 Hinv H.
  - cbn [for_loop] in H. injection H as <-. by rewrite Z.add_0_r.
  - cbn [for_loop] in H. apply obind_Done in H as (wa & Hrow & Hrest).
    apply (scale21_row y0 _ 0 wz wa) in Hrow; [|lia|lia|lia|by rewrite Z.add_0_r].
    replace ((y0 + Z.of_nat (S n)) * ow) with ((y0 + 1 + Z.of_nat n) * ow) by lia.
    apply (IH (y0 + 1) wa); [lia| |done].
    by replace ((y0 + 1) * ow) with (y0 * ow + 0 + Z.of_nat (Z.to_nat ow)) by lia.
Qed.

End InPlace.

Lemma pixel_value_value_at w image p x y :
  img_data image = Some p ->
  pixel_value w image x y = value_at w p (y * img_step image + x).
Proof.
  intros Hp. unfold pixel_value, value_at. rewrite (pixel_byte_at _ _ _ _ _ Hp).
  by destruct (byte_at w p _).
Qed.

(** X19. [scale21] may write its result over its source: called with the
    same image as source and result, it leaves an image of half the width
    and half the height whose every pixel is the rounded mean of the four
    pixels the source had at that place before the call. *)
Theorem scale21_in_place (src : EpImage) (w : World) (out : EpImage) (w' : World) :
  ep_image_is_empty src = false -> 0 <= img_width src <= img_step src ->
  scale21 src src w = Done (out, w') ->
  img_data out = img_data src /\ img_step out = img_step src /\
  img_width out = Z.quot (img_width src) 2 /\
  img_height out = Z.quot (img_height src) 2 /\
  forall x y, 0 <= x < img_width out -> 0 <= y < img_height out ->
    pixel w' out x y =
    Done (Z.shiftr (pixel_value w src (2 * x) (2 * y)
                    + pixel_value w src (2 * x + 1) (2 * y)
                    + pixel_value w src (2 * x) (2 * y + 1)
                    + pixel_value w src (2 * x + 1) (2 * y + 1) + 2) 2).
Proof.
  intros Hne Hstep H. unfold ep_image_is_empty in Hne.
  destruct (img_data src) as [p|] eqn:Hp; [|discriminate].
  unfold scale21 in H. apply obind_Done in H as (wz & Hloop & [= <- <-]).
  cbn [set_size img_data img_step img_width img_height] in *.
  split; [done|]. split; [done|]. split; [done|]. split; [done|].
  intros x y Hx Hy.
  assert (0 <= Z.quot (img_width src) 2 /\ 2 * Z.quot (img_width src) 2 <= img_width src)
    as [How Hhalf].
  { rewrite Z.quot_div_nonneg by lia.
    pose proof (Z.div_mod (img_width src) 2 ltac:(lia)).
    pose proof (Z.mod_pos_bound (img_width src) 2 ltac:(lia)).
    split; [apply Z.div_pos; lia|lia]. }
  rewrite Hp in Hloop. cbn [deref obind] in Hloop.
  apply (scale21_rows w p (img_step src) (Z.quot (img_width src) 2)
           (fun y x wr =>
              do a <- load_byte wr (ptr_add p (img_step src * y * 2)) (Z.shiftl x 1);
              do b <- load_byte wr (ptr_add p (img_step src * y * 2)) (Z.shiftl x 1 + 1);
              do c <- load_byte wr (ptr_add (ptr_add p (img_step src * y * 2))
                                      (img_step src)) (Z.shiftl x 1);
              do d <- load_byte wr (ptr_add (ptr_add p (img_step src * y * 2))
                                      (img_step src)) (Z.shiftl x 1 + 1);
              store_byte (ptr_add p (img_step src * y)) x
                (Z.shiftr (a + b + c + d + 2) 2) wr))
    in Hloop; [|done|lia|lia|done|].
  2:{ split; [intros; lia|]. by split. }
  destruct Hloop as (Hdone & _).
  rewrite (pixel_byte_at _ _ p) by done. cbn [img_step set_size].
  replace (y * img_step src + x) with (img_step src * y + x) by lia.
  rewrite Hdone by nia. f_equal.
  rewrite byte_value_byte_of_Z, !(pixel_value_value_at w src p) by done.
  unfold halved.
  replace (2 * y * img_step src + 2 * x) with (img_step src * y * 2 + 2 * x) by lia.
  replace (2 * y * img_step src + (2 * x + 1)) with (img_step src * y * 2 + 2 * x + 1)
    by lia.
  replace ((2 * y + 1) * img_step src + (2 * x + 1))
    with (img_step src * y * 2 + img_step src + 2 * x + 1) by lia.
  replace ((2 * y + 1) * img_step src + 2 * x)
    with (img_step src * y * 2 + img_step src + 2 * x) by lia.
  apply Z.mod_small.
  assert (forall k, 0 <= value_at w p k <= 255) as Hval.
  { intros k. unfold value_at. destruct (byte_at w p k) as [c|]; [|lia].
    apply byte_value_bounds. }
  pose proof (Hval (img_step src * y * 2 + 2 * x)).
  pose proof (Hval (img_step src * y * 2 + 2 * x + 1)).
  pose proof (Hval (img_step src * y * 2 + img_step src + 2 * x)).
  pose proof (Hval (img_step src * y * 2 + img_step src + 2 * x + 1)).
  rewrite Z.shiftr_div_pow2 by lia. change (2 ^ 2) with 4.
  split; [apply Z.div_pos; lia|apply Z.div_lt_upper_bound; lia].
Qed.

(** ** The decision interpreter and the scan *)

Section Verdicts.
Context {hdr : Header}.

Lemma classify_loop_result fuel w node image_data image_step object_score r :
  classify_loop fuel w node image_data image_step object_score = Done r ->
  r = 0 \/ r = 1.
Proof.
  revert node object_score. induction fuel as [|fuel IH]; intros node object_score H;
    [discriminate|].
  rewrite classify_loop_step in H. apply obind_Done in H as (tag & _ & H).
  destruct (tag =? 0).
  - apply obind_Done in H as (s & _ & H). by apply IH in H.
  - apply obind_Done in H as (threshold & _ & H).
    destruct (object_score <? threshold); [injection H as <-; by left|].
    cbv zeta in H. apply obind_Done in H as (tag' & _ & H).
    destruct (negb (tag' =? 0)); [injection H as <-; by right|].
    apply obind_Done in H as (s & _ & H). by apply IH in H.
Qed.

End Verdicts.

(** X21. Whatever the blob holds, [classify] does not go on for ever and
    fails no assertion: with nodes of positive size it returns, or it stops
    at a read outside a live block; and when it returns, it returns 0 or
    1. *)
Theorem classify_returns_0_or_1 `{hdr : Header} (w : World) (node image_data : ptr)
    (image_step : Z) :
  0 < sizeof_EpNodeDecision -> 0 < sizeof_EpNodeStage ->
  only_undefined (classify w node image_data image_step) /\
  forall r, classify w node image_data image_step = Done r -> r = 0 \/ r = 1.
Proof.
  intros Hd Hs. split; [by apply only_undefined_classify|].
  intros r H. unfold classify in H. apply obind_Done in H as (s & _ & H).
  by apply classify_loop_result in H.
Qed.

Lemma classify_returns_0_or_1_witness :
  0 < @sizeof_EpNodeDecision example_header /\ 0 < @sizeof_EpNodeStage example_header /\
  only_undefined (@classify example_header accept_all_world (1%positive, 12)
                    (2%positive, 0) 8) /\
  forall r, @classify example_header accept_all_world (1%positive, 12) (2%positive, 0) 8
            = Done r -> r = 0 \/ r = 1.
Proof.
  split; [reflexivity|]. split; [reflexivity|].
  apply (@classify_returns_0_or_1 example_header accept_all_world (1%positive, 12)
           (2%positive, 0) 8); reflexivity.
Defined.

(** X22. The host driver has no loop that goes on for ever and no
    assertion to fail: it returns or stops at undefined behaviour.  When it
    returns, the code is [ERR_SUCCESS] or [ERR_ARGUMENT]; it never reports
    [ERR_MEMORY], also when [malloc] fails. *)
Theorem host_driver_returns_success_or_argument `{hdr : Header} (image : EpImage)
    (classifier : EpCascadeClassifier) (objects : EpRectList) (scan_mode : Z)
    (w : World) :
  0 < sizeof_EpNodeDecision -> 0 < sizeof_EpNodeStage ->
  only_undefined (ep_detect_multi_scale_host image classifier objects scan_mode w) /\
  forall e image' objects' w',
    ep_detect_multi_scale_host image classifier objects scan_mode w
    = Done (e, image', objects', w') ->
    e = ERR_SUCCESS \/ e = ERR_ARGUMENT.
Proof.
  intros Hd Hs. split; [by apply only_undefined_ep_detect_multi_scale_host|].
  intros e image' objects' w' H. unfold ep_detect_multi_scale_host in H.
  apply obind_Done in H as (bad & _ & H).
  destruct (negb (bad =? 0)); [injection H as <- <- <- <-; by right|].
  destruct (ep_image_is_empty image); [injection H as <- <- <- <-; by right|].
  apply obind_Done in H as (meta & _ & H).
  apply obind_Done in H as (ww & _ & H).
  apply obind_Done in H as (wh & _ & H).
  destruct (too_small image ww wh); [injection H as <- <- <- <-; by left|].
  destruct (ep_image_create _ _ w) as [i7 w1].
  destruct (ep_image_create _ _ w1) as [i6 w2].
  destruct (ep_image_create _ _ w2) as [i5 w3].
  apply obind_Done in H as ([[[[[s7 s6] s5] ox] oy] w4] & _ & H).
  apply obind_Done in H as ([[o objects1] w5] & _ & H).
  apply obind_Done in H as (w6 & _ & [= <- <- <- <-]). by left.
Qed.

Lemma host_driver_returns_success_or_argument_witness :
  0 < @sizeof_EpNodeDecision example_header /\ 0 < @sizeof_EpNodeStage example_header /\
  only_undefined (@ep_detect_multi_scale_host example_header small_image accept_all
                    ep_rect_list_create_empty 2 accept_all_world) /\
  forall e image' objects' w',
    @ep_detect_multi_scale_host example_header small_image accept_all
      ep_rect_list_create_empty 2 accept_all_world = Done (e, image', objects', w') ->
    e = ERR_SUCCESS \/ e = ERR_ARGUMENT.
Proof.
  split; [reflexivity|]. split; [reflexivity|].
  apply (@host_driver_returns_success_or_argument example_header small_image accept_all
           ep_rect_list_create_empty 2 accept_all_world); reflexivity.
Defined.




(** ** The offload path *)

(** X24. Every task [add_tasks_for_image] appends, when it returns, keeps
    the contract of [ep_task_list_add] and the tile budget: its area is
    [step * height] and at most [MAX_TILE_BYTES], its step is its width
    rounded up to the 8-pixel grid, it holds no detections, it names the
    level it was cut from, its scan mode is the full scan or a parity, and
    its first byte is 8-byte aligned when the step of the level is. *)
Theorem add_tasks_for_image_contract `{hdr : Header} (w : World) (scan_mode : Z)
    (img_list : EpImgList) (img_index window_width window_height : Z)
    (task_buf task_buf' : EpTaskList) :
  add_tasks_for_image w scan_mode img_list img_index window_width window_height task_buf
  = Done task_buf' ->
  exists prop added,
    imgs img_list !! Z.to_nat img_index = Some prop /\
    tasks task_buf' = tasks task_buf ++ added /\
    Forall (task_in_contract scan_mode img_index (prop_step prop)) added.
Proof.
  unfold add_tasks_for_image. intros H. apply obind_Done in H as (_ & _ & H).
  destruct (imgs img_list !! Z.to_nat img_index) as [prop|]; [|discriminate].
  apply obind_Done in H as ([th tv] & _ & H). exists prop.
  eapply (for_loop_invariant
            (fun t => exists added, tasks t = tasks task_buf ++ added /\
                        Forall (task_in_contract scan_mode img_index (prop_step prop))
                               added)) in H.
  - destruct H as (added & Hadded & Hall). by exists added.
  - intros i t t' Hbody (added & Hadded & Hall).
    destruct (tile_bounds _ _ _ _ _ _ i) as [[[[x1 y1] tw] thh] ts] eqn:Hb.
    apply obind_Done in Hbody as (u & Hbudget & [= <-]).
    unfold assert in Hbudget.
    destruct (Z.leb_spec (ts * thh) MAX_TILE_BYTES) as [Hfit|]; [|discriminate].
    match goal with
    | |- context [ep_task_list_add w t ?a ?b ?c ?d ?e ?f ?g] =>
        destruct (ep_task_list_add_tasks w t a b c d e f g) as [Hsame|Hnew]
    end.
    + exists added. by rewrite Hsame.
    + eexists. rewrite Hnew, Hadded, <- app_assoc. split; [done|].
      apply Forall_app. split; [done|]. constructor; [|constructor].
      unfold tile_bounds in Hb. injection Hb as Hx1 Hy1 Htw Hthh Hts.
      unfold task_in_contract, new_task. cbn.
      split; [done|]. split; [by rewrite <- Hts, Htw|]. split; [done|].
      split; [done|]. split; [done|]. split; [done|]. split.
      * destruct (scan_mode =? SCAN_FULL); [done|].
        rewrite land_1_mod2.
        pose proof (Z.mod_pos_bound (x1 + y1 + scan_mode) 2 ltac:(lia)). lia.
      * intros Hstep. rewrite <- Hx1.
        rewrite Z.add_mod, round_to_8n_grid, Z.mul_mod, Hstep by lia.
        by rewrite Z.mul_0_r.
  - exists []. by rewrite app_nil_r.
Qed.

Section ResultCounts.
Context {hdr : Header}.

Lemma task_rects_length w packed count j tile_x tile_y scale ox oy ow oh objects objects' :
  task_rects w packed count j tile_x tile_y scale ox oy ow oh objects = Done objects' ->
  (length (rects objects) <= length (rects objects') <= length (rects objects) + count)%nat.
Proof.
  revert j objects. induction count as [|count IH]; intros j objects H; cbn [task_rects] in H.
  - injection H as <-. lia.
  - destruct (packed !! Z.to_nat j) as [v|]; [|discriminate].
    apply IH in H.
    match type of H with
    | context [ep_rect_list_add w objects ?a ?b ?c ?d] =>
        destruct (ep_rect_list_add_rects w objects a b c d) as [Hsame|Hnew]
    end.
    + rewrite Hsame in H. lia.
    + rewrite Hnew, length_app in H. cbn [length] in H. lia.
Qed.

Lemma process_tasks_counts w objects task_list images ww wh ox oy total objects' n :
  process_tasks w objects task_list images ww wh ox oy total = Done (objects', n) ->
  n = total + foldr Z.add 0 (map task_items_count task_list) /\
  Forall (fun t => task_items_count t <= MAX_DETECTIONS_PER_TILE) task_list /\
  (length (rects objects) <= length (rects objects')
   <= length (rects objects)
      + foldr Nat.add 0 (map (fun t => Z.to_nat (task_items_count t)) task_list))%nat.
Proof.
  revert objects total. induction task_list as [|task rest IH]; intros objects total H;
    cbn [process_tasks] in H.
  - injection H as <- <-. cbn [map foldr]. split; [lia|]. split; [constructor|lia].
  - apply obind_Done in H as (_ & _ & H).
    destruct (imgs images !! Z.to_nat (task_image_index task)) as [prop|];
      [|discriminate].
    apply obind_Done in H as (_ & _ & H).
    apply obind_Done in H as (scale & _ & H).
    apply obind_Done in H as (u & Hassert & H).
    unfold assert in Hassert.
    destruct (Z.leb_spec (task_items_count task) MAX_DETECTIONS_PER_TILE); [|discriminate].
    apply obind_Done in H as (objects1 & Ht & H).
    apply task_rects_length in Ht. apply IH in H as (-> & Hall & Hlen).
    cbn [map foldr]. split; [lia|]. split; [by constructor|lia].
Qed.

End ResultCounts.

(** X25. When [process_results] returns, no task reported more than
    [MAX_DETECTIONS_PER_TILE] detections, the number returned is the sum of
    the [items_count]s of the tasks, and the list has grown by at most that
    many rectangles: a rectangle that [ep_rect_list_add] has no memory for
    is counted but not kept. *)
Theorem process_results_counts `{hdr : Header} (w : World) (objects : EpRectList)
    (task_list : EpTaskList) (images : EpImgList)
    (window_width window_height offset_x offset_y : Z) (objects' : EpRectList) (n : Z) :
  process_results w objects task_list images window_width window_height offset_x offset_y
  = Done (objects', n) ->
  n = foldr Z.add 0 (map task_items_count (tasks task_list)) /\
  Forall (fun t => task_items_count t <= MAX_DETECTIONS_PER_TILE) (tasks task_list) /\
  (length (rects objects) <= length (rects objects')
   <= length (rects objects)
      + foldr Nat.add 0 (map (fun t => Z.to_nat (task_items_count t)) (tasks task_list)))%nat.
Proof.
  unfold process_results. intros H. apply process_tasks_counts in H as (-> & Hall & Hlen).
  split; [lia|]. by split.
Qed.

(** X26. The two drivers validate their arguments alike: the offload driver
    returns [ERR_ARGUMENT] exactly when the host driver does, for a
    classifier that fails the check or an empty image, and both leave the
    image, the detections and the world as they were. *)
Theorem drivers_validate_alike `{hdr : Header} (cores : Cores) (image : EpImage)
    (classifier : EpCascadeClassifier) (objects : EpRectList) (scan_mode num_cores : Z)
    (w : World) (image' : EpImage) (objects' : EpRectList) (w' : World) :
  (ep_detect_multi_scale_device cores image classifier objects scan_mode num_cores w
   = Done (inl ERR_ARGUMENT, image', objects', w') <->
   ep_detect_multi_scale_host image classifier objects scan_mode w
   = Done (ERR_ARGUMENT, image', objects', w')) /\
  (ep_detect_multi_scale_host image classifier objects scan_mode w
   = Done (ERR_ARGUMENT, image', objects', w') ->
   image' = image /\ objects' = objects /\ w' = w).
Proof.
  unfold ep_detect_multi_scale_device, ep_detect_multi_scale_host.
  destruct (ep_classifier_check classifier w) as [bad|f]; cbn [obind]; [|by split].
  destruct (negb (bad =? 0)).
  { split; [split; intros [= <- <- <-]; done|]. by intros [= <- <- <-]. }
  destruct (ep_image_is_empty image).
  { split; [split; intros [= <- <- <-]; done|]. by intros [= <- <- <-]. }
  destruct (deref (cls_data classifier)) as [meta|f]; cbn [obind]; [|by split].
  destruct (load_int w meta offsetof_window_width) as [ww|f]; cbn [obind]; [|by split].
  destruct (load_int w meta offsetof_window_height) as [wh|f]; cbn [obind]; [|by split].
  destruct (too_small image ww wh); [by split|].
  destruct (ep_image_create _ _ w) as [i7 w1].
  destruct (ep_image_create _ _ w1) as [i6 w2].
  destruct (ep_image_create _ _ w2) as [i5 w3].
  destruct (scale8765 image i7 i6 i5 w3) as [[[[[[s7 s6] s5] ox] oy] w4]|f];
    cbn [obind]; [|by split].
  split; [split|].
  - intros H. exfalso. destruct (negb (load_group_ok cores)); [discriminate|].
    apply obind_Done in H as ([[o images] w5] & _ & H).
    apply obind_Done in H as (_ & _ & H).
    apply obind_Done in H as (task_list & _ & H).
    destruct (negb (all_tasks_finish cores)); [discriminate|].
    apply obind_Done in H as ([objects1 n] & _ & H).
    apply obind_Done in H as (w6 & _ & H). discriminate.
  - intros H. exfalso.
    apply obind_Done in H as ([[o objects1] w5] & _ & H).
    apply obind_Done in H as (w6 & _ & H). discriminate.
  - intros H. exfalso.
    apply obind_Done in H as ([[o objects1] w5] & _ & H).
    apply obind_Done in H as (w6 & _ & H). discriminate.
Qed.

(** ** The further properties at concrete inputs *)

(** X8 at the 2x2 window at [(1, 1)] of the packed 4x4 image. *)
Lemma ep_subimage_clone_copies_witness :
  exists clone w',
    away_from (next_block packed_world) packed_image /\
    0 <= 2 /\ 2 + 7 < 2 ^ 31 /\ round_up_to_8n 2 * 2 < 2 ^ 31 /\
    (img_step packed_image = round_up_to_8n 2 -> 2 mod 8 = 0) /\
    ep_subimage_clone packed_image 1 1 2 2 packed_world = Done (clone, w') /\
    ep_image_is_empty clone = false /\
    img_width clone = 2 /\ img_height clone = 2 /\
    (forall i j, 0 <= i < 2 -> 0 <= j < 2 ->
       exists v, pixel w' clone i j = Done v /\
                 pixel packed_world packed_image (1 + i) (1 + j) = Done v) /\
    (forall b, b <> next_block packed_world -> heap w' !! b = heap packed_world !! b).
Proof.
  assert (away_from (next_block packed_world) packed_image) as Ha
    by (intros d [= <-]; vm_compute; discriminate).
  assert (img_step packed_image = round_up_to_8n 2 -> 2 mod 8 = 0) as Hs
    by (intros H; vm_compute in H; discriminate).
  eexists _, _. split; [exact Ha|]. split; [lia|]. split; [lia|].
  split; [reflexivity|]. split; [exact Hs|].
  split; [vm_compute; reflexivity|]. split; [reflexivity|].
  eapply (ep_subimage_clone_copies packed_image 1 1 2 2 packed_world _ _ Ha
            ltac:(lia) ltac:(lia) ltac:(lia) ltac:(reflexivity) Hs);
    [vm_compute; reflexivity|reflexivity].
Defined.

(** X9 at the file of the 8x2 image. *)
Lemma ep_image_load_codes_witness :
  heap saved_world !! next_block saved_world = None /\
  (forall loaded code w',
     @ep_image_load example_header "image.bin" (Some ERR_OTHER) saved_world
     = Done ((loaded, code), w') ->
     (code = Some ERR_SUCCESS /\ ep_image_is_empty loaded = false /\
      0 < img_width loaded /\ 0 < img_height loaded /\
      img_step loaded = round_up_to_8n (img_width loaded)) \/
     ((code = Some ERR_FILE \/ code = Some ERR_FILE_CONTENTS \/ code = Some ERR_MEMORY) /\
      loaded = ep_image_create_empty /\ heap w' = heap saved_world)) /\
  (forall f,
     @ep_image_load example_header "image.bin" (Some ERR_OTHER) saved_world = Stopped f ->
     f = UndefinedBehaviour /\
     exists contents width height,
       files saved_world !! "image.bin"%string = Some contents /\
       @image_header example_header contents width height /\
       (Z.of_nat (length (drop 12 contents)) < width * height \/
        2 ^ 31 <= width + 7 \/ 2 ^ 31 <= round_up_to_8n width * height)) /\
  (forall contents width height,
     files saved_world !! "image.bin"%string = Some contents ->
     @image_header example_header contents width height ->
     width + 7 < 2 ^ 31 ->
     round_up_to_8n width * height < 2 ^ 31 ->
     round_up_to_8n width * height <= alloc_limit saved_world ->
     Z.of_nat (length (drop 12 contents)) < width * height ->
     @ep_image_load example_header "image.bin" (Some ERR_OTHER) saved_world
     = Stopped UndefinedBehaviour).
Proof.
  split; [vm_compute; reflexivity|].
  apply (@ep_image_load_codes example_header "image.bin" ERR_OTHER saved_world).
  vm_compute. reflexivity.
Defined.

(** X10 at the file of the well-formed classifier. *)
Lemma ep_classifier_load_validates_witness :
  exists loaded code w',
    heap saved_world !! next_block saved_world = None /\
    @ep_classifier_load example_header "classifier.bin" (Some ERR_OTHER) saved_world
    = Done ((loaded, code), w') /\
    ((code = Some ERR_SUCCESS /\ ep_classifier_is_empty loaded = false /\
      @ep_classifier_check example_header loaded w' = Done 0) \/
     ((code = Some ERR_FILE \/ code = Some ERR_FILE_CONTENTS \/ code = Some ERR_MEMORY) /\
      loaded = ep_classifier_create_empty /\ heap w' = heap saved_world)).
Proof.
  assert (heap saved_world !! next_block saved_world = None) as Hfresh
    by (vm_compute; reflexivity).
  eexists _, _, _. split; [exact Hfresh|]. split; [vm_compute; reflexivity|].
  eapply (@ep_classifier_load_validates example_header "classifier.bin" ERR_OTHER
            saved_world _ _ _ Hfresh).
  vm_compute. reflexivity.
Defined.

Lemma example_layout_ok : @layout_ok example_header.
Proof. repeat split; vm_compute; discriminate. Qed.

Lemma accept_all_readable : readable accept_all_world (1%positive, 0) (cls_size accept_all).
Proof.
  exists accept_all_blob. split; [vm_compute; reflexivity|]. split; vm_compute; discriminate.
Qed.

(** X11 at the well-formed classifier. *)
Lemma classifier_save_load_round_trip_witness :
  @layout_ok example_header /\
  wrap32 (@FILE_ID_CLASSIFIER example_header) = @FILE_ID_CLASSIFIER example_header /\
  cls_data accept_all = Some (1%positive, 0) /\
  readable accept_all_world (1%positive, 0) (cls_size accept_all) /\
  @ep_classifier_check example_header accept_all accept_all_world = Done 0 /\
  cls_size accept_all < 2 ^ 31 /\ cls_size accept_all <= alloc_limit accept_all_world /\
  read_only accept_all_world "classifier.bin" = false /\
  cls_size accept_all + 8 <= disk_free accept_all_world /\
  exists w1 loaded w2 q,
    @ep_classifier_save example_header accept_all "classifier.bin" accept_all_world
    = Done (ERR_SUCCESS, w1) /\
    @ep_classifier_load example_header "classifier.bin" (Some ERR_OTHER) w1
    = Done ((loaded, Some ERR_SUCCESS), w2) /\
    cls_size loaded = cls_size accept_all /\ cls_data loaded = Some q /\
    (forall k, 0 <= k < cls_size accept_all ->
       byte_at w2 q k = byte_at accept_all_world (1%positive, 0) k) /\
    ep_classifier_checksum true loaded w2
    = ep_classifier_checksum true accept_all accept_all_world.
Proof.
  assert (@ep_classifier_check example_header accept_all accept_all_world = Done 0)
    as Hcheck by (vm_compute; reflexivity).
  split; [exact example_layout_ok|]. split; [reflexivity|]. split; [reflexivity|].
  split; [exact accept_all_readable|]. split; [exact Hcheck|].
  split; [reflexivity|]. split; [vm_compute; discriminate|]. split; [reflexivity|].
  split; [vm_compute; discriminate|].
  apply (@classifier_save_load_round_trip example_header true accept_all "classifier.bin"
           ERR_OTHER accept_all_world (1%positive, 0) example_layout_ok eq_refl eq_refl
           accept_all_readable Hcheck); [reflexivity|vm_compute; discriminate|reflexivity|
           vm_compute; discriminate].
Defined.

Lemma wide_rows_readable y :
  0 <= y < img_height wide_image ->
  readable wide_world (ptr_add (1%positive, 0) (y * img_step wide_image))
    (img_width wide_image).
Proof.
  intros Hy. exists wide_pixels. split; [vm_compute; reflexivity|].
  cbn [ptr_add fst snd wide_image img_step img_width img_height] in *.
  change (Z.of_nat (length wide_pixels)) with 16. lia.
Qed.

(** X12 at the 8x2 image. *)
Lemma image_save_load_round_trip_witness :
  wrap32 (@FILE_ID_IMAGE example_header) = @FILE_ID_IMAGE example_header /\
  img_data wide_image = Some (1%positive, 0) /\
  0 < img_width wide_image /\ 0 < img_height wide_image /\
  img_width wide_image mod 8 = 0 /\
  img_width wide_image * img_height wide_image < 2 ^ 31 /\
  (forall y, 0 <= y < img_height wide_image ->
     readable wide_world (ptr_add (1%positive, 0) (y * img_step wide_image))
       (img_width wide_image)) /\
  read_only wide_world "image.bin" = false /\
  img_width wide_image * img_height wide_image + 12 <= disk_free wide_world /\
  img_width wide_image * img_height wide_image <= alloc_limit wide_world /\
  exists w1 loaded w2,
    @ep_image_save example_header wide_image "image.bin" wide_world
    = Done (ERR_SUCCESS, w1) /\
    @ep_image_load example_header "image.bin" (Some ERR_OTHER) w1
    = Done ((loaded, Some ERR_SUCCESS), w2) /\
    img_width loaded = img_width wide_image /\
    img_height loaded = img_height wide_image /\
    (forall x y, 0 <= x < img_width wide_image -> 0 <= y < img_height wide_image ->
       exists v, pixel w2 loaded x y = Done v /\ pixel wide_world wide_image x y = Done v) /\
    exists s, ep_image_checksum loaded w2 = Done s /\
              ep_image_checksum wide_image wide_world = Done s.
Proof.
  split; [reflexivity|]. split; [reflexivity|]. split; [reflexivity|].
  split; [reflexivity|]. split; [reflexivity|]. split; [reflexivity|].
  split; [exact wide_rows_readable|]. split; [reflexivity|].
  split; [vm_compute; discriminate|]. split; [vm_compute; discriminate|].
  apply (@image_save_load_round_trip example_header wide_image "image.bin" ERR_OTHER
           wide_world (1%positive, 0) eq_refl eq_refl); try reflexivity;
    try (vm_compute; discriminate).
  exact wide_rows_readable.
Defined.

(** X13 at the well-formed classifier. *)
Lemma ep_classifier_save_codes_witness :
  (forall p, cls_data accept_all = Some p ->
             readable accept_all_world p (cls_size accept_all)) /\
  exists e w',
    @ep_classifier_save example_header accept_all "classifier.bin" accept_all_world
    = Done (e, w') /\ same_memory accept_all_world w' /\
    (e = ERR_ARGUMENT <->
     ep_classifier_is_empty accept_all = true \/ cls_size accept_all <= 0) /\
    (e = ERR_ARGUMENT \/ e = ERR_SUCCESS \/ e = ERR_FILE) /\
    (e = ERR_ARGUMENT -> w' = accept_all_world) /\
    (ep_classifier_is_empty accept_all = false -> 0 < cls_size accept_all ->
     read_only accept_all_world "classifier.bin" = true ->
     e = ERR_FILE /\ w' = accept_all_world) /\
    (ep_classifier_is_empty accept_all = false -> 0 < cls_size accept_all ->
     read_only accept_all_world "classifier.bin" = false ->
     cls_size accept_all + 8 <= disk_free accept_all_world ->
     e = ERR_SUCCESS).
Proof.
  assert (forall p, cls_data accept_all = Some p ->
                    readable accept_all_world p (cls_size accept_all)) as Hread
    by (intros p [= <-]; exact accept_all_readable).
  split; [exact Hread|].
  exact (@ep_classifier_save_codes example_header accept_all "classifier.bin"
           accept_all_world Hread).
Defined.

(** X14 at the well-formed classifier. *)
Lemma ep_classifier_clone_copies_witness :
  exists clone w',
    @layout_ok example_header /\
    (forall p, cls_data accept_all = Some p -> p.1 <> next_block accept_all_world) /\
    ep_classifier_clone accept_all accept_all_world = Done (clone, w') /\
    ep_classifier_is_empty clone = false /\
    cls_size clone = cls_size accept_all /\
    (exists p q, cls_data accept_all = Some p /\ cls_data clone = Some q /\
       forall k, 0 <= k < cls_size accept_all ->
         byte_at w' q k = byte_at accept_all_world p k /\
         is_Some (byte_at accept_all_world p k)) /\
    @ep_classifier_check example_header clone w'
    = @ep_classifier_check example_header accept_all accept_all_world /\
    ep_classifier_checksum true clone w'
    = ep_classifier_checksum true accept_all accept_all_world /\
    (forall b, b <> next_block accept_all_world ->
               heap w' !! b = heap accept_all_world !! b).
Proof.
  assert (forall p, cls_data accept_all = Some p -> p.1 <> next_block accept_all_world)
    as Haway by (intros p [= <-]; vm_compute; discriminate).
  eexists _, _. split; [exact example_layout_ok|]. split; [exact Haway|].
  split; [vm_compute; reflexivity|]. split; [reflexivity|].
  eapply (@ep_classifier_clone_copies example_header true accept_all accept_all_world
            _ _ example_layout_ok Haway); [vm_compute; reflexivity|reflexivity].
Defined.

(** X15 at a new list and three rectangles. *)
Lemma ep_rect_list_reserve_then_add_witness :
  exists e l1,
    0 <= @MAX_DETECTIONS_PER_TILE example_header /\
    @ep_rect_list_reserve example_header accept_all_world ep_rect_list_create_empty 3
    = (e, l1) /\
    ((e = ERR_MEMORY /\ l1 = ep_rect_list_create_empty) \/
     (e = ERR_SUCCESS /\ rects l1 = rects ep_rect_list_create_empty /\
      forall w' items, Z.of_nat (length items) <= 3 ->
        @add_rects example_header w' l1 items
        = (repeat ERR_SUCCESS (length items),
           {| rects := rects ep_rect_list_create_empty ++ items;
              rects_capacity := rects_capacity l1 |}))).
Proof.
  eexists _, _. split; [vm_compute; discriminate|]. split; [reflexivity|].
  apply (@ep_rect_list_reserve_then_add example_header accept_all_world
           ep_rect_list_create_empty 3); [vm_compute; discriminate|reflexivity].
Defined.

(** X16 with the header of the examples. *)
Lemma list_add_keeps_room_witness :
  0 < @MAX_DETECTIONS_PER_TILE example_header /\
  (let '(e, l') := @ep_rect_list_add example_header accept_all_world
                     ep_rect_list_create_empty (float_of_int 1) (float_of_int 2)
                     (float_of_int 3) (float_of_int 3) in
   rects_count l' <= rects_capacity l' /\
   (e = ERR_MEMORY -> l' = ep_rect_list_create_empty) /\
   (e = ERR_SUCCESS \/ e = ERR_MEMORY)).
Proof.
  assert (0 < @MAX_DETECTIONS_PER_TILE example_header) as Hmax by reflexivity.
  split; [exact Hmax|].
  destruct (@list_add_keeps_room example_header accept_all_world Hmax) as (Hrect & _).
  destruct (@ep_rect_list_add example_header accept_all_world ep_rect_list_create_empty
              (float_of_int 1) (float_of_int 2) (float_of_int 3) (float_of_int 3))
    as [e l'] eqn:Hadd.
  apply (Hrect ep_rect_list_create_empty _ _ _ _ _ _ (Z.le_refl 0) Hadd).
Defined.

(** X17 at the first image of a list that starts at offset 0. *)
Lemma ep_img_list_add_lays_out_witness :
  exists l',
    laid_out 0 (imgs (@ep_img_list_create_empty 0)) /\
    cur_offset (ep_img_list_create_empty 0)
    = end_offset 0 (imgs (ep_img_list_create_empty 0)) /\
    @ep_img_list_add example_header accept_all_world (ep_img_list_create_empty 0) 8 4 4
    = (ERR_SUCCESS, l') /\
    laid_out 0 (imgs l') /\ cur_offset l' = end_offset 0 (imgs l') /\
    prev_offset l' = cur_offset (ep_img_list_create_empty 0) /\
    imgs l' = imgs (ep_img_list_create_empty 0)
              ++ [{| prop_data_offset := cur_offset (ep_img_list_create_empty 0);
                     prop_step := 8; prop_width := 4; prop_height := 4 |}].
Proof.
  destruct (@ep_img_list_add_lays_out example_header accept_all_world 0)
    as ((Hlaid & Hend) & Hadd).
  eexists. split; [exact Hlaid|]. split; [exact Hend|]. split; [reflexivity|].
  apply (Hadd (ep_img_list_create_empty 0) 8 4 4 _ Hlaid Hend). reflexivity.
Defined.

(** X18 at the block whose pixels are 0 to 63. *)
Lemma scale8765_averages_witness :
  length (seqZ 0 64) = 64%nat /\ 0 <= 0 /\
  Forall (fun v => 0 <= v <= 63) (seqZ 0 64) /\
  Forall (fun entry : Z * Z * list (Z * Z * Z) * Z * Z =>
            0 <= Z.quot (weighted_sum (seqZ 0 64) entry.1.1.2 + entry.1.2) entry.2 <= 63)
         (o7_weights ++ o6_weights ++ o5_weights).
Proof.
  assert (Forall (fun v => 0 <= v <= 63) (seqZ 0 64)) as Hblk.
  { apply Forall_forall. intros v Hv. apply elem_of_seqZ in Hv. lia. }
  split; [reflexivity|]. split; [lia|]. split; [exact Hblk|].
  apply (scale8765_averages (seqZ 0 64) 0 63 eq_refl ltac:(lia) Hblk).
Defined.

(** X19 at the 4x4 image. *)
Lemma scale21_in_place_witness :
  exists out w',
    ep_image_is_empty small_image = false /\
    0 <= img_width small_image <= img_step small_image /\
    scale21 small_image small_image accept_all_world = Done (out, w') /\
    img_data out = img_data small_image /\ img_step out = img_step small_image /\
    img_width out = Z.quot (img_width small_image) 2 /\
    img_height out = Z.quot (img_height small_image) 2 /\
    forall x y, 0 <= x < img_width out -> 0 <= y < img_height out ->
      pixel w' out x y =
      Done (Z.shiftr (pixel_value accept_all_world small_image (2 * x) (2 * y)
                      + pixel_value accept_all_world small_image (2 * x + 1) (2 * y)
                      + pixel_value accept_all_world small_image (2 * x) (2 * y + 1)
                      + pixel_value accept_all_world small_image (2 * x + 1) (2 * y + 1)
                      + 2) 2).
Proof.
  eexists _, _. split; [reflexivity|]. split; [cbn; lia|].
  split; [vm_compute; reflexivity|].
  eapply (scale21_in_place small_image accept_all_world _ _ eq_refl ltac:(cbn; lia)).
  vm_compute. reflexivity.
Defined.

(** X24 at a level of 100x60 pixels under a 24x24 window. *)
Lemma add_tasks_for_image_contract_witness :
  exists task_buf',
    @add_tasks_for_image example_header (world_of [] []) 2 (one_level 100 60) 0 24 24
      ep_task_list_create_empty = Done task_buf' /\
    exists prop added,
      imgs (one_level 100 60) !! Z.to_nat 0 = Some prop /\
      tasks task_buf' = tasks ep_task_list_create_empty ++ added /\
      Forall (@task_in_contract example_header 2 0 (prop_step prop)) added.
Proof.
  eexists. split; [vm_compute; reflexivity|].
  eapply (@add_tasks_for_image_contract example_header (world_of [] []) 2
            (one_level 100 60) 0 24 24 ep_task_list_create_empty).
  vm_compute. reflexivity.
Defined.

(** X25 at one task that reports one detection. *)
Lemma process_results_counts_witness :
  exists objects' n,
    @process_results example_header accept_all_world ep_rect_list_create_empty
      {| tasks := [reporting_task]; tasks_capacity := 15 |} (one_level 8 8) 3 3 0 0
    = Done (objects', n) /\
    n = foldr Z.add 0 (map task_items_count [reporting_task]) /\
    Forall (fun t => task_items_count t <= @MAX_DETECTIONS_PER_TILE example_header)
           [reporting_task] /\
    (length (rects ep_rect_list_create_empty) <= length (rects objects')
     <= length (rects ep_rect_list_create_empty)
        + foldr Nat.add 0 (map (fun t => Z.to_nat (task_items_count t)) [reporting_task]))%nat.
Proof.
  eexists _, _. split; [vm_compute; reflexivity|].
  eapply (@process_results_counts example_header accept_all_world
            ep_rect_list_create_empty {| tasks := [reporting_task]; tasks_capacity := 15 |}
            (one_level 8 8) 3 3 0 0).
  vm_compute. reflexivity.
Defined.

(** X26 at the empty image. *)
Lemma drivers_validate_alike_witness :
  @ep_detect_multi_scale_host example_header ep_image_create_empty accept_all
    ep_rect_list_create_empty 2 accept_all_world
  = Done (ERR_ARGUMENT, ep_image_create_empty, ep_rect_list_create_empty,
          accept_all_world) /\
  @ep_detect_multi_scale_device example_header no_cores ep_image_create_empty accept_all
    ep_rect_list_create_empty 2 16 accept_all_world
  = Done (inl ERR_ARGUMENT, ep_image_create_empty, ep_rect_list_create_empty,
          accept_all_world).
Proof.
  assert (@ep_detect_multi_scale_host example_header ep_image_create_empty accept_all
            ep_rect_list_create_empty 2 accept_all_world
          = Done (ERR_ARGUMENT, ep_image_create_empty, ep_rect_list_create_empty,
                  accept_all_world)) as Hhost by (vm_compute; reflexivity).
  split; [exact Hhost|].
  exact (proj2 (proj1 (@drivers_validate_alike example_header no_cores
                         ep_image_create_empty accept_all ep_rect_list_create_empty 2 16
                         accept_all_world ep_image_create_empty
                         ep_rect_list_create_empty accept_all_world)) Hhost).
Defined.

(** X27 at the 8x2 image. *)
Lemma ep_image_clone_same_image_witness :
  exists clone w',
    away_from (next_block wide_world) wide_image /\
    0 <= img_width wide_image /\ 0 <= img_height wide_image /\
    img_width wide_image + 7 < 2 ^ 31 /\
    round_up_to_8n (img_width wide_image) * img_height wide_image < 2 ^ 31 /\
    (img_step wide_image = round_up_to_8n (img_width wide_image) ->
     img_width wide_image mod 8 = 0) /\
    ep_image_clone wide_image wide_world = Done (clone, w') /\
    ep_image_is_empty clone = false /\
    img_width clone = img_width wide_image /\ img_height clone = img_height wide_image /\
    (forall x y, 0 <= x < img_width wide_image -> 0 <= y < img_height wide_image ->
       exists v, pixel w' clone x y = Done v /\ pixel wide_world wide_image x y = Done v) /\
    (exists s, ep_image_checksum clone w' = Done s /\
               ep_image_checksum wide_image wide_world = Done s) /\
    (forall b, b <> next_block wide_world -> heap w' !! b = heap wide_world !! b).
Proof.
  assert (away_from (next_block wide_world) wide_image) as Ha
    by (intros d [= <-]; vm_compute; discriminate).
  assert (img_step wide_image = round_up_to_8n (img_width wide_image) ->
          img_width wide_image mod 8 = 0) as Hs by reflexivity.
  eexists _, _. split; [exact Ha|]. split; [cbn; lia|]. split; [cbn; lia|].
  split; [cbn; lia|]. split; [reflexivity|].
  split; [exact Hs|]. split; [vm_compute; reflexivity|]. split; [reflexivity|].
  eapply (ep_image_clone_same_image wide_image wide_world _ _ Ha ltac:(cbn; lia)
            ltac:(cbn; lia) ltac:(cbn; lia) ltac:(reflexivity) Hs);
    [vm_compute; reflexivity|reflexivity].
Defined.

(** ** The buffers of the host driver *)

Lemma store_byte_live q i v w w' b :
  store_byte q i v w = Done w' -> (live w' b <-> live w b).
Proof.
  unfold store_byte, live. destruct (heap w !! q.1) as [block|] eqn:Hb; [|discriminate].
  destruct (_ && _); [|discriminate]. intros [= <-]. cbn [set_heap heap].
  destruct (decide (b = q.1)) as [->|Hne].
  - rewrite lookup_insert_eq, Hb. by split.
  - by rewrite lookup_insert_ne.
Qed.

Lemma store_block_live out out_step y x blk entries w w' b :
  store_block out out_step y x blk entries w = Done w' -> (live w' b <-> live w b).
Proof.
  revert w. induction entries as [|[[[[r c] terms] rounding] divisor] rest IH];
    intros w H; cbn [store_block] in H.
  - by injection H as <-.
  - apply obind_Done in H as (p & _ & H). apply obind_Done in H as (w1 & Hst & H).
    rewrite (IH _ H). by apply (store_byte_live _ _ _ _ _ _ Hst).
Qed.

Lemma scale8765_live src8 out7 out6 out5 w s7 s6 s5 ox oy w' :
  scale8765 src8 out7 out6 out5 w = Done ((s7, s6, s5, ox, oy), w') ->
  img_data s7 = img_data out7 /\ img_data s6 = img_data out6 /\
  img_data s5 = img_data out5 /\ forall b, live w' b <-> live w b.
Proof.
  unfold scale8765. intros H.
  apply obind_Done in H as (w1 & Hloop & [= <- <- <- <- <- <-]).
  split; [done|]. split; [done|]. split; [done|].
  eapply (for_loop_invariant (fun wz => forall b, live wz b <-> live w b));
    [|exact Hloop|done].
  intros by_ t t' Hrow Ht.
  eapply (for_loop_invariant (fun wz => forall b, live wz b <-> live w b));
    [|exact Hrow|exact Ht].
  intros bx u u' Hblk Hu b.
  apply obind_Done in Hblk as (blk & _ & Hblk).
  apply obind_Done in Hblk as (u1 & Hs7 & Hblk).
  apply obind_Done in Hblk as (u2 & Hs6 & Hs5).
  rewrite (store_block_live _ _ _ _ _ _ _ _ b Hs5), (store_block_live _ _ _ _ _ _ _ _ b Hs6),
    (store_block_live _ _ _ _ _ _ _ _ b Hs7). apply Hu.
Qed.

Lemma scale21_live src out w out' w' :
  scale21 src out w = Done (out', w') ->
  img_data out' = img_data out /\ forall b, live w' b <-> live w b.
Proof.
  unfold scale21. intros H. apply obind_Done in H as (w1 & Hloop & [= <- <-]).
  split; [done|].
  eapply (for_loop_invariant (fun wz => forall b, live wz b <-> live w b));
    [|exact Hloop|done].
  intros y t t' Hrow Ht.
  eapply (for_loop_invariant (fun wz => forall b, live wz b <-> live w b));
    [|exact Hrow|exact Ht].
  intros x u u' Hpx Hu b.
  apply obind_Done in Hpx as (s & _ & Hpx). apply obind_Done in Hpx as (o & _ & Hpx).
  repeat (apply obind_Done in Hpx as (? & _ & Hpx)).
  rewrite (store_byte_live _ _ _ _ _ b Hpx). apply Hu.
Qed.

Lemma ep_image_create_live wd ht w img w1 :
  ep_image_create wd ht w = (img, w1) ->
  (next_block w <= next_block w1)%positive /\
  (forall p, img_data img = Some p -> p = (next_block w, 0)) /\
  (forall b, live w1 b <-> live w b \/ img_data img = Some (b, 0)).
Proof.
  unfold ep_image_create. destruct (malloc _ w) as [[p|] w2] eqn:Hm; intros [= <- <-].
  - apply malloc_Some in Hm as (-> & _ & Hheap & Hnext & _). cbn [img_data].
    split; [lia|]. split; [by intros p [= <-]|]. intros b. unfold live. rewrite Hheap.
    destruct (decide (b = next_block w)) as [->|Hne].
    + rewrite lookup_insert_eq. split; [by right|by eexists].
    + rewrite lookup_insert_ne by done. split; [by left|].
      intros [|[=]]; [done|congruence].
  - apply malloc_None in Hm as ->. cbn [img_data ep_image_create_empty].
    split; [lia|]. split; [done|]. intros b. split; [by left|]. by intros [|].
Qed.

Lemma ep_image_release_live image w image' w' :
  ep_image_release image w = Done (image', w') ->
  forall b, live w' b <-> live w b /\ forall p, img_data image = Some p -> b <> p.1.
Proof.
  unfold ep_image_release. intros H. apply obind_Done in H as (w1 & Hfree & [= _ <-]).
  intros b. destruct (img_data image) as [p|].
  - apply free_Done in Hfree. unfold live. rewrite Hfree.
    destruct (decide (b = p.1)) as [->|Hne].
    + rewrite lookup_delete_eq. split; [by intros []|]. intros [_ Hp]. by destruct (Hp p).
    + rewrite lookup_delete_ne by done. split; [|by intros []].
      intros Hl. split; [done|]. by intros ? [= <-].
  - injection Hfree as <-. split; [|by intros []]. by split.
Qed.

Section HostBuffers.
Context {hdr : Header}.

Lemma host_loop_keeps_octave fuel classifier ww wh ox oy scan_mode o idx objects w
    o' objects' w' :
  host_loop fuel classifier ww wh ox oy scan_mode o idx objects w
  = Done (o', objects', w') ->
  img_data (img8 o') = img_data (img8 o) /\ img_data (img7 o') = img_data (img7 o) /\
  img_data (img6 o') = img_data (img6 o) /\ img_data (img5 o') = img_data (img5 o) /\
  forall b, live w' b <-> live w b.
Proof.
  revert o idx objects w. induction fuel as [|fuel IH]; intros o idx objects w H;
    [discriminate|].
  cbn [host_loop] in H.
  destruct (too_small (img8 o) ww wh); [by injection H as <- <- <-|].
  apply obind_Done in H as (s8 & _ & H).
  apply obind_Done in H as (objects1 & _ & H).
  destruct (too_small (img7 o) ww wh); [by injection H as <- <- <-|].
  apply obind_Done in H as (s7 & _ & H).
  apply obind_Done in H as (objects2 & _ & H).
  destruct (too_small (img6 o) ww wh); [by injection H as <- <- <-|].
  apply obind_Done in H as (s6 & _ & H).
  apply obind_Done in H as (objects3 & _ & H).
  destruct (too_small (img5 o) ww wh); [by injection H as <- <- <-|].
  apply obind_Done in H as (s5 & _ & H).
  apply obind_Done in H as (objects4 & _ & H).
  apply obind_Done in H as ([i8 w1] & Hs8 & H). apply scale21_live in Hs8 as [H8 Hl1].
  apply obind_Done in H as ([i7 w2] & Hs7 & H). apply scale21_live in Hs7 as [H7 Hl2].
  apply obind_Done in H as ([i6 w3] & Hs6 & H). apply scale21_live in Hs6 as [H6 Hl3].
  apply obind_Done in H as ([i5 w4] & Hs5 & H). apply scale21_live in Hs5 as [H5 Hl4].
  apply IH in H as (-> & -> & -> & -> & Hl). cbn [img8 img7 img6 img5].
  split; [done|]. split; [done|]. split; [done|]. split; [done|].
  intros b. by rewrite Hl, Hl4, Hl3, Hl2, Hl1.
Qed.

Lemma release_octave_live o w w' :
  release_octave o w = Done w' ->
  forall b, live w' b <->
            live w b /\
            (forall p, img_data (img5 o) = Some p -> b <> p.1) /\
            (forall p, img_data (img6 o) = Some p -> b <> p.1) /\
            (forall p, img_data (img7 o) = Some p -> b <> p.1) /\
            (forall p, img_data (img8 o) = Some p -> b <> p.1).
Proof.
  unfold release_octave. intros H.
  apply obind_Done in H as ([? wa] & H5 & H). apply obind_Done in H as ([? wb] & H6 & H).
  apply obind_Done in H as ([? wc] & H7 & H).
  apply obind_Done in H as ([? wd] & H8 & [= <-]).
  intros b.
  rewrite (ep_image_release_live _ _ _ _ H8 b), (ep_image_release_live _ _ _ _ H7 b),
    (ep_image_release_live _ _ _ _ H6 b), (ep_image_release_live _ _ _ _ H5 b).
  tauto.
Qed.

End HostBuffers.

(** X28. The host driver gives back the pixel buffers it allocates.  The
    heap here holds the blocks of images and classifiers; the buffer of the
    detection list, which is the caller's and which the call may grow, is
    not one of them.  In a world whose blocks from the next one on are
    unused, a call that goes past the early returns leaves, of these blocks,
    exactly those that were allocated before it, less the one of the
    caller's image: the three buffers of the pyramid are released, and no
    other block of an image or a classifier is. *)
Theorem host_driver_frees_its_buffers `{hdr : Header} (image : EpImage)
    (classifier : EpCascadeClassifier) (objects : EpRectList) (scan_mode : Z)
    (w : World) (e : EpErrorCode) (image' : EpImage) (objects' : EpRectList)
    (w' : World) :
  (forall b, (next_block w <= b)%positive -> heap w !! b = None) ->
  ep_detect_multi_scale_host image classifier objects scan_mode w
  = Done (e, image', objects', w') ->
  (image' = image /\ objects' = objects /\ w' = w) \/
  (e = ERR_SUCCESS /\ image' = ep_image_create_empty /\
   exists q, img_data image = Some q /\
     forall b, live w' b <-> live w b /\ b <> q.1).
Proof.
  intros Hfresh H. unfold ep_detect_multi_scale_host in H.
  apply obind_Done in H as (bad & _ & H).
  destruct (negb (bad =? 0)); [left; by injection H as <- <- <- <-|].
  destruct (ep_image_is_empty image) eqn:Hempty; [left; by injection H as <- <- <- <-|].
  apply obind_Done in H as (meta & _ & H).
  apply obind_Done in H as (ww & _ & H).
  apply obind_Done in H as (wh & _ & H).
  destruct (too_small image ww wh); [left; by injection H as <- <- <- <-|].
  destruct (ep_image_create _ _ w) as [i7 w1] eqn:Hc7.
  destruct (ep_image_create _ _ w1) as [i6 w2] eqn:Hc6.
  destruct (ep_image_create _ _ w2) as [i5 w3] eqn:Hc5.
  apply ep_image_create_live in Hc7 as (Hn7 & Hp7 & Hl7).
  apply ep_image_create_live in Hc6 as (Hn6 & Hp6 & Hl6).
  apply ep_image_create_live in Hc5 as (Hn5 & Hp5 & Hl5).
  apply obind_Done in H as ([[[[[s7 s6] s5] ox] oy] w4] & Hscale & H).
  apply scale8765_live in Hscale as (Hd7 & Hd6 & Hd5 & Hl4).
  apply obind_Done in H as ([[o objects1] w5] & Hloop & H).
  apply host_loop_keeps_octave in Hloop as (Ho8 & Ho7 & Ho6 & Ho5 & Hlo).
  cbn [img8 img7 img6 img5] in Ho8, Ho7, Ho6, Ho5.
  apply obind_Done in H as (w6 & Hrel & [= <- <- <- <-]).
  right. split; [done|]. split; [done|].
  unfold ep_image_is_empty in Hempty.
  destruct (img_data image) as [q|] eqn:Hq; [|discriminate].
  exists q. split; [done|]. intros b.
  rewrite (release_octave_live _ _ _ Hrel b), Ho8, Ho7, Ho6, Ho5, Hd7, Hd6, Hd5.
  rewrite Hlo, Hl4, Hl5, Hl6, Hl7.
  assert (forall i wz, (next_block w <= next_block wz)%positive ->
            (forall p, img_data i = Some p -> p = (next_block wz, 0)) ->
            forall p, img_data i = Some p -> ~ live w p.1) as Hnew.
  { intros i wz Hle Hp p Hip Hlive. apply Hp in Hip as ->. cbn [fst] in Hlive.
    unfold live in Hlive. rewrite Hfresh in Hlive by done. by destruct Hlive. }
  pose proof (Hnew i7 w ltac:(lia) Hp7) as Hnew7.
  pose proof (Hnew i6 w1 ltac:(lia) Hp6) as Hnew6.
  pose proof (Hnew i5 w2 ltac:(lia) Hp5) as Hnew5.
  split.
  - intros (Hlive & H5 & H6 & H7 & H8).
    destruct Hlive as [[[Hlive|Ha7]|Ha6]|Ha5].
    + split; [done|]. by apply H8.
    + by destruct (H7 _ Ha7).
    + by destruct (H6 _ Ha6).
    + by destruct (H5 _ Ha5).
  - intros [Hlive Hne]. split; [by repeat left|].
    split; [intros p Hp ->; by apply (Hnew5 p)|].
    split; [intros p Hp ->; by apply (Hnew6 p)|].
    split; [intros p Hp ->; by apply (Hnew7 p)|].
    by intros p [= <-].
Qed.

(** X28 at the run of the host driver on the 4x4 image. *)
Lemma host_driver_frees_its_buffers_witness :
  exists e image' objects' w',
    (forall b, (next_block accept_all_world <= b)%positive ->
               heap accept_all_world !! b = None) /\
    @ep_detect_multi_scale_host example_header small_image accept_all
      ep_rect_list_create_empty 2 accept_all_world = Done (e, image', objects', w') /\
    ((image' = small_image /\ objects' = ep_rect_list_create_empty /\
      w' = accept_all_world) \/
     (e = ERR_SUCCESS /\ image' = ep_image_create_empty /\
      exists q, img_data small_image = Some q /\
        forall b, live w' b <-> live accept_all_world b /\ b <> q.1)).
Proof.
  assert (forall b, (next_block accept_all_world <= b)%positive ->
                    heap accept_all_world !! b = None) as Hfresh.
  { intros b Hb. change (next_block accept_all_world) with 3%positive in Hb.
    unfold accept_all_world, world_of. cbn [heap].
    apply not_elem_of_list_to_map_1.
    change ((zip (map Pos.of_nat (seq 1 (length [accept_all_blob; small_pixels])))
                 [accept_all_blob; small_pixels]).*1) with [1%positive; 2%positive].
    intros Hin. apply elem_of_cons in Hin as [->|Hin]; [lia|].
    apply elem_of_cons in Hin as [->|Hin]; [lia|]. by apply elem_of_nil in Hin. }
  eexists _, _, _, _. split; [exact Hfresh|]. split; [vm_compute; reflexivity|].
  eapply (@host_driver_frees_its_buffers example_header small_image accept_all
            ep_rect_list_create_empty 2 accept_all_world _ _ _ _ Hfresh).
  vm_compute. reflexivity.
Defined.

(** ** Saving an image *)

Lemma fwrite_memory l file w n w' : fwrite l file w = Done (n, w') -> same_memory w w'.
Proof.
  unfold fwrite. destruct (f_open file); [|discriminate]. intros [= _ <-].
  by repeat split.
Qed.

Lemma save_rows_memory rows q width step file w r w' :
  save_rows rows q width step file w = Done (r, w') ->
  same_memory w w' /\ (r = None \/ r = Some ERR_FILE).
Proof.
  revert q w. induction rows as [|rows IH]; intros q w H; cbn [save_rows] in H.
  - injection H as <- <-. split; [apply same_memory_refl|by left].
  - apply obind_Done in H as (row & _ & H).
    apply obind_Done in H as ([written w1] & Hwrite & H).
    apply fwrite_memory in Hwrite.
    destruct (written =? width).
    + apply IH in H as [Hm Hr]. split; [by apply (same_memory_trans _ w1)|done].
    + apply obind_Done in H as (? & _ & [= <- <-]). split; [done|by right].
Qed.

(** X29. [ep_image_save] never changes memory.  It returns [ERR_ARGUMENT]
    exactly for an empty image or a width or height that is not positive, and
    then leaves the files alone too; otherwise it returns [ERR_SUCCESS] or
    [ERR_FILE], and never [ERR_SUCCESS] for a file it cannot open for
    writing. *)
Theorem ep_image_save_codes `{hdr : Header} (image : EpImage) (name : string) (w : World)
    (e : EpErrorCode) (w' : World) :
  ep_image_save image name w = Done (e, w') ->
  same_memory w w' /\
  (e = ERR_ARGUMENT <->
   ep_image_is_empty image = true \/ img_width image <= 0 \/ img_height image <= 0) /\
  (e = ERR_ARGUMENT -> w' = w) /\
  (e = ERR_SUCCESS \/ e = ERR_ARGUMENT \/ e = ERR_FILE) /\
  (read_only w name = true -> e <> ERR_SUCCESS).
Proof.
  unfold ep_image_save, ep_image_is_empty. intros H.
  destruct (img_data image) as [p|].
  2:{ injection H as <- <-. split; [apply same_memory_refl|].
      intuition (try discriminate; try lia; auto). }
  destruct (Z.leb_spec (img_width image) 0) as [Hw|Hw]; cbn [orb] in H.
  { injection H as <- <-. split; [apply same_memory_refl|].
    intuition (try discriminate; try lia; auto). }
  destruct (Z.leb_spec (img_height image) 0) as [Hh|Hh].
  { injection H as <- <-. split; [apply same_memory_refl|].
    intuition (try discriminate; try lia; auto). }
  assert (forall e0 : EpErrorCode, e0 = ERR_SUCCESS \/ e0 = ERR_FILE ->
            read_only w name = false \/ e0 = ERR_FILE ->
            (e0 = ERR_ARGUMENT <->
             false = true \/ img_width image <= 0 \/ img_height image <= 0) /\
            (e0 = ERR_ARGUMENT -> w' = w) /\
            (e0 = ERR_SUCCESS \/ e0 = ERR_ARGUMENT \/ e0 = ERR_FILE) /\
            (read_only w name = true -> e0 <> ERR_SUCCESS)) as Hcodes.
  { intros e0 [->| ->] [Hro|He]; try rewrite Hro;
      intuition (try discriminate; try lia; auto). }
  unfold fopen_wb in H. destruct (read_only w name) eqn:Hro.
  { injection H as <- <-. split; [apply same_memory_refl|].
    apply Hcodes; by right. }
  set (w0 := set_files (<[name := []]> (files w)) (disk_free w) w) in H.
  assert (same_memory w w0) as Hm0 by (by repeat split).
  apply obind_Done in H as ([n1 w1] & Hw1 & H). apply fwrite_memory in Hw1.
  assert (same_memory w w1) as Hm1 by (by apply (same_memory_trans _ w0)).
  destruct (negb (n1 =? 4)).
  { apply obind_Done in H as (? & _ & [= <- <-]). split; [done|]. apply Hcodes; by right. }
  cbv zeta in H.
  apply obind_Done in H as ([n2 w2] & Hw2 & H). apply fwrite_memory in Hw2.
  assert (same_memory w w2) as Hm2 by (by apply (same_memory_trans _ w1)).
  destruct (negb (n2 =? 4)).
  { apply obind_Done in H as (? & _ & [= <- <-]). split; [done|]. apply Hcodes; by right. }
  apply obind_Done in H as ([n3 w3] & Hw3 & H). apply fwrite_memory in Hw3.
  assert (same_memory w w3) as Hm3 by (by apply (same_memory_trans _ w2)).
  destruct (negb (n3 =? 4)).
  { apply obind_Done in H as (? & _ & [= <- <-]). split; [done|]. apply Hcodes; by right. }
  destruct (img_step image =? img_width image).
  - apply obind_Done in H as (pixels & _ & H).
    apply obind_Done in H as ([n4 w4] & Hw4 & H). apply fwrite_memory in Hw4.
    assert (same_memory w w4) as Hm4 by (by apply (same_memory_trans _ w3)).
    destruct (negb (n4 =? _)); apply obind_Done in H as (? & _ & [= <- <-]);
      (split; [done|]); apply Hcodes; auto.
  - apply obind_Done in H as ([failed w4] & Hrows & H).
    apply save_rows_memory in Hrows as [Hm4' Hfailed].
    assert (same_memory w w4) as Hm4 by (by apply (same_memory_trans _ w3)).
    destruct Hfailed as [-> | ->].
    + apply obind_Done in H as (? & _ & [= <- <-]). split; [done|]. apply Hcodes; auto.
    + injection H as <- <-. split; [done|]. apply Hcodes; auto.
Qed.

(** X29 at the 8x2 image. *)
Lemma ep_image_save_codes_witness :
  exists e w',
    @ep_image_save example_header wide_image "image.bin" wide_world = Done (e, w') /\
    same_memory wide_world w' /\
    (e = ERR_ARGUMENT <->
     ep_image_is_empty wide_image = true \/ img_width wide_image <= 0 \/
     img_height wide_image <= 0) /\
    (e = ERR_ARGUMENT -> w' = wide_world) /\
    (e = ERR_SUCCESS \/ e = ERR_ARGUMENT \/ e = ERR_FILE) /\
    (read_only wide_world "image.bin" = true -> e <> ERR_SUCCESS).
Proof.
  eexists _, _. split; [vm_compute; reflexivity|].
  eapply (@ep_image_save_codes example_header wide_image "image.bin" wide_world).
  vm_compute. reflexivity.
Defined.

(** ** The loops of the offload driver end *)

Lemma ends_Done {A} (a : A) : ends (Done a).
Proof. discriminate. Qed.

Lemma ends_only_undefined {A} (m : outcome A) : only_undefined m -> ends m.
Proof. intros H Heq. apply H in Heq. discriminate. Qed.

Lemma ends_bind {A B} (m : outcome A) (k : A -> outcome B) :
  ends m -> (forall a, m = Done a -> ends (k a)) -> ends (obind m k).
Proof.
  intros Hm Hk. destruct m as [a|f]; cbn [obind]; [by apply Hk|].
  intros [= ->]. by apply Hm.
Qed.

Lemma ends_for_loop {S} n start (body : Z -> S -> outcome S) s :
  (forall i t, ends (body i t)) -> ends (for_loop n start body s).
Proof.
  intros Hbody. revert start s. induction n as [|n IH]; intros start s; cbn [for_loop].
  - apply ends_Done.
  - apply ends_bind; [apply Hbody|]. intros t _. apply IH.
Qed.

Lemma only_undefined_load_bytes w p n : only_undefined (load_bytes w p n).
Proof.
  unfold load_bytes. destruct (heap w !! p.1); [|by intros f [= <-]].
  destruct (_ && _); [by intros f [=]|by intros f [= <-]].
Qed.

Lemma only_undefined_send_image w image : only_undefined (send_image w image).
Proof.
  unfold send_image. apply only_undefined_bind; [apply only_undefined_deref|].
  intros p _. apply only_undefined_bind; [apply only_undefined_load_bytes|].
  intros ? _. apply only_undefined_Done.
Qed.

Lemma only_undefined_scale21_realloc src w : only_undefined (scale21_realloc src w).
Proof.
  unfold scale21_realloc. destruct (ep_image_create _ _ w) as [temp w1].
  apply only_undefined_bind; [apply only_undefined_scale21|]. intros [temp' w2] _.
  apply only_undefined_bind; [apply only_undefined_ep_image_release|]. intros [? w3] _.
  apply only_undefined_Done.
Qed.

Lemma scale21_realloc_width src w out w' :
  scale21_realloc src w = Done (out, w') -> img_width out = Z.quot (img_width src) 2.
Proof.
  unfold scale21_realloc. destruct (ep_image_create _ _ w) as [temp w1]. intros H.
  apply obind_Done in H as ([temp' w2] & Hs & H). apply scale21_result in Hs as ->.
  by apply obind_Done in H as ([? w3] & _ & [= <- <-]).
Qed.

Section OffloadTermination.
Context {hdr : Header}.

(** An octave halves every turn: with a window at least one pixel wide and
    more fuel than the image is wide, the loop that sends the pyramid never
    runs out of fuel. *)
Lemma only_undefined_upload_loop fuel ww wh o images w :
  1 <= ww -> (0 < fuel)%nat -> img_width (img8 o) < Z.of_nat fuel ->
  only_undefined (upload_loop fuel ww wh o images w).
Proof.
  intros Hww. revert o images w.
  induction fuel as [|fuel IH]; intros o images w Hpos Hfuel; [lia|].
  cbn [upload_loop].
  destruct (too_small (img8 o) ww wh) eqn:Hsmall; [apply only_undefined_Done|].
  apply only_undefined_bind; [apply only_undefined_send_image|]. intros ? _.
  destruct (too_small (img7 o) ww wh); [apply only_undefined_Done|].
  apply only_undefined_bind; [apply only_undefined_send_image|]. intros ? _.
  destruct (too_small (img6 o) ww wh); [apply only_undefined_Done|].
  apply only_undefined_bind; [apply only_undefined_send_image|]. intros ? _.
  destruct (too_small (img5 o) ww wh); [apply only_undefined_Done|].
  apply only_undefined_bind; [apply only_undefined_send_image|]. intros ? _.
  apply only_undefined_bind; [apply only_undefined_scale21_realloc|]. intros [i8 w1] H8.
  apply only_undefined_bind; [apply only_undefined_scale21_realloc|]. intros [i7 w2] _.
  apply only_undefined_bind; [apply only_undefined_scale21_realloc|]. intros [i6 w3] _.
  apply only_undefined_bind; [apply only_undefined_scale21_realloc|]. intros [i5 w4] _.
  apply scale21_realloc_width in H8.
  unfold too_small in Hsmall. apply orb_false_iff in Hsmall as [Hw _].
  apply Z.ltb_ge in Hw.
  assert (Z.quot (img_width (img8 o)) 2 < img_width (img8 o))
    by (apply Z.quot_lt; lia).
  apply IH; cbn [img8]; lia.
Qed.

Lemma ends_guard {A} b (k : outcome A) : ends k -> ends (do _ <- guard b; k).
Proof. intros Hk. destruct b; cbn [guard obind]; [done|discriminate]. Qed.

Lemma ends_add_tasks_for_image w scan_mode img_list img_index ww wh task_buf :
  ends (add_tasks_for_image w scan_mode img_list img_index ww wh task_buf).
Proof.
  unfold add_tasks_for_image. apply ends_guard.
  destruct (imgs img_list !! Z.to_nat img_index) as [prop|]; [|discriminate].
  apply ends_bind.
  { unfold tile_counts. destruct (_ <? _); repeat apply ends_guard; apply ends_Done. }
  intros [th tv] _. apply ends_for_loop. intros i t.
  destruct (tile_bounds _ _ _ _ _ _ i) as [[[[x1 y1] tw] thh] ts].
  unfold assert. destruct (_ <=? _); cbn [obind]; [apply ends_Done|discriminate].
Qed.

Lemma only_undefined_task_rects w packed count j tile_x tile_y scale ox oy ow oh objects :
  only_undefined (task_rects w packed count j tile_x tile_y scale ox oy ow oh objects).
Proof.
  revert j objects. induction count as [|count IH]; intros j objects; cbn [task_rects].
  - apply only_undefined_Done.
  - destruct (packed !! Z.to_nat j); [apply IH|apply only_undefined_Stopped].
Qed.

Lemma ends_process_tasks w objects task_list images ww wh ox oy total :
  ends (process_tasks w objects task_list images ww wh ox oy total).
Proof.
  revert objects total. induction task_list as [|task rest IH]; intros objects total;
    cbn [process_tasks]; [apply ends_Done|].
  apply ends_guard.
  destruct (imgs images !! Z.to_nat (task_image_index task)); [|discriminate].
  apply ends_guard.
  apply ends_bind;
    [apply ends_only_undefined, only_undefined_convert_image_index_to_scale|].
  intros scale _. unfold assert.
  destruct (_ <=? _); cbn [obind]; [|discriminate].
  apply ends_bind; [apply ends_only_undefined, only_undefined_task_rects|].
  intros objects1 _. apply IH.
Qed.

End OffloadTermination.

(** X30. The offload driver waits for the cores and for nothing else: its
    own loops end, so a call that goes on for ever is one in which the cores
    do not finish their tasks. *)
Theorem offload_driver_waits_only_for_cores `{hdr : Header} (cores : Cores)
    (image : EpImage) (classifier : EpCascadeClassifier) (objects : EpRectList)
    (scan_mode num_cores : Z) (w : World) :
  ep_detect_multi_scale_device cores image classifier objects scan_mode num_cores w
  = Stopped NeverReturns ->
  all_tasks_finish cores = false.
Proof.
  intros H. destruct (all_tasks_finish cores) eqn:Hfinish; [exfalso|done].
  revert H. fold (ends (ep_detect_multi_scale_device cores image classifier objects
                          scan_mode num_cores w)).
  unfold ep_detect_multi_scale_device.
  apply ends_bind; [apply ends_only_undefined, only_undefined_ep_classifier_check|].
  intros bad Hbad.
  destruct (Z.eqb_spec bad 0) as [->|]; cbn [negb]; [|apply ends_Done].
  destruct (ep_image_is_empty image); [apply ends_Done|].
  apply ends_bind; [apply ends_only_undefined, only_undefined_deref|]. intros meta Hmeta.
  apply deref_Done in Hmeta.
  destruct (checked_window _ _ _ Hbad Hmeta) as [Hww _].
  apply ends_bind; [apply ends_only_undefined, only_undefined_load_int|].
  intros ww Hload. apply load_int_Done_int_at in Hload. rewrite Hload in Hww.
  apply ends_bind; [apply ends_only_undefined, only_undefined_load_int|]. intros wh _.
  destruct (too_small image ww wh); [apply ends_Done|]. cbv zeta.
  destruct (ep_image_create _ _ w) as [i7 w1].
  destruct (ep_image_create _ _ w1) as [i6 w2].
  destruct (ep_image_create _ _ w2) as [i5 w3].
  apply ends_bind; [apply ends_only_undefined, only_undefined_scale8765|].
  intros [[[[[s7 s6] s5] ox] oy] w4] _.
  destruct (negb (load_group_ok cores)); [apply ends_Done|].
  apply ends_bind.
  { apply ends_only_undefined, only_undefined_upload_loop; [lia|lia|]. cbn [img8]. lia. }
  intros [[o images] w5] _.
  apply ends_bind; [apply ends_only_undefined, only_undefined_load_bytes|]. intros ? _.
  apply ends_bind.
  { apply ends_for_loop. intros i t. apply ends_add_tasks_for_image. }
  intros task_list _. rewrite Hfinish. cbn [negb].
  apply ends_bind; [apply ends_process_tasks|]. intros [objects1 n] _.
  apply ends_bind; [apply ends_only_undefined, only_undefined_release_octave|].
  intros w6 _. apply ends_Done.
Qed.

(** X30 at cores that never finish. *)
Lemma offload_driver_waits_only_for_cores_witness :
  @ep_detect_multi_scale_device example_header stuck_cores small_image accept_all
    ep_rect_list_create_empty 2 16 roomy_world = Stopped NeverReturns /\
  all_tasks_finish stuck_cores = false.
Proof.
  assert (@ep_detect_multi_scale_device example_header stuck_cores small_image accept_all
            ep_rect_list_create_empty 2 16 roomy_world = Stopped NeverReturns) as Hrun
    by (vm_compute; reflexivity).
  split; [exact Hrun|].
  exact (@offload_driver_waits_only_for_cores example_header stuck_cores small_image
           accept_all ep_rect_list_create_empty 2 16 roomy_world Hrun).
Defined.
